(** * A shallow embedding of the statistics service of chesswrapped_backend

    Source: src/src/services/chess.service.ts (class ChessService).

    Modelling conventions:
    - TypeScript numbers that are game counts, ratings and timestamps are
      integers ([Z]); quotients such as [wins / games] are exact rationals
      ([Q]) wrapped in [jsnum], which also has the non-finite values that a
      JavaScript division by zero produces.
    - A calendar date [new Date(t * 1000).toISOString().split('T')[0]] is
      the UTC day index [t / 86400] (floor division); the ISO date string
      is an injective, order-preserving image of it, so [Map<string, _>]
      keyed by dates becomes [gmap Z _] and [localeCompare] on dates
      becomes [Z] comparison.
    - [''] as "no date yet" is [None]. *)

From Stdlib Require Import ZArith QArith Qround Lqa Ascii String Bool Lia Sorted.
From stdpp Require Import base gmap strings list.

Open Scope Z_scope.

(** ** Games (interface [Game]) *)

Inductive TimeClass := rapid | blitz | bullet.

#[global] Instance TimeClass_eq_dec : EqDecision TimeClass.
Proof. solve_decision. Defined.

Record Side := mkSide {
  username : string;
  rating : Z;
  result : string
}.

Record Game := mkGame {
  time_class : TimeClass;
  white : Side;
  black : Side;
  eco : string;
  opening : string;
  url : string;
  end_time : Z;
  rules : string;
  pgn : string
}.

(** [String.prototype.toLowerCase] on ASCII text. *)
Definition ascii_lower (c : ascii) : ascii :=
  let n := nat_of_ascii c in
  if (65 <=? n)%nat && (n <=? 90)%nat then ascii_of_nat (n + 32) else c.

Fixpoint toLowerCase (s : string) : string :=
  match s with
  | EmptyString => EmptyString
  | String c s' => String (ascii_lower c) (toLowerCase s')
  end.

(** [const isWhite = game.white.username.toLowerCase() === username.toLowerCase()] *)
Definition isWhite (u : string) (g : Game) : bool :=
  String.eqb (toLowerCase (username (white g))) (toLowerCase u).

(** The subject's side and the opponent's side, as every analyzer picks them. *)
Definition player (u : string) (g : Game) : Side :=
  if isWhite u g then white g else black g.

Definition opponent (u : string) (g : Game) : Side :=
  if isWhite u g then black g else white g.

(** [new Date(end_time * 1000).toISOString().split('T')[0]] *)
Definition isoDate (end_time : Z) : Z := end_time / 86400.

(** [games.filter(g => g.time_class === format)] *)
Definition of_class (tc : TimeClass) (games : list Game) : list Game :=
  filter (fun g => time_class g = tc) games.

(** [timeControls = ['rapid', 'blitz', 'bullet']] *)
Definition timeControls : list TimeClass := [rapid; blitz; bullet].

(** A record of three per-category values, updated at one category. *)
Definition upd {A} (f : TimeClass -> A) (tc : TimeClass) (v : A) : TimeClass -> A :=
  fun t => if decide (t = tc) then v else f t.

(** [arr.forEach((x, index) => ...)] threading explicit state. *)
Fixpoint forEachIdx {A St} (f : nat -> A -> St -> St) (index : nat) (l : list A) (s : St) : St :=
  match l with
  | [] => s
  | x :: l' => forEachIdx f (S index) l' (f index x s)
  end.

(** [arr.sort((a, b) => a.date.localeCompare(b.date))]: a stable sort by date. *)
Fixpoint insertByDate (x : Z * Z) (l : list (Z * Z)) : list (Z * Z) :=
  match l with
  | [] => [x]
  | y :: l' => if x.1 <=? y.1 then x :: y :: l' else y :: insertByDate x l'
  end.

Fixpoint sortByDate (l : list (Z * Z)) : list (Z * Z) :=
  match l with
  | [] => []
  | x :: l' => insertByDate x (sortByDate l')
  end.

(** ** Rating analyzer ([generateRatingStats]) *)
Module Ratings.

(** The per-category loop variables ([let maxGainInDay = 0; ...]). *)
Record TcState := mkTc {
  prevRating : Z;
  dailyRatingChanges : gmap Z Z;
  maxGainInDay : Z;
  maxLossInDay : Z;
  bestGainDate : option Z;
  worstLossDate : option Z
}.

Definition tcInit : TcState := mkTc 0 ∅ 0 0 None None.

Record BestDay := mkBestDay { bdDate : option Z; bdFormat : TimeClass; bdGain : Z }.

(** The objects built across all categories; a [(date, value)] pair
    stands for [{ date, gain }], [{ date, loss }] and [{ rating, date }]
    (the latter stored as [(rating, date)]). *)
Record Acc := mkAcc {
  ratingProgress : TimeClass -> list (Z * Z);
  currentRatings : TimeClass -> option Z;
  peakRatings : TimeClass -> option (Z * Z);
  bestRatingGains : TimeClass -> option (Z * Z);
  worstRatingLosses : TimeClass -> option (Z * Z);
  bestRatingDay : BestDay
}.

Definition accInit : Acc :=
  mkAcc (fun _ => []) (fun _ => None) (fun _ => None) (fun _ => None) (fun _ => None)
        (mkBestDay None blitz 0).

(** The body of [timeControlGames.forEach((game, index) => { ... })]. *)
Definition step (u : string) (tc : TimeClass) (index : nat) (game : Game)
    (s : TcState * Acc) : TcState * Acc :=
  let '(st, acc) := s in
  let currentRating := rating (player u game) in
  let date := isoDate (end_time game) in
  let prev := if (index =? 0)%nat then currentRating else prevRating st in
  let progress := upd (ratingProgress acc) tc (ratingProgress acc tc ++ [(date, currentRating)]) in
  let current := upd (currentRatings acc) tc (Some currentRating) in
  let peak :=
    match peakRatings acc tc with
    | Some (r, _) =>
        if r <? currentRating then upd (peakRatings acc) tc (Some (currentRating, date))
        else peakRatings acc
    | None => upd (peakRatings acc) tc (Some (currentRating, date))
    end in
  let ratingChange := currentRating - prev in
  let dailyChange := default 0 (dailyRatingChanges st !! date) in
  let daily := <[date := dailyChange + ratingChange]> (dailyRatingChanges st) in
  let today := dailyChange + ratingChange in
  let '(mg, bgd) :=
    if maxGainInDay st <? today then (today, Some date) else (maxGainInDay st, bestGainDate st) in
  let '(ml, wld) :=
    if today <? maxLossInDay st then (today, Some date) else (maxLossInDay st, worstLossDate st) in
  let brd :=
    if bdGain (bestRatingDay acc) <? mg then mkBestDay bgd tc mg else bestRatingDay acc in
  (mkTc currentRating daily mg ml bgd wld,
   mkAcc progress current peak (bestRatingGains acc) (worstRatingLosses acc) brd).

(** After the loop: sort the progress and record the category's best gain
    and worst loss ([if (bestGainDate)], [if (worstLossDate)]). *)
Definition finish (tc : TimeClass) (st : TcState) (acc : Acc) : Acc :=
  mkAcc (upd (ratingProgress acc) tc (sortByDate (ratingProgress acc tc)))
        (currentRatings acc) (peakRatings acc)
        (match bestGainDate st with
         | Some d => upd (bestRatingGains acc) tc (Some (d, maxGainInDay st))
         | None => bestRatingGains acc
         end)
        (match worstLossDate st with
         | Some d => upd (worstRatingLosses acc) tc (Some (d, Z.abs (maxLossInDay st)))
         | None => worstRatingLosses acc
         end)
        (bestRatingDay acc).

(** One iteration of [for (const timeControl of timeControls)]. *)
Definition processTc (games : list Game) (u : string) (acc : Acc) (tc : TimeClass) : Acc :=
  match of_class tc games with
  | [] => acc
  | tcg =>
      let '(st, acc') := forEachIdx (step u tc) 0%nat tcg (tcInit, acc) in
      finish tc st acc'
  end.

Record Metadata := mkMeta {
  firstGameDate : option Z;
  lastGameDate : option Z;
  totalGamesAnalyzed : Z
}.

Record RatingStats := mkRatingStats { stats : Acc; metadata : Metadata }.

Definition generateRatingStats (games : list Game) (u : string) : RatingStats :=
  mkRatingStats
    (fold_left (processTc games u) timeControls accInit)
    (mkMeta (option_map (fun g => isoDate (end_time g)) (head games))
            (option_map (fun g => isoDate (end_time g)) (last games))
            (Z.of_nat (length games))).

End Ratings.

(** ** The rating analyzer as the claims describe it *)

(** The per-game net change of a category's games, read from the claim's
    words: the current rating minus the previous same-category game's
    rating, the first game contributing zero; paired with its day. *)
Fixpoint netChanges (u : string) (prev : option Z) (l : list Game) : list (Z * Z) :=
  match l with
  | [] => []
  | g :: l' =>
      let r := rating (player u g) in
      (isoDate (end_time g), match prev with Some p => r - p | None => 0 end)
        :: netChanges u (Some r) l'
  end.

(** The total net rating change of a calendar day in one category. *)
Definition dayTotal (games : list Game) (u : string) (tc : TimeClass) (day : Z) : Z :=
  foldr Z.add 0 (map snd (filter (fun p => p.1 = day) (netChanges u None (of_class tc games)))).

(** ** JavaScript arithmetic on counts *)

(** A JavaScript number as the analyzers produce it from integer counts. *)
Inductive jsnum := JNum (q : Q) | JNaN | JPosInf | JNegInf.

(** [a / b] on integer-valued numbers: [0 / 0] is [NaN], [n / 0] is
    [±Infinity]. *)
Definition js_div (a b : Z) : jsnum :=
  if b =? 0 then (if a =? 0 then JNaN else if 0 <? a then JPosInf else JNegInf)
  else JNum (inject_Z a / inject_Z b).

(** [x * 100] *)
Definition js_mul100 (x : jsnum) : jsnum :=
  match x with
  | JNum q => JNum (q * inject_Z 100)
  | y => y
  end.

(** [Math.round(x)]: the nearest integer, halves rounded up;
    [Math.round(NaN)] is [NaN], infinities are kept. *)
Definition mathRound (x : jsnum) : jsnum :=
  match x with
  | JNum q => JNum (inject_Z (Qfloor (q + (1 # 2))))
  | y => y
  end.

(** [x > c] for a finite constant [c]; comparisons with [NaN] are false. *)
Definition js_gt (x : jsnum) (c : Q) : bool :=
  match x with
  | JNum q => negb (Qle_bool q c)
  | JPosInf => true
  | _ => false
  end.

(** [Math.round((a / b) * 100)], the percentage idiom of every analyzer. *)
Definition percent (a b : Z) : jsnum := mathRound (js_mul100 (js_div a b)).

(** ** Strings *)

(** [String.prototype.includes] *)
Fixpoint startsWith (p s : string) : bool :=
  match p, s with
  | EmptyString, _ => true
  | String a p', String b s' => Ascii.eqb a b && startsWith p' s'
  | _, _ => false
  end.

Fixpoint includes (s p : string) : bool :=
  startsWith p s || match s with EmptyString => false | String _ s' => includes s' p end.

Definition is_digit (c : ascii) : bool :=
  let n := nat_of_ascii c in (48 <=? n)%nat && (n <=? 57)%nat.

(** [game.pgn.match(/\d+\./g)?.length || 0]: every match ends at a ['.']
    right after a digit, and every such ['.'] ends one match. *)
Fixpoint dotsAfterDigit (prevDigit : bool) (s : string) : Z :=
  match s with
  | EmptyString => 0
  | String c s' =>
      (if prevDigit && Ascii.eqb c "." then 1 else 0) + dotsAfterDigit (is_digit c) s'
  end.

Definition moveCount (pgn : string) : Z := dotsAfterDigit false pgn.

(** ** Playing-pattern analyzer ([generatePlayingPatternStats])

    The time-of-day and day-of-week buckets read the server's local time
    zone ([getHours], [getDay]) and are not modelled; the fields below are
    the ones computed from UTC dates and move counts. *)
Module Patterns.

Record PatternTotals := mkTotals {
  uniqueDays : gset Z;
  totalPlayingTime : Z
}.

(** The body of [games.forEach(game => { ... })], on the fields above. *)
Definition step (totals : PatternTotals) (game : Game) : PatternTotals :=
  mkTotals ({[isoDate (end_time game)]} ∪ uniqueDays totals)
           (totalPlayingTime totals + moveCount (pgn game) * 2).

Record PatternStats := mkPatterns {
  averageGamesPerDay : jsnum;
  totalPlayingTimeOut : Z;
  averageGameDuration : jsnum
}.

Definition generatePlayingPatternStats (games : list Game) (u : string) : PatternStats :=
  let totals := foldl step (mkTotals ∅ 0) games in
  mkPatterns
    (mathRound (js_div (Z.of_nat (length games)) (Z.of_nat (size (uniqueDays totals)))))
    (totalPlayingTime totals)
    (mathRound (js_div (totalPlayingTime totals) (Z.of_nat (length games)))).

End Patterns.

(** ** JavaScript [Map] in insertion order *)

(** A [Map<string, V>] as its entries in insertion order; [set] on a key
    already present replaces the value in place. *)
Fixpoint mapGet {V} (m : list (string * V)) (k : string) : option V :=
  match m with
  | [] => None
  | (k', v) :: m' => if String.eqb k' k then Some v else mapGet m' k
  end.

Fixpoint mapSet {V} (m : list (string * V)) (k : string) (v : V) : list (string * V) :=
  match m with
  | [] => [(k, v)]
  | (k', v') :: m' => if String.eqb k' k then (k', v) :: m' else (k', v') :: mapSet m' k v
  end.

(** [Array.from(map.values())] *)
Definition mapValues {V} (m : list (string * V)) : list V := map snd m.

(** ** Format-specific analyzer ([isFormatEligible], [generateFormatSpecificStats]) *)
Module FormatSpecific.

Record OpeningAgg := mkAgg { aggName : string; aggCount : Z; aggWins : Z }.

Record OpeningRow := mkRow { rowName : string; rowCount : Z; rowWinRate : jsnum }.

(** [.sort((a, b) => b.count - a.count)]: stable, by descending count. *)
Fixpoint insertByCount (x : OpeningRow) (l : list OpeningRow) : list OpeningRow :=
  match l with
  | [] => [x]
  | y :: l' => if rowCount y <=? rowCount x then x :: y :: l' else y :: insertByCount x l'
  end.

Fixpoint sortByCount (l : list OpeningRow) : list OpeningRow :=
  match l with
  | [] => []
  | x :: l' => insertByCount x (sortByCount l')
  end.

(** The [processOpenings] closure. *)
Definition processOpenings (openings : list (string * OpeningAgg)) : list OpeningRow :=
  sortByCount (map (fun o => mkRow (aggName o) (aggCount o) (percent (aggWins o) (aggCount o)))
                   (mapValues openings)).

Record WinLoss := mkWL { total : Z; byResignation : Z; onTime : Z; byCheckmate : Z }.

Record Draws := mkDraws {
  dTotal : Z; byAgreement : Z; byRepetition : Z; byStalemate : Z; byInsufficientMaterial : Z
}.

Record Results := mkResults { wins : WinLoss; draws : Draws; losses : WinLoss }.

Definition results0 : Results :=
  mkResults (mkWL 0 0 0 0) (mkDraws 0 0 0 0 0) (mkWL 0 0 0 0).

(** [results.wins.total++] or [results.losses.total++] and the
    termination sub-count chosen by [resultCode.includes(...)]. *)
Definition tallyWL (resultCode : string) (w : WinLoss) : WinLoss :=
  let t := total w + 1 in
  if includes resultCode "resignation" then mkWL t (byResignation w + 1) (onTime w) (byCheckmate w)
  else if includes resultCode "time" then mkWL t (byResignation w) (onTime w + 1) (byCheckmate w)
  else if includes resultCode "checkmate" then mkWL t (byResignation w) (onTime w) (byCheckmate w + 1)
  else mkWL t (byResignation w) (onTime w) (byCheckmate w).

Definition tallyDraw (resultCode : string) (d : Draws) : Draws :=
  let t := dTotal d + 1 in
  if includes resultCode "agreement" then
    mkDraws t (byAgreement d + 1) (byRepetition d) (byStalemate d) (byInsufficientMaterial d)
  else if includes resultCode "repetition" then
    mkDraws t (byAgreement d) (byRepetition d + 1) (byStalemate d) (byInsufficientMaterial d)
  else if includes resultCode "stalemate" then
    mkDraws t (byAgreement d) (byRepetition d) (byStalemate d + 1) (byInsufficientMaterial d)
  else if includes resultCode "insufficient" then
    mkDraws t (byAgreement d) (byRepetition d) (byStalemate d) (byInsufficientMaterial d + 1)
  else mkDraws t (byAgreement d) (byRepetition d) (byStalemate d) (byInsufficientMaterial d).

Record BestGame := mkBest { opponentName : string; opponentRating : Z; date : Z; gameUrl : string }.

(** The loop variables: [wins] (here [winCount]), [totalDuration],
    [ratingProgressArray], [bestWin], [worstLoss] and [formatStats.results]. *)
Record LoopState := mkLoop {
  winCount : Z;
  totalDuration : Z;
  ratingProgressArray : list (Z * Z);
  bestWin : option BestGame;
  worstLoss : option BestGame;
  tally : Results
}.

Definition loop0 : LoopState := mkLoop 0 0 [] None None results0.

(** The body of [formatGames.forEach(game => { ... })]; its locals [rating],
    [opponentRating] and [opponent] are [myRating], [oppRating] and [opp]. *)
Definition step (u : string) (st : LoopState) (game : Game) : LoopState :=
  let playerResult := result (player u game) in
  let resultCode := rules game in
  let r := tally st in
  let '(w, r') :=
    if String.eqb playerResult "win" then
      (winCount st + 1, mkResults (tallyWL resultCode (wins r)) (draws r) (losses r))
    else if String.eqb playerResult "repetition" || String.eqb playerResult "stalemate"
         || String.eqb playerResult "insufficient" || includes resultCode "drawn" then
      (winCount st, mkResults (wins r) (tallyDraw resultCode (draws r)) (losses r))
    else
      (winCount st, mkResults (wins r) (draws r) (tallyWL resultCode (losses r))) in
  let oppRating := rating (opponent u game) in
  let opp := username (opponent u game) in
  let myRating := rating (player u game) in
  let date := isoDate (end_time game) in
  let here := mkBest opp oppRating date (url game) in
  let '(bw, wl) :=
    if String.eqb playerResult "win"
       && match bestWin st with None => true | Some b => opponentRating b <? oppRating end
    then (Some here, worstLoss st)
    else if String.eqb playerResult "loss"
       && match worstLoss st with None => true | Some b => oppRating <? opponentRating b end
    then (bestWin st, Some here)
    else (bestWin st, worstLoss st) in
  mkLoop w (totalDuration st + moveCount (pgn game) * 2)
         (ratingProgressArray st ++ [(date, myRating)]) bw wl r'.

(** [interface FormatStats] *)
Record FormatStats := mkFormatStats {
  gamesPlayed : Z;
  winRate : jsnum;
  ratingProgress : list (Z * Z);
  openingsAsWhite : list OpeningRow;
  openingsAsBlack : list OpeningRow;
  results : Results;
  averageGameDuration : jsnum;
  bestWinOut : option BestGame;
  worstLossOut : option BestGame
}.

Definition isFormatEligible (games : list Game) (format : TimeClass) : bool :=
  let n := Z.of_nat (length (of_class format games)) in
  let totalGames := Z.of_nat (length games) in
  (15 <=? n) || js_gt (js_div n totalGames) (1 # 10).

(** The statistics of one eligible category. The two [openingsByColor]
    maps are created empty and no statement of the function writes them. *)
Definition formatStatsOf (games : list Game) (u : string) (format : TimeClass) : FormatStats :=
  let formatGames := of_class format games in
  let openingsByColor_white : list (string * OpeningAgg) := [] in
  let openingsByColor_black : list (string * OpeningAgg) := [] in
  let st := foldl (step u) loop0 formatGames in
  let n := Z.of_nat (length formatGames) in
  mkFormatStats n (percent (winCount st) n) (sortByDate (ratingProgressArray st))
    (processOpenings openingsByColor_white) (processOpenings openingsByColor_black)
    (tally st) (mathRound (js_div (totalDuration st) n)) (bestWin st) (worstLoss st).

(** [formats.forEach(format => { if (this.isFormatEligible(...)) { ... stats[format] = formatStats } })] *)
Definition generateFormatSpecificStats (games : list Game) (u : string) : TimeClass -> option FormatStats :=
  fold_left (fun stats format =>
               if isFormatEligible games format then upd stats format (Some (formatStatsOf games u format))
               else stats)
            timeControls (fun _ => None).

End FormatSpecific.

(** ** The redacted view ([getChessWrappedStats])

    The sections that the view copies unchanged are left abstract. *)
Section Report.

Variables Intro MonthlyGames PlayingPatterns Openings Opponents Performance : Type.

(** [interface ChessWrapped] *)
Record ChessWrapped := mkWrapped {
  intro : Intro;
  monthlyGames : MonthlyGames;
  ratings : Ratings.RatingStats;
  formatSpecific : TimeClass -> option FormatSpecific.FormatStats;
  playingPatterns : PlayingPatterns;
  openings : Openings;
  opponents : Opponents;
  performance : Performance
}.

(** [Omit<FormatStats, 'ratingProgress' | 'bestWin' | 'worstLoss'>] *)
Record FormatStatsView := mkFormatView {
  vGamesPlayed : Z;
  vWinRate : jsnum;
  vOpeningsAsWhite : list FormatSpecific.OpeningRow;
  vOpeningsAsBlack : list FormatSpecific.OpeningRow;
  vResults : FormatSpecific.Results;
  vAverageGameDuration : jsnum
}.

(** [type ChessWrappedStats = Omit<ChessWrapped, 'ratings'> & { ... }] *)
Record ChessWrappedStats := mkWrappedStats {
  sIntro : Intro;
  sMonthlyGames : MonthlyGames;
  sFormatSpecific : TimeClass -> option FormatStatsView;
  sPlayingPatterns : PlayingPatterns;
  sOpenings : Openings;
  sOpponents : Opponents;
  sPerformance : Performance
}.

(** [const { ratingProgress, bestWin, worstLoss, ...formatData } = formatSpecific[format];
     { ...formatData, openings: { asWhite: ....slice(0, 3), asBlack: ....slice(0, 3) } }] *)
Definition cleanFormat (fs : FormatSpecific.FormatStats) : FormatStatsView :=
  mkFormatView (FormatSpecific.gamesPlayed fs) (FormatSpecific.winRate fs)
    (take 3 (FormatSpecific.openingsAsWhite fs)) (take 3 (FormatSpecific.openingsAsBlack fs))
    (FormatSpecific.results fs) (FormatSpecific.averageGameDuration fs).

(** The projection applied by both branches of [getChessWrappedStats]
    (the cached report and the freshly computed one). *)
Definition toStats (w : ChessWrapped) : ChessWrappedStats :=
  let cleanedFormatSpecific :=
    fold_left (fun acc format =>
                 match formatSpecific w format with
                 | Some fs => upd acc format (Some (cleanFormat fs))
                 | None => acc
                 end)
              timeControls (fun _ => None) in
  mkWrappedStats (intro w) (monthlyGames w) cleanedFormatSpecific
    (playingPatterns w) (openings w) (opponents w) (performance w).

(** The same report with its rating section replaced by [r] and, in
    every format-specific entry, the rating progression emptied and the
    best win and worst loss removed. *)
Definition withoutRatingData (w : ChessWrapped) (r : Ratings.RatingStats) : ChessWrapped :=
  mkWrapped (intro w) (monthlyGames w) r
    (fun format =>
       (fun fs => FormatSpecific.mkFormatStats (FormatSpecific.gamesPlayed fs)
                    (FormatSpecific.winRate fs) [] (FormatSpecific.openingsAsWhite fs)
                    (FormatSpecific.openingsAsBlack fs) (FormatSpecific.results fs)
                    (FormatSpecific.averageGameDuration fs) None None)
       <$> formatSpecific w format)
    (playingPatterns w) (openings w) (opponents w) (performance w).

End Report.

(** ** Intro analyzer ([generateIntroStats]): the format breakdown *)
Module Intro.

Record Breakdown := mkBreakdown { count : Z; percentage : jsnum }.

(** [formatBreakdown]: the early return for an empty log, the
    per-game [formatBreakdown[game.time_class].count++], and
    [format.percentage = Math.round((format.count / totalGames) * 100)]. *)
Definition formatBreakdown (games : list Game) : TimeClass -> Breakdown :=
  match games with
  | [] => fun _ => mkBreakdown 0 (JNum 0)
  | _ =>
      let counts := foldl (fun c game => upd c (time_class game) (c (time_class game) + 1))
                          (fun _ => 0) games in
      let totalGames := Z.of_nat (length games) in
      fun format => mkBreakdown (counts format) (percent (counts format) totalGames)
  end.

End Intro.

(** ** The per-user cache ([getCachedData]) *)
Module Cache.

(** [interface CachedData], over the type of the cached report. *)
Record CachedData (W : Type) := mkCached {
  timestamp : Z;
  games : list Game;
  wrappedData : option W
}.
Arguments mkCached {W}.
Arguments timestamp {W}.
Arguments games {W}.
Arguments wrappedData {W}.

(** [private CACHE_DURATION = 5 * 60 * 1000] *)
Definition CACHE_DURATION : Z := 5 * 60 * 1000.

(** [getCachedData] with [Date.now()] as [now]: the cache after the read,
    and the value returned. *)
Definition getCachedData {W} (cache : gmap string (CachedData W)) (u : string) (now : Z)
    : gmap string (CachedData W) * option (CachedData W) :=
  match cache !! toLowerCase u with
  | None => (cache, None)
  | Some cached =>
      if CACHE_DURATION <? now - timestamp cached
      then (delete (toLowerCase u) cache, None)
      else (cache, Some cached)
  end.

(** [setCachedData] *)
Definition setCachedData {W} (cache : gmap string (CachedData W)) (u : string) (data : CachedData W)
    : gmap string (CachedData W) :=
  <[toLowerCase u := data]> cache.

End Cache.

(** ** Opponent analyzer ([generateOpponentStats]) *)
Module OpponentStats.

Record OpponentStat := mkStat {
  games : Z;
  wins : Z;
  losses : Z;
  opponentRating : Z;
  format : TimeClass
}.

(** The body of [games.forEach(game => { ... })] on [opponentStats]. *)
Definition step (u : string) (m : list (string * OpponentStat)) (game : Game)
    : list (string * OpponentStat) :=
  let opp := username (opponent u game) in
  let oppRating := rating (opponent u game) in
  let playerResult := result (player u game) in
  let stats := default (mkStat 0 0 0 oppRating (time_class game)) (mapGet m opp) in
  let stats' :=
    mkStat (games stats + 1)
      (if String.eqb playerResult "win" then wins stats + 1 else wins stats)
      (if negb (String.eqb playerResult "win") && negb (String.eqb playerResult "draw")
       then losses stats + 1 else losses stats)
      oppRating (format stats) in
  mapSet m opp stats'.

Definition opponentStats (gs : list Game) (u : string) : list (string * OpponentStat) :=
  foldl (step u) [] gs.

Record OpponentRow := mkRow {
  rowUsername : string;
  rowGames : Z;
  winRate : jsnum;
  lossRate : jsnum;
  rowOpponentRating : Z;
  percentage : jsnum
}.

(** One element of [processOpponents], with [totalGames = games.length]. *)
Definition processOpponent (totalGames : Z) (entry : string * OpponentStat) : OpponentRow :=
  let '(name, o) := entry in
  mkRow name (games o) (percent (wins o) (games o)) (percent (losses o) (games o))
        (opponentRating o) (percent (games o) totalGames).

(** [Array.from(opponentStats.entries()) ... .filter(opponent => opponent.games >= 1)] *)
Definition sortedOpponents (gs : list Game) (u : string) : list (string * OpponentStat) :=
  filter (fun e => 1 <= games e.2) (opponentStats gs u).

End OpponentStats.

(** ** Win rate and favourite format ([calculateWinRate], [generateIntroStats]) *)
Module WinRate.

(** [calculateWinRate(games, username)] *)
Definition calculateWinRate (games : list Game) (u : string) : jsnum :=
  match games with
  | [] => JNum 0
  | _ =>
      let wins := Z.of_nat (length (filter (fun g => result (player u g) = "win") games)) in
      percent wins (Z.of_nat (length games))
  end.

Record Favorite := mkFavorite { favFormat : TimeClass; favGamesPlayed : Z; favWinRate : jsnum }.

(** [favoriteFormat]: the early return for an empty log, then
    [Object.entries(formatBreakdown).reduce(...)] over rapid, blitz, bullet
    from [{ format: 'blitz', gamesPlayed: 0, winRate: 0 }]. *)
Definition favoriteFormat (games : list Game) (u : string) : Favorite :=
  let init := mkFavorite blitz 0 (JNum 0) in
  match games with
  | [] => init
  | _ =>
      fold_left (fun max format =>
                   let c := Intro.count (Intro.formatBreakdown games format) in
                   if favGamesPlayed max <? c
                   then mkFavorite format c (calculateWinRate (of_class format games) u)
                   else max)
                timeControls init
  end.

End WinRate.

(** ** API-key middleware ([authMiddleware], [config.apiKey]) *)
Module Auth.

(** [req.headers['x-api-key']]: absent, one value, or repeated values. *)
Inductive HeaderValue := HAbsent | HString (s : string) | HList (l : list string).

(** [process.env.API_KEY || ''] *)
Definition configApiKey (env : option string) : string :=
  match env with
  | Some s => if String.eqb s "" then "" else s
  | None => ""
  end.

Inductive Outcome := Unauthorized401 | Next.

(** [if (!apiKey || apiKey !== config.apiKey) return res.status(401)...; next();]
    An empty string is falsy, an array is truthy and never [===] a string. *)
Definition authMiddleware (apiKey : string) (h : HeaderValue) : Outcome :=
  match h with
  | HAbsent => Unauthorized401
  | HString s =>
      if String.eqb s "" then Unauthorized401
      else if String.eqb s apiKey then Next else Unauthorized401
  | HList _ => Unauthorized401
  end.

End Auth.

(** ** Days played: most games in a day, streaks and breaks ([generateIntroStats]) *)
Module IntroDays.

(** [Map<string, number>] keyed by dates, in insertion order. *)
Fixpoint dayGet (m : list (Z * Z)) (k : Z) : option Z :=
  match m with
  | [] => None
  | (k', v) :: m' => if k' =? k then Some v else dayGet m' k
  end.

Fixpoint daySet (m : list (Z * Z)) (k v : Z) : list (Z * Z) :=
  match m with
  | [] => [(k, v)]
  | (k', v') :: m' => if k' =? k then (k', v) :: m' else (k', v') :: daySet m' k v
  end.

(** [gamesByDate.set(date, (gamesByDate.get(date) || 0) + 1)] for each game. *)
Definition gamesByDate (games : list Game) : list (Z * Z) :=
  foldl (fun m game =>
           let date := isoDate (end_time game) in
           daySet m date (default 0 (dayGet m date) + 1)) [] games.

Record DayCount := mkDayCount { dcDate : option Z; dcCount : Z }.

(** [gamesByDate.forEach((count, date) => { if (count > mostGamesInDay.count) ... })] *)
Definition mostGamesInDay (games : list Game) : DayCount :=
  fold_left (fun best e => if dcCount best <? e.2 then mkDayCount (Some e.1) e.2 else best)
            (gamesByDate games) (mkDayCount None 0).

(** [Array.from(gamesByDate.keys()).sort()]: ISO dates sort as their day
    indices. *)
Fixpoint insertZ (x : Z) (l : list Z) : list Z :=
  match l with
  | [] => [x]
  | y :: l' => if x <=? y then x :: y :: l' else y :: insertZ x l'
  end.

Fixpoint sortZ (l : list Z) : list Z :=
  match l with
  | [] => []
  | x :: l' => insertZ x (sortZ l')
  end.

Record Streak := mkStreak { sStart : option Z; sEnd : option Z; sDays : Z; sGames : Z }.

Record Break := mkBreak { bStart : option Z; bEnd : option Z; bDays : Z }.

(** The loop variables [currentStreak], [currentStreakGames],
    [streakStart], [longestStreak] and [longestBreak]. *)
Record StreakState := mkSS {
  currentStreak : Z;
  currentStreakGames : Z;
  streakStart : Z;
  longestStreak : Streak;
  longestBreak : Break
}.

(** The body of [for (let i = 1; i < dates.length; i++)] at [dates[i - 1] = prev]
    and [dates[i] = d]; [daysDiff] is the difference of the day indices. *)
Definition streakStep (byDate : list (Z * Z)) (prev d : Z) (st : StreakState) : StreakState :=
  let daysDiff := d - prev in
  if daysDiff =? 1 then
    let cs := currentStreak st + 1 in
    let csg := currentStreakGames st + default 0 (dayGet byDate d) in
    let ls := if sDays (longestStreak st) <? cs
              then mkStreak (Some (streakStart st)) (Some d) (cs + 1) csg
              else longestStreak st in
    mkSS cs csg (streakStart st) ls (longestBreak st)
  else
    let lb := if bDays (longestBreak st) <? daysDiff - 1
              then mkBreak (Some prev) (Some d) (daysDiff - 1)
              else longestBreak st in
    mkSS 0 (default 0 (dayGet byDate d)) d (longestStreak st) lb.

Fixpoint streakLoop (byDate : list (Z * Z)) (prev : Z) (rest : list Z) (st : StreakState)
    : StreakState :=
  match rest with
  | [] => st
  | d :: rest' => streakLoop byDate d rest' (streakStep byDate prev d st)
  end.

(** [longestStreak] and [longestBreak] of [generateIntroStats] for a
    non-empty log; with no dates the initial values are kept. *)
Definition streaks (games : list Game) : Streak * Break :=
  let byDate := gamesByDate games in
  let init := mkSS 0 0 0 (mkStreak None None 0 0) (mkBreak None None 0) in
  match sortZ (map fst byDate) with
  | [] => (longestStreak init, longestBreak init)
  | d0 :: rest =>
      let st := streakLoop byDate d0 rest
                  (mkSS 0 (default 0 (dayGet byDate d0)) d0 (longestStreak init) (longestBreak init)) in
      (longestStreak st, longestBreak st)
  end.

End IntroDays.

(** ** Monthly distribution ([generateMonthlyGames]) *)
Module Monthly.

Record MonthRow := mkMonthRow {
  month : string;
  mRapid : Z;
  mBlitz : Z;
  mBullet : Z;
  total : Z
}.

Definition months : list string :=
  ["January"; "February"; "March"; "April"; "May"; "June";
   "July"; "August"; "September"; "October"; "November"; "December"].

(** [distribution[monthIndex][game.time_class]++; distribution[monthIndex].total++] *)
Definition bump (tc : TimeClass) (r : MonthRow) : MonthRow :=
  match tc with
  | rapid => mkMonthRow (month r) (mRapid r + 1) (mBlitz r) (mBullet r) (total r + 1)
  | blitz => mkMonthRow (month r) (mRapid r) (mBlitz r + 1) (mBullet r) (total r + 1)
  | bullet => mkMonthRow (month r) (mRapid r) (mBlitz r) (mBullet r + 1) (total r + 1)
  end.

(** [.sort((a, b) => b.total - a.total)]: a stable sort by decreasing total. *)
Fixpoint insertByTotal (x : MonthRow) (l : list MonthRow) : list MonthRow :=
  match l with
  | [] => [x]
  | y :: l' => if total y <=? total x then x :: y :: l' else y :: insertByTotal x l'
  end.

Fixpoint sortByTotal (l : list MonthRow) : list MonthRow :=
  match l with
  | [] => []
  | x :: l' => insertByTotal x (sortByTotal l')
  end.

Record MonthCount := mkMonthCount { mcMonth : string; mcGames : Z }.

Record MonthlyGames := mkMonthlyGames {
  mostActive : MonthCount;
  leastActive : MonthCount;
  distribution : list MonthRow
}.

Section MonthlyGames.

(** [new Date(end_time * 1000).getMonth()]: the month index in the time
    zone of the server, which [generateMonthlyGames] does not fix. *)
Variable getMonth : Z -> nat.

(** One game of [games.forEach]: an index outside [distribution] makes
    [distribution[monthIndex][...]++] throw a [TypeError], here [None]. *)
Definition monthStep (dist : option (list MonthRow)) (game : Game) : option (list MonthRow) :=
  match dist with
  | None => None
  | Some d =>
      let monthIndex := getMonth (end_time game) in
      match d !! monthIndex with
      | Some r => Some (<[monthIndex := bump (time_class game) r]> d)
      | None => None
      end
  end.

Definition generateMonthlyGames (games : list Game) : option MonthlyGames :=
  let distribution0 := map (fun m => mkMonthRow m 0 0 0 0) months in
  match foldl monthStep (Some distribution0) games with
  | None => None
  | Some distribution =>
      let activeMonths := sortByTotal (filter (fun m => 0 < total m) distribution) in
      let mostActive :=
        match activeMonths with
        | m :: _ => mkMonthCount (month m) (total m)
        | [] => mkMonthCount "None" 0
        end in
      let leastActive :=
        match last activeMonths with
        | Some m => mkMonthCount (month m) (total m)
        | None => mkMonthCount "None" 0
        end in
      Some (mkMonthlyGames mostActive leastActive distribution)
  end.

End MonthlyGames.

(** [Date.prototype.getUTCMonth] of [new Date(t * 1000)] (the civil calendar
    from the day count), [getMonth] on a server running in UTC. *)
Definition utcMonth (t : Z) : nat :=
  let z := t / 86400 + 719468 in
  let era := z / 146097 in
  let doe := z - era * 146097 in
  let yoe := (doe - doe / 1460 + doe / 36524 - doe / 146096) / 365 in
  let doy := doe - (365 * yoe + yoe / 4 - yoe / 100) in
  let mp := (5 * doy + 2) / 153 in
  Z.to_nat (if mp <? 10 then mp + 2 else mp - 10).

End Monthly.

(** ** Accuracy analyzer ([generatePerformanceStats])

    Accuracies are Chess.com's decimal percentages; they and their sums are
    exact rationals here. *)
Module Performance.

Record AccTotal := mkAccTotal { accTotal : Q; accCount : Z }.

Record PerfState := mkPerfState {
  totalAccuracy : Q;
  gamesWithAccuracy : Z;
  formatAccuracy : TimeClass -> AccTotal
}.

Record PerformanceStats := mkPerformanceStats {
  overall : option Q;
  byFormat : TimeClass -> option Q
}.

(** [if (accuracy)]: [0] is falsy. *)
Definition truthy (q : Q) : bool := negb (Qeq_bool q 0).

(** [Math.round(x * 100) / 100] *)
Definition round2 (x : Q) : Q := inject_Z (Qfloor (x * 100 + (1 # 2))) / 100.

(** [count >= 3 ? Math.round((total / count) * 100) / 100 : null] *)
Definition averageOrNull (total : Q) (count : Z) : option Q :=
  if 3 <=? count then Some (round2 (total / inject_Z count)) else None.

Section Performance.

(** [game.accuracies]: White's and Black's accuracy, when Chess.com has them. *)
Variable accuracies : Game -> option (Q * Q).

Definition perfStep (u : string) (st : PerfState) (game : Game) : PerfState :=
  match accuracies game with
  | Some (aw, ab) =>
      let accuracy := if isWhite u game then aw else ab in
      if truthy accuracy then
        let fa := formatAccuracy st (time_class game) in
        mkPerfState (totalAccuracy st + accuracy)%Q (gamesWithAccuracy st + 1)
          (upd (formatAccuracy st) (time_class game) (mkAccTotal (accTotal fa + accuracy)%Q (accCount fa + 1)))
      else st
  | None => st
  end.

Definition generatePerformanceStats (games : list Game) (u : string) : PerformanceStats :=
  let st := foldl (perfStep u) (mkPerfState 0 0 (fun _ => mkAccTotal 0 0)) games in
  mkPerformanceStats (averageOrNull (totalAccuracy st) (gamesWithAccuracy st))
    (fun tc => averageOrNull (accTotal (formatAccuracy st tc)) (accCount (formatAccuracy st tc))).

End Performance.

End Performance.

(** ** Opening analyzer ([generateOpeningStats])

    The PGN is ASCII text; its line terminators are LF and CR. *)
Module Openings.

Definition dquote : ascii := "034".

(** The texts that open an [ECO] and an [ECOUrl] tag, each ending in a
    double quote, and the text that closes a tag: a double quote and [\]]. *)
Definition ecoOpen : string := "[ECO " ++ String dquote EmptyString.
Definition ecoUrlOpen : string := "[ECOUrl " ++ String dquote EmptyString.
Definition tagClose : string := String dquote "]".

Definition isLineTerminator (c : ascii) : bool := Ascii.eqb c "010" || Ascii.eqb c "013".

(** The lazy group [(.*?)] followed by the closing text: the shortest run
    of non-terminator characters that the closing text follows. *)
Fixpoint lazyGroup (s : string) : option string :=
  if startsWith tagClose s then Some EmptyString
  else match s with
       | EmptyString => None
       | String c s' => if isLineTerminator c then None else option_map (String c) (lazyGroup s')
       end.

Fixpoint dropN (n : nat) (s : string) : string :=
  match n, s with
  | O, _ => s
  | S n', String _ s' => dropN n' s'
  | S _, EmptyString => EmptyString
  end.

(** [s.match(/\[ECO ...(.*?)...\]/)] and its first group: the leftmost
    start position at which the opening text, the lazy group and the
    closing text match. *)
Fixpoint regexGroup (open s : string) : option string :=
  match (if startsWith open s then lazyGroup (dropN (String.length open) s) else None) with
  | Some g => Some g
  | None => match s with EmptyString => None | String _ s' => regexGroup open s' end
  end.

(** [s.split('/')] *)
Fixpoint splitOn (sep : ascii) (s : string) : list string :=
  match s with
  | EmptyString => [EmptyString]
  | String c s' =>
      if Ascii.eqb c sep then EmptyString :: splitOn sep s'
      else match splitOn sep s' with
           | w :: ws => String c w :: ws
           | [] => [String c EmptyString]
           end
  end.

(** [urlParts[urlParts.length - 1]]; [split] never returns an empty array. *)
Definition lastSegment (u : string) : string := default EmptyString (last (splitOn "/" u)).

(** [.replace(/-/g, ' ')] *)
Fixpoint replaceDashes (s : string) : string :=
  match s with
  | EmptyString => EmptyString
  | String c s' => String (if Ascii.eqb c "-" then " "%char else c) (replaceDashes s')
  end.

(** [eco] and [openingName] as read from the PGN; [if (game.pgn)] skips the
    empty string. *)
Definition ecoAndName (pgn : string) : string * string :=
  match pgn with
  | EmptyString => ("Unknown", "Unknown")
  | _ =>
      (default "Unknown" (regexGroup ecoOpen pgn),
       match regexGroup ecoUrlOpen pgn with
       | Some u => replaceDashes (lastSegment u)
       | None => "Unknown"
       end)
  end.

(** [`${eco} - ${openingName}`] *)
Definition fullOpeningName (pgn : string) : string :=
  let '(eco, openingName) := ecoAndName pgn in eco ++ " - " ++ openingName.

Record OpeningData := mkOpeningData { odName : string; odCount : Z; odWins : Z }.

(** [openingsByColor.white] and [openingsByColor.black]: [Map]s in insertion order. *)
Definition ByColor : Type := list (string * OpeningData) * list (string * OpeningData).

Definition openingStep (u : string) (st : ByColor) (game : Game) : ByColor :=
  let isW := isWhite u game in
  let playerResult := if isW then result (white game) else result (black game) in
  let name := fullOpeningName (pgn game) in
  let m := if isW then st.1 else st.2 in
  let openingData := default (mkOpeningData name 0 0) (mapGet m name) in
  let openingData' :=
    mkOpeningData (odName openingData) (odCount openingData + 1)
      (if String.eqb playerResult "win" then odWins openingData + 1 else odWins openingData) in
  let m' := mapSet m name openingData' in
  if isW then (m', st.2) else (st.1, m').

Record OpeningStat := mkOpeningStat {
  osName : string;
  osCount : Z;
  osWinRate : jsnum;
  osPercentage : jsnum
}.

(** [a - b] on numbers. *)
Definition js_sub (a b : jsnum) : jsnum :=
  match a, b with
  | JNum x, JNum y => JNum (x - y)
  | JNaN, _ | _, JNaN => JNaN
  | JPosInf, JPosInf | JNegInf, JNegInf => JNaN
  | JPosInf, _ | _, JNegInf => JPosInf
  | JNegInf, _ | _, JPosInf => JNegInf
  end.

(** [arr.sort(compare)]: a stable sort; [x] is put after [y] when
    [compare(x, y) > 0]. *)
Fixpoint insertBy {A} (compare : A -> A -> jsnum) (x : A) (l : list A) : list A :=
  match l with
  | [] => [x]
  | y :: l' => if js_gt (compare x y) 0 then y :: insertBy compare x l' else x :: y :: l'
  end.

Fixpoint sortBy {A} (compare : A -> A -> jsnum) (l : list A) : list A :=
  match l with
  | [] => []
  | x :: l' => insertBy compare x (sortBy compare l')
  end.

Definition byCountDesc (a b : OpeningStat) : jsnum := JNum (inject_Z (osCount b - osCount a)).
Definition byWinRateDesc (a b : OpeningStat) : jsnum := js_sub (osWinRate b) (osWinRate a).
Definition byWinRateAsc (a b : OpeningStat) : jsnum := js_sub (osWinRate a) (osWinRate b).

(** The [processOpenings] closure. *)
Definition processOpenings (totalGames : Z) (openings : list (string * OpeningData)) : list OpeningStat :=
  sortBy byCountDesc
    (map (fun o => mkOpeningStat (odName o) (odCount o) (percent (odWins o) (odCount o))
                     (percent (odCount o) totalGames))
         (filter (fun o => 2 <= odCount o) (mapValues openings))).

Definition noOpenings : list OpeningStat := [mkOpeningStat "No openings recorded" 0 (JNum 0) (JNum 0)].

(** The [processTopOpenings] closure: its result, and the array it was
    given, which [openings.sort] reorders in place. *)
Definition processTopOpenings (openings : list OpeningStat) : list OpeningStat * list OpeningStat :=
  match openings with
  | [] => (noOpenings, openings)
  | _ => let sorted := sortBy byWinRateDesc openings in (take 3 sorted, sorted)
  end.

(** The [processWorstOpenings] closure. *)
Definition processWorstOpenings (openings : list OpeningStat) : list OpeningStat :=
  match openings with
  | [] => noOpenings
  | _ => take 3 (sortBy byWinRateAsc (filter (fun o => 2 <= osCount o) openings))
  end.

Record ColorOpenings := mkColorOpenings { topOpenings : list OpeningStat; worstOpenings : list OpeningStat }.

Record OpeningStats := mkOpeningStats { asWhite : ColorOpenings; asBlack : ColorOpenings }.

(** [asWhite.topOpenings] is evaluated before [asWhite.worstOpenings], which
    reads the array that [processTopOpenings] sorted. *)
Definition generateOpeningStats (games : list Game) (u : string) : OpeningStats :=
  let openingsByColor := foldl (openingStep u) ([], []) games in
  let totalGames := Z.of_nat (length games) in
  let whiteOpenings := processOpenings totalGames openingsByColor.1 in
  let blackOpenings := processOpenings totalGames openingsByColor.2 in
  let '(topWhite, whiteOpenings') := processTopOpenings whiteOpenings in
  let worstWhite := processWorstOpenings whiteOpenings' in
  let '(topBlack, blackOpenings') := processTopOpenings blackOpenings in
  let worstBlack := processWorstOpenings blackOpenings' in
  mkOpeningStats (mkColorOpenings topWhite worstWhite) (mkColorOpenings topBlack worstBlack).

End Openings.

(** ** Opponent selection ([generateOpponentStats], after the counting loop)

    [sortedOpponents] is one array that [mostPlayed], [bestPerformance] and
    [worstPerformance] sort in place one after the other; each format's
    [formatOpponents] is filtered from that array after the three sorts and
    is itself sorted in place three times. *)
Module OpponentSelect.
Import OpponentStats.

Definition Entry : Type := string * OpponentStat.

(** [(a, b) => b.games - a.games] *)
Definition byGamesDesc (a b : Entry) : jsnum := JNum (inject_Z (games b.2 - games a.2)).

(** [(a, b) => (b.wins / b.games) - (a.wins / a.games)] *)
Definition byWinRateDesc (a b : Entry) : jsnum :=
  Openings.js_sub (js_div (wins b.2) (games b.2)) (js_div (wins a.2) (games a.2)).

(** [(a, b) => (b.losses / b.games) - (a.losses / a.games)] *)
Definition byLossRateDesc (a b : Entry) : jsnum :=
  Openings.js_sub (js_div (losses b.2) (games b.2)) (js_div (losses a.2) (games a.2)).

(** The per-format comparator, [(a, b) => (b.losses / b.games) - (a.losses / b.games)]:
    both quotients divide by [b.games]. *)
Definition byLossFormat (a b : Entry) : jsnum :=
  Openings.js_sub (js_div (losses b.2) (games b.2)) (js_div (losses a.2) (games b.2)).

Record PerformanceRow := mkPerf {
  perfUsername : string;
  perfGames : Z;
  perfWinRate : jsnum;
  perfLossRate : jsnum;
  perfOpponentRating : Z;
  minGames : Z
}.

(** One element of [processPerformance]. *)
Definition processPerformance (entry : Entry) : PerformanceRow :=
  let '(name, o) := entry in
  mkPerf name (games o) (percent (wins o) (games o)) (percent (losses o) (games o))
         (opponentRating o) 1.

Definition defaultOpponent : OpponentRow :=
  mkRow "No opponents found" 0 (JNum 0) (JNum 0) 0 (JNum 0).

Definition defaultPerformance : PerformanceRow :=
  mkPerf "No opponents found" 0 (JNum 0) (JNum 0) 0 1.

Record Selection := mkSelection {
  mostPlayed : list OpponentRow;
  bestPerformance : list PerformanceRow;
  worstPerformance : list PerformanceRow
}.

Record OpponentsResult := mkOpponents {
  overall : Selection;
  byFormat : TimeClass -> Selection
}.

(** The three in-place sorts of one array and the first three rows of each. *)
Definition select (totalGames : Z) (lossCompare : Entry -> Entry -> jsnum) (s0 : list Entry)
    : Selection * list Entry :=
  let s1 := Openings.sortBy byGamesDesc s0 in
  let mp := map (processOpponent totalGames) (take 3 s1) in
  let s2 := Openings.sortBy byWinRateDesc s1 in
  let bp := map processPerformance (take 3 s2) in
  let s3 := Openings.sortBy lossCompare s2 in
  let wp := map processPerformance (take 3 s3) in
  (mkSelection mp bp wp, s3).

Definition formatSelection (totalGames : Z) (sorted : list Entry) (f : TimeClass) : Selection :=
  let formatOpponents := filter (fun e => format e.2 = f) sorted in
  match formatOpponents with
  | [] => mkSelection [defaultOpponent] [defaultPerformance] [defaultPerformance]
  | _ => (select totalGames byLossFormat formatOpponents).1
  end.

(** [rows.length > 0 ? rows : [d]] *)
Definition orDefault {B} (l : list B) (d : B) : list B := match l with [] => [d] | _ => l end.

Definition generateOpponentSelection (gs : list Game) (u : string) : OpponentsResult :=
  let totalGames := Z.of_nat (length gs) in
  let '(sel, sorted) := select totalGames byLossRateDesc (sortedOpponents gs u) in
  mkOpponents
    (mkSelection (orDefault (mostPlayed sel) defaultOpponent)
                 (orDefault (bestPerformance sel) defaultPerformance)
                 (orDefault (worstPerformance sel) defaultPerformance))
    (formatSelection totalGames sorted).

End OpponentSelect.

(** ** Sample inputs *)
Module Samples.

(** A game of ["alice"] (White) against ["bob"], ending at [t] seconds
    with ["alice"] rated [r] and her result code [res]. *)
Definition aliceGame (tc : TimeClass) (t r : Z) (res : string) : Game :=
  mkGame tc (mkSide "alice" r res)
    (mkSide "bob" 1500 (if String.eqb res "win" then "resigned" else "win")) "" "" "" t "" "".

(** Rapid games on UTC day 0 with ratings 1000, 1010, 1002 (day total +2,
    running peak +10) and on day 1 with rating 1007 (day total +5). *)
Definition gainLog : list Game :=
  [aliceGame rapid 100 1000 "win"; aliceGame rapid 200 1010 "win";
   aliceGame rapid 300 1002 "resigned"; aliceGame rapid 86500 1007 "win"].

(** Rapid games on UTC day 0 with ratings 1000, 990, 1005 (day total +5,
    running low -10) and on day 1 with rating 1001 (day total -4). *)
Definition lossLog : list Game :=
  [aliceGame rapid 100 1000 "win"; aliceGame rapid 200 990 "resigned";
   aliceGame rapid 300 1005 "win"; aliceGame rapid 86500 1001 "resigned"].

(** 10 rapid games and 190 blitz games. *)
Definition mixedLog : list Game :=
  map (fun i => aliceGame rapid (Z.of_nat i) 1200 "win") (seq 0 10)
  ++ map (fun i => aliceGame blitz (Z.of_nat i) 1200 "win") (seq 10 190).

(** Three games of ["alice"] against ["bob"]: two wins and a loss. *)
Definition bobLog : list Game :=
  [aliceGame rapid 100 1000 "win"; aliceGame blitz 200 1010 "resigned";
   aliceGame rapid 300 1002 "win"].

End Samples.

(** * Properties *)

(** ** Rating analyzer *)
Module RatingsFacts.
Import Ratings.

Lemma step_currentRatings u tc i g s :
  currentRatings (step u tc i g s).2 = upd (currentRatings s.2) tc (Some (rating (player u g))).
Proof.
  destruct s as [st acc]. unfold step. cbn.
  repeat case_match; reflexivity.
Qed.

Lemma last_cons_opt {A} (x : A) (l : list A) :
  last (x :: l) = match last l with Some y => Some y | None => Some x end.
Proof.
  destruct l as [|y l]; [reflexivity|].
  rewrite last_cons_cons. destruct (last (y :: l)) eqn:E; [reflexivity|].
  by apply last_None in E.
Qed.

Lemma loop_currentRatings u tc l i s t :
  currentRatings (forEachIdx (step u tc) i l s).2 t =
  if decide (t = tc) then
    match last l with
    | Some g => Some (rating (player u g))
    | None => currentRatings s.2 t
    end
  else currentRatings s.2 t.
Proof.
  induction l as [|g l IH] in i, s |- *; simpl.
  - by case_decide.
  - rewrite IH, step_currentRatings, last_cons_opt. unfold upd.
    case_decide; [|reflexivity]. by destruct (last l).
Qed.

Lemma processTc_currentRatings games u acc tc t :
  currentRatings (processTc games u acc tc) t =
  if decide (t = tc) then
    match last (of_class tc games) with
    | Some g => Some (rating (player u g))
    | None => currentRatings acc t
    end
  else currentRatings acc t.
Proof.
  unfold processTc. destruct (of_class tc games) as [|g l] eqn:E.
  - simpl. by case_decide.
  - destruct (forEachIdx (step u tc) 0 (g :: l) (tcInit, acc)) as [st acc'] eqn:F.
    unfold finish; cbn.
    pose proof (loop_currentRatings u tc (g :: l) 0 (tcInit, acc) t) as H.
    rewrite F in H. exact H.
Qed.

End RatingsFacts.

(** Claim C1: for every game log and subject and each category, the
    report's [currentRatings] for the category is the subject's rating in
    the last game of that category in the (chronologically sorted) log, and
    [null] when the category has no game. *)
Theorem currentRatings_last_game (games : list Game) (u : string) (tc : TimeClass) :
  Ratings.currentRatings (Ratings.stats (Ratings.generateRatingStats games u)) tc =
  option_map (fun g => rating (player u g)) (last (of_class tc games)).
Proof.
  unfold Ratings.generateRatingStats; cbn -[Ratings.processTc].
  rewrite !RatingsFacts.processTc_currentRatings.
  destruct tc; cbn;
    repeat (case_decide; try discriminate);
    by destruct (last _).
Qed.

(** Claim C2 (does not hold): the best gain day and the worst loss day are
    taken at the running per-day total after each game, not at the day's
    total net change. On [gainLog] the code reports day 0 with gain 10,
    whose net change is 2, while day 1 has net change 5; on [lossLog] it
    reports day 0 with loss 10, whose net change is +5, while day 1 has net
    change -4. *)
Theorem best_gain_day_uses_running_total :
  Ratings.bestRatingGains (Ratings.stats (Ratings.generateRatingStats Samples.gainLog "alice")) rapid
    = Some (0, 10)
  /\ dayTotal Samples.gainLog "alice" rapid 0 = 2
  /\ dayTotal Samples.gainLog "alice" rapid 1 = 5
  /\ Ratings.worstRatingLosses (Ratings.stats (Ratings.generateRatingStats Samples.lossLog "alice")) rapid
    = Some (0, 10)
  /\ dayTotal Samples.lossLog "alice" rapid 0 = 5
  /\ dayTotal Samples.lossLog "alice" rapid 1 = -4.
Proof. repeat split; vm_compute; reflexivity. Qed.

(** Claim C3 (does not hold): on an empty log there are zero distinct
    days, and [Math.round(games.length / uniqueDays.size)] is
    [Math.round(0 / 0)], i.e. [NaN], not 0; the average duration is [NaN]
    as well. *)
Theorem averageGamesPerDay_empty_is_NaN (u : string) :
  Patterns.averageGamesPerDay (Patterns.generatePlayingPatternStats [] u) = JNaN
  /\ Patterns.averageGameDuration (Patterns.generatePlayingPatternStats [] u) = JNaN
  /\ JNaN <> JNum 0.
Proof. split; [reflexivity | split; [reflexivity | discriminate]]. Qed.

(** ** Format-specific analyzer *)
Module FormatFacts.
Import FormatSpecific.

Lemma generate_at games u tc :
  generateFormatSpecificStats games u tc =
  if isFormatEligible games tc then Some (formatStatsOf games u tc) else None.
Proof.
  unfold generateFormatSpecificStats, timeControls; cbn [fold_left].
  destruct tc;
    destruct (isFormatEligible games rapid), (isFormatEligible games blitz),
             (isFormatEligible games bullet);
    unfold upd; cbn; reflexivity.
Qed.

Lemma js_gt_share (n t : Z) :
  0 <= n -> (t = 0 -> n = 0) ->
  js_gt (js_div n t) (1 # 10) = true <-> (1 # 10 < inject_Z n / inject_Z t)%Q.
Proof.
  intros Hn Ht. unfold js_div.
  destruct (Z.eqb_spec t 0) as [->|Hne].
  - rewrite (Ht eq_refl). cbn. split; [discriminate|].
    intros H. vm_compute in H. discriminate.
  - cbn. destruct (Qle_bool (inject_Z n / inject_Z t) (1 # 10)) eqn:E; cbn.
    + apply Qle_bool_iff in E. split; [discriminate|].
      intros H. exfalso. exact (Qlt_not_le _ _ H E).
    + split; [intros _|reflexivity].
      apply Qnot_le_lt. intros H. apply Qle_bool_iff in H. congruence.
Qed.

Lemma eligible_iff games tc :
  isFormatEligible games tc = true <->
  15 <= Z.of_nat (length (of_class tc games)) \/
  (1 # 10 < inject_Z (Z.of_nat (length (of_class tc games))) / inject_Z (Z.of_nat (length games)))%Q.
Proof.
  unfold isFormatEligible. rewrite orb_true_iff, Z.leb_le, js_gt_share; [reflexivity|lia|].
  pose proof (length_filter (fun g => time_class g = tc) games). unfold of_class. lia.
Qed.

Lemma total_tallyWL rc w : total (tallyWL rc w) = total w + 1.
Proof. unfold tallyWL. repeat case_match; reflexivity. Qed.

Lemma dTotal_tallyDraw rc d : dTotal (tallyDraw rc d) = dTotal d + 1.
Proof. unfold tallyDraw. repeat case_match; reflexivity. Qed.

(** The three outcome totals. *)
Definition outcomeSum (r : Results) : Z :=
  total (wins r) + dTotal (draws r) + total (losses r).

Lemma step_outcomeSum u st g : outcomeSum (tally (step u st g)) = outcomeSum (tally st) + 1.
Proof.
  unfold step, outcomeSum.
  destruct (String.eqb (result (player u g)) "win");
    [|destruct (_ || _)]; cbn;
    repeat case_match; cbn;
    rewrite ?total_tallyWL, ?dTotal_tallyDraw; lia.
Qed.

Lemma loop_outcomeSum u l st :
  outcomeSum (tally (foldl (step u) st l)) = outcomeSum (tally st) + Z.of_nat (length l).
Proof.
  induction l as [|g l IH] in st |- *; cbn [foldl length].
  - lia.
  - rewrite IH, step_outcomeSum. lia.
Qed.

End FormatFacts.

(** Claim C4: a category is a key of the format-specific section exactly
    when its game count is at least 15 or its count divided by the total
    game count exceeds 0.1; in particular a category with 10 games out of
    200 is absent. *)
Theorem formatSpecific_key_iff_eligible (games : list Game) (u : string) (tc : TimeClass) :
  (is_Some (FormatSpecific.generateFormatSpecificStats games u tc) <->
     15 <= Z.of_nat (length (of_class tc games)) \/
     (1 # 10 < inject_Z (Z.of_nat (length (of_class tc games)))
               / inject_Z (Z.of_nat (length games)))%Q)
  /\ (forall gs : list Game,
        length (of_class tc gs) = 10%nat -> length gs = 200%nat ->
        FormatSpecific.generateFormatSpecificStats gs u tc = None).
Proof.
  split.
  - rewrite FormatFacts.generate_at, <- FormatFacts.eligible_iff.
    destruct (FormatSpecific.isFormatEligible games tc).
    + split; [reflexivity|]. intros _. eexists. reflexivity.
    + split; [intros [x Hx]|intros H]; discriminate.
  - intros gs H10 H200. rewrite FormatFacts.generate_at.
    destruct (FormatSpecific.isFormatEligible gs tc) eqn:E; [|reflexivity].
    apply FormatFacts.eligible_iff in E. rewrite H10, H200 in E.
    destruct E as [E|E]; [cbn in E; lia|].
    vm_compute in E. discriminate.
Qed.

Lemma formatSpecific_key_iff_eligible_witness :
  length (of_class rapid Samples.mixedLog) = 10%nat /\ length Samples.mixedLog = 200%nat
  /\ FormatSpecific.generateFormatSpecificStats Samples.mixedLog "alice" rapid = None.
Proof.
  split; [reflexivity|split; [reflexivity|]].
  apply (proj2 (formatSpecific_key_iff_eligible Samples.mixedLog "alice" rapid)); reflexivity.
Defined.

(** Claim C5: in every category present in the format-specific section,
    the opening lists [asWhite] and [asBlack] are empty, because the
    per-colour opening maps are never written. *)
Theorem formatSpecific_openings_empty (games : list Game) (u : string) (tc : TimeClass)
    (fs : FormatSpecific.FormatStats) :
  FormatSpecific.generateFormatSpecificStats games u tc = Some fs ->
  FormatSpecific.openingsAsWhite fs = [] /\ FormatSpecific.openingsAsBlack fs = [].
Proof.
  rewrite FormatFacts.generate_at.
  destruct (FormatSpecific.isFormatEligible games tc); [|discriminate].
  intros [= <-]. split; reflexivity.
Qed.

Lemma formatSpecific_openings_empty_witness :
  let fs := FormatSpecific.formatStatsOf Samples.gainLog "alice" rapid in
  FormatSpecific.generateFormatSpecificStats Samples.gainLog "alice" rapid = Some fs
  /\ FormatSpecific.openingsAsWhite fs = [] /\ FormatSpecific.openingsAsBlack fs = [].
Proof.
  cbv zeta. split; [reflexivity|].
  apply (formatSpecific_openings_empty Samples.gainLog "alice" rapid); reflexivity.
Defined.

(** Claim C10: in every category present in the format-specific section,
    wins, draws and losses add up to [gamesPlayed]: each game falls in
    exactly one outcome branch. *)
Theorem formatSpecific_outcomes_partition (games : list Game) (u : string) (tc : TimeClass)
    (fs : FormatSpecific.FormatStats) :
  FormatSpecific.generateFormatSpecificStats games u tc = Some fs ->
  FormatSpecific.total (FormatSpecific.wins (FormatSpecific.results fs))
  + FormatSpecific.dTotal (FormatSpecific.draws (FormatSpecific.results fs))
  + FormatSpecific.total (FormatSpecific.losses (FormatSpecific.results fs))
  = FormatSpecific.gamesPlayed fs.
Proof.
  rewrite FormatFacts.generate_at.
  destruct (FormatSpecific.isFormatEligible games tc); [|discriminate].
  intros [= <-]. cbn [FormatSpecific.formatStatsOf FormatSpecific.results FormatSpecific.gamesPlayed].
  pose proof (FormatFacts.loop_outcomeSum u (of_class tc games) FormatSpecific.loop0) as H.
  unfold FormatFacts.outcomeSum in H. cbn in H |- *. lia.
Qed.

Lemma formatSpecific_outcomes_partition_witness :
  let fs := FormatSpecific.formatStatsOf Samples.lossLog "alice" rapid in
  FormatSpecific.generateFormatSpecificStats Samples.lossLog "alice" rapid = Some fs
  /\ FormatSpecific.total (FormatSpecific.wins (FormatSpecific.results fs))
     + FormatSpecific.dTotal (FormatSpecific.draws (FormatSpecific.results fs))
     + FormatSpecific.total (FormatSpecific.losses (FormatSpecific.results fs))
     = FormatSpecific.gamesPlayed fs.
Proof.
  cbv zeta. split; [reflexivity|].
  apply (formatSpecific_outcomes_partition Samples.lossLog "alice" rapid); reflexivity.
Defined.

(** ** The redacted view *)
Section ViewFacts.

Variables Intro MonthlyGames PlayingPatterns Openings Opponents Performance : Type.

(** Claim C6: the view derived from a report carries no rating data (it
    has no rating section, its format entries have no [ratingProgress],
    [bestWin] or [worstLoss], and it is unchanged when all of these are
    replaced in the report), and each of its format-specific opening
    lists has at most 3 entries. *)
Theorem stats_view_redacted
    (w : ChessWrapped Intro MonthlyGames PlayingPatterns Openings Opponents Performance)
    (r : Ratings.RatingStats) :
  toStats _ _ _ _ _ _ (withoutRatingData _ _ _ _ _ _ w r) = toStats _ _ _ _ _ _ w
  /\ forall tc : TimeClass,
       match sFormatSpecific _ _ _ _ _ _ (toStats _ _ _ _ _ _ w) tc with
       | Some v => (length (vOpeningsAsWhite v) <= 3 /\ length (vOpeningsAsBlack v) <= 3)%nat
       | None => True
       end.
Proof.
  split.
  - unfold toStats, withoutRatingData; cbn.
    destruct (formatSpecific _ _ _ _ _ _ w rapid), (formatSpecific _ _ _ _ _ _ w blitz),
             (formatSpecific _ _ _ _ _ _ w bullet); reflexivity.
  - intros tc. unfold toStats; cbn -[take].
    destruct (formatSpecific _ _ _ _ _ _ w rapid), (formatSpecific _ _ _ _ _ _ w blitz),
             (formatSpecific _ _ _ _ _ _ w bullet);
      destruct tc; unfold upd; repeat (case_decide; try discriminate); try exact I;
      cbn [cleanFormat vOpeningsAsWhite vOpeningsAsBlack]; rewrite !length_take; lia.
Qed.

End ViewFacts.

(** ** Format breakdown percentages *)
Module IntroFacts.
Import Intro.

Lemma percent_pos (c t : Z) :
  0 < t -> percent c t = JNum (inject_Z ((200 * c + t) / (2 * t))).
Proof.
  intros Ht. unfold percent, mathRound, js_mul100, js_div.
  destruct (Z.eqb_spec t 0) as [->|_]; [lia|].
  destruct t as [|p|p]; try lia.
  do 2 f_equal. unfold Qfloor, Qplus, Qmult, Qdiv, Qinv, inject_Z; cbn.
  rewrite Pos2Z.inj_mul. f_equal; lia.
Qed.

Lemma round_share_bounds (c t : Z) :
  0 < t -> 0 <= c <= t -> 0 <= (200 * c + t) / (2 * t) <= 100.
Proof.
  intros Ht Hc. split.
  - apply Z.div_pos; lia.
  - assert ((200 * c + t) / (2 * t) < 101); [apply Z.div_lt_upper_bound; lia | lia].
Qed.

Lemma round_sum_bounds (c1 c2 c3 t : Z) :
  0 < t -> c1 + c2 + c3 = t ->
  99 <= (200 * c1 + t) / (2 * t) + (200 * c2 + t) / (2 * t) + (200 * c3 + t) / (2 * t) <= 101.
Proof.
  intros Ht Hs.
  pose proof (Z.div_mod (200 * c1 + t) (2 * t) ltac:(lia)) as D1.
  pose proof (Z.div_mod (200 * c2 + t) (2 * t) ltac:(lia)) as D2.
  pose proof (Z.div_mod (200 * c3 + t) (2 * t) ltac:(lia)) as D3.
  pose proof (Z.mod_pos_bound (200 * c1 + t) (2 * t) ltac:(lia)).
  pose proof (Z.mod_pos_bound (200 * c2 + t) (2 * t) ltac:(lia)).
  pose proof (Z.mod_pos_bound (200 * c3 + t) (2 * t) ltac:(lia)).
  set (p1 := (200 * c1 + t) / (2 * t)) in *.
  set (p2 := (200 * c2 + t) / (2 * t)) in *.
  set (p3 := (200 * c3 + t) / (2 * t)) in *.
  assert (E : 2 * t * (p1 + p2 + p3) + ((200 * c1 + t) mod (2 * t)
            + (200 * c2 + t) mod (2 * t) + (200 * c3 + t) mod (2 * t)) = 203 * t) by lia.
  split.
  - destruct (Z.le_gt_cases 99 (p1 + p2 + p3)) as [|Hlt]; [assumption|].
    assert (2 * t * (p1 + p2 + p3) <= 2 * t * 98) by (apply Z.mul_le_mono_nonneg_l; lia). lia.
  - destruct (Z.le_gt_cases (p1 + p2 + p3) 101) as [|Hgt]; [assumption|].
    assert (2 * t * 102 <= 2 * t * (p1 + p2 + p3)) by (apply Z.mul_le_mono_nonneg_l; lia). lia.
Qed.

Lemma counts_sum (l : list Game) (c : TimeClass -> Z) :
  let c' := foldl (fun c game => upd c (time_class game) (c (time_class game) + 1)) c l in
  c' rapid + c' blitz + c' bullet = c rapid + c blitz + c bullet + Z.of_nat (length l)
  /\ ((forall t, 0 <= c t) -> forall t, 0 <= c' t).
Proof.
  induction l as [|g l IH] in c |- *; cbn [foldl length].
  - split; [lia|auto].
  - destruct (IH (upd c (time_class g) (c (time_class g) + 1))) as [IH1 IH2].
    split.
    + rewrite IH1. unfold upd. destruct (time_class g); repeat (case_decide; try congruence); lia.
    + intros Hc. apply IH2. intros t. unfold upd.
      case_decide; [pose proof (Hc (time_class g)) | pose proof (Hc t)]; lia.
Qed.

End IntroFacts.

(** Claim C7: for a non-empty log, each rounded format percentage lies in
    [0, 100] and the three add up to 100 within 1. *)
Theorem formatBreakdown_percentages (games : list Game) :
  games <> [] ->
  exists p1 p2 p3 : Z,
    Intro.percentage (Intro.formatBreakdown games rapid) = JNum (inject_Z p1)
    /\ Intro.percentage (Intro.formatBreakdown games blitz) = JNum (inject_Z p2)
    /\ Intro.percentage (Intro.formatBreakdown games bullet) = JNum (inject_Z p3)
    /\ 0 <= p1 <= 100 /\ 0 <= p2 <= 100 /\ 0 <= p3 <= 100
    /\ 99 <= p1 + p2 + p3 <= 101.
Proof.
  intros Hne. destruct games as [|g l]; [contradiction|].
  unfold Intro.formatBreakdown.
  set (t := Z.of_nat (length (g :: l))).
  set (c := foldl (fun c game => upd c (time_class game) (c (time_class game) + 1))
                  (fun _ => 0) (g :: l)).
  destruct (IntroFacts.counts_sum (g :: l) (fun _ => 0)) as [Hsum Hpos].
  fold c in Hsum, Hpos. specialize (Hpos (fun _ => Z.le_refl 0)).
  assert (Ht : 0 < t) by (unfold t; cbn [length]; lia).
  fold t in Hsum. cbn [Intro.percentage].
  exists ((200 * c rapid + t) / (2 * t)), ((200 * c blitz + t) / (2 * t)),
         ((200 * c bullet + t) / (2 * t)).
  rewrite !IntroFacts.percent_pos by exact Ht.
  pose proof (Hpos rapid). pose proof (Hpos blitz). pose proof (Hpos bullet).
  split; [reflexivity|]. split; [reflexivity|]. split; [reflexivity|].
  split; [apply IntroFacts.round_share_bounds; lia|].
  split; [apply IntroFacts.round_share_bounds; lia|].
  split; [apply IntroFacts.round_share_bounds; lia|].
  apply IntroFacts.round_sum_bounds; lia.
Qed.

Lemma formatBreakdown_percentages_witness :
  Samples.gainLog <> [] /\
  exists p1 p2 p3 : Z,
    Intro.percentage (Intro.formatBreakdown Samples.gainLog rapid) = JNum (inject_Z p1)
    /\ Intro.percentage (Intro.formatBreakdown Samples.gainLog blitz) = JNum (inject_Z p2)
    /\ Intro.percentage (Intro.formatBreakdown Samples.gainLog bullet) = JNum (inject_Z p3)
    /\ 0 <= p1 <= 100 /\ 0 <= p2 <= 100 /\ 0 <= p3 <= 100
    /\ 99 <= p1 + p2 + p3 <= 101.
Proof.
  split; [discriminate|].
  apply (formatBreakdown_percentages Samples.gainLog). discriminate.
Defined.

(** ** The cache *)

(** Claim C8: a cache read of an entry older than the 5-minute TTL
    returns nothing and removes the entry from the map. *)
Theorem getCachedData_expired {W : Type} (cache : gmap string (Cache.CachedData W))
    (u : string) (now : Z) (cached : Cache.CachedData W) :
  cache !! toLowerCase u = Some cached ->
  now - Cache.timestamp cached > Cache.CACHE_DURATION ->
  (Cache.getCachedData cache u now).2 = None
  /\ (Cache.getCachedData cache u now).1 !! toLowerCase u = None
  /\ (Cache.getCachedData cache u now).1 = delete (toLowerCase u) cache.
Proof.
  intros Hget Hold. unfold Cache.getCachedData. rewrite Hget.
  destruct (Z.ltb_spec Cache.CACHE_DURATION (now - Cache.timestamp cached)); [|lia].
  cbn. split; [reflexivity|]. split; [|reflexivity].
  apply lookup_delete_eq.
Qed.

Lemma getCachedData_expired_witness :
  let cache : gmap string (Cache.CachedData unit) := {["alice" := Cache.mkCached 0 [] None]} in
  (Cache.getCachedData cache "Alice" 300001).2 = None
  /\ (Cache.getCachedData cache "Alice" 300001).1 !! "alice" = None
  /\ (Cache.getCachedData cache "Alice" 300001).1 = delete "alice" cache.
Proof.
  cbv zeta.
  apply (getCachedData_expired _ "Alice" 300001 (Cache.mkCached 0 [] None)).
  - reflexivity.
  - vm_compute. reflexivity.
Defined.

(** ** Opponent analyzer *)
Module OpponentFacts.
Import OpponentStats.

Lemma mapGet_mapSet {V} (m : list (string * V)) k v o :
  mapGet (mapSet m k v) o = if String.eqb k o then Some v else mapGet m o.
Proof.
  induction m as [|[k' v'] m IH]; cbn.
  - reflexivity.
  - destruct (String.eqb_spec k' k) as [->|Hne]; cbn.
    + by destruct (k =? o)%string.
    + rewrite IH. destruct (String.eqb_spec k' o), (String.eqb_spec k o); congruence.
Qed.

(** The games against [o], and how many of them are wins and losses. *)
Lemma step_get u m g o :
  mapGet (step u m g) o =
  if String.eqb (username (opponent u g)) o then
    let s := default (mkStat 0 0 0 (rating (opponent u g)) (time_class g))
                     (mapGet m (username (opponent u g))) in
    Some (mkStat (games s + 1)
            (if String.eqb (result (player u g)) "win" then wins s + 1 else wins s)
            (if negb (String.eqb (result (player u g)) "win")
                && negb (String.eqb (result (player u g)) "draw")
             then losses s + 1 else losses s)
            (rating (opponent u g)) (format s))
  else mapGet m o.
Proof. unfold step. apply mapGet_mapSet. Qed.

Lemma match_nil_decide {A B} (l : list A) (x : B) :
  match l with [] => None | _ => Some x end = if decide (l = []) then None else Some x.
Proof. destruct l; [reflexivity|]. rewrite decide_False by discriminate. reflexivity. Qed.

Lemma counts_snoc u o gs :
  let vs := filter (fun g => username (opponent u g) = o) gs in
  option_map (fun s => (games s, wins s, losses s)) (mapGet (opponentStats gs u) o)
  = if decide (vs = []) then None
    else Some (Z.of_nat (length vs),
               Z.of_nat (length (filter (fun g => result (player u g) = "win") vs)),
               Z.of_nat (length (filter (fun g => result (player u g) <> "win"
                                                  /\ result (player u g) <> "draw") vs))).
Proof.
  cbv zeta. unfold opponentStats.
  induction gs as [|g gs IH] using rev_ind; [reflexivity|].
  rewrite foldl_app. cbn [foldl]. rewrite step_get, filter_app, (filter_singleton _ g []).
  destruct (String.eqb_spec (username (opponent u g)) o) as [Ho|Ho].
  - rewrite (decide_True (P := username (opponent u g) = o)) by exact Ho. cbv zeta. rewrite Ho.
    rewrite decide_False by (intros Hn; apply app_eq_nil in Hn as [_ Hn]; discriminate).
    rewrite !filter_app, !length_app, (filter_singleton _ g []), (filter_singleton _ g []).
    set (vs := filter (fun g0 => username (opponent u g0) = o) gs) in *.
    set (nw := length (filter (fun g0 => result (player u g0) = "win") vs)) in *.
    set (nl := length (filter (fun g0 => result (player u g0) <> "win"
                                           /\ result (player u g0) <> "draw") vs)) in *.
    assert (Hbase : exists s0, default (mkStat 0 0 0 (rating (opponent u g)) (time_class g))
                                       (mapGet (foldl (step u) [] gs) o) = s0
                      /\ games s0 = Z.of_nat (length vs) /\ wins s0 = Z.of_nat nw
                      /\ losses s0 = Z.of_nat nl).
    { destruct (mapGet (foldl (step u) [] gs) o) as [s|]; cbn in IH |- *;
        destruct (decide (vs = [])) as [Hnil|Hnil]; try discriminate.
      - injection IH as Hg Hw Hl. eexists; eauto.
      - unfold nw, nl. rewrite Hnil. cbn. eexists; eauto. }
    destruct Hbase as [s0 [-> [Hg [Hw Hl]]]]. cbn.
    rewrite Hg, Hw, Hl.
    destruct (String.eqb_spec (result (player u g)) "win") as [Hwin|Hwin];
      [|destruct (String.eqb_spec (result (player u g)) "draw") as [Hdraw|Hdraw]];
      [rewrite (decide_True (P := result (player u g) = "win")) by exact Hwin;
       rewrite decide_False by (intros [? ?]; contradiction)
      |rewrite (decide_False (P := result (player u g) = "win")) by exact Hwin;
       rewrite decide_False by (intros [? ?]; contradiction)
      |rewrite (decide_False (P := result (player u g) = "win")) by exact Hwin;
       rewrite decide_True by (split; assumption)];
      cbn [length negb andb]; f_equal; f_equal; try f_equal; lia.
  - rewrite (decide_False (P := username (opponent u g) = o)) by exact Ho.
    rewrite app_nil_r. exact IH.
Qed.

End OpponentFacts.

(** Claim C9: per opponent username, the analyzer counts the games, the
    wins (the subject's result code is ["win"]) and the losses (the result
    code is neither ["win"] nor ["draw"]; a ["draw"] increments neither);
    an opponent with 3 games, 2 wins and 1 loss gets [winRate = 67] and
    [lossRate = 33]. *)
Theorem opponent_win_loss_counts (gs : list Game) (u o : string) :
  let vs := filter (fun g => username (opponent u g) = o) gs in
  option_map (fun s => (OpponentStats.games s, OpponentStats.wins s, OpponentStats.losses s))
             (mapGet (OpponentStats.opponentStats gs u) o)
  = match vs with
    | [] => None
    | _ => Some (Z.of_nat (length vs),
                 Z.of_nat (length (filter (fun g => result (player u g) = "win") vs)),
                 Z.of_nat (length (filter (fun g => result (player u g) <> "win"
                                                    /\ result (player u g) <> "draw") vs)))
    end
  /\ (forall (totalGames : Z) (s : OpponentStats.OpponentStat),
        OpponentStats.games s = 3 -> OpponentStats.wins s = 2 -> OpponentStats.losses s = 1 ->
        OpponentStats.winRate (OpponentStats.processOpponent totalGames (o, s)) = JNum (inject_Z 67)
        /\ OpponentStats.lossRate (OpponentStats.processOpponent totalGames (o, s)) = JNum (inject_Z 33)).
Proof.
  cbv zeta. split.
  - rewrite OpponentFacts.match_nil_decide. apply OpponentFacts.counts_snoc.
  - intros totalGames s Hg Hw Hl. unfold OpponentStats.processOpponent.
    cbn. rewrite Hg, Hw, Hl. split; reflexivity.
Qed.

Lemma opponent_win_loss_counts_witness :
  exists s : OpponentStats.OpponentStat,
    mapGet (OpponentStats.opponentStats Samples.bobLog "alice") "bob" = Some s
    /\ OpponentStats.winRate (OpponentStats.processOpponent 3 ("bob", s)) = JNum (inject_Z 67)
    /\ OpponentStats.lossRate (OpponentStats.processOpponent 3 ("bob", s)) = JNum (inject_Z 33).
Proof.
  eexists. split; [reflexivity|].
  apply (proj2 (opponent_win_loss_counts Samples.bobLog "alice" "bob") 3); reflexivity.
Defined.

(** * Further properties of the service *)

(** ** Win rate and favourite format *)

Theorem calculateWinRate_range (u : string) :
  WinRate.calculateWinRate [] u = JNum 0
  /\ forall games : list Game,
       exists p : Z, WinRate.calculateWinRate games u = JNum (inject_Z p) /\ 0 <= p <= 100.
Proof.
  split; [reflexivity|]. intros games.
  destruct games as [|g l].
  - exists 0. split; [reflexivity|lia].
  - unfold WinRate.calculateWinRate.
    set (t := Z.of_nat (length (g :: l))).
    set (w := Z.of_nat (length (filter (fun g0 => result (player u g0) = "win") (g :: l)))).
    assert (Ht : 0 < t) by (unfold t; cbn [length]; lia).
    assert (Hw : 0 <= w <= t).
    { unfold w, t. pose proof (length_filter (fun g0 => result (player u g0) = "win") (g :: l)). lia. }
    exists ((200 * w + t) / (2 * t)). split.
    + apply IntroFacts.percent_pos; exact Ht.
    + apply IntroFacts.round_share_bounds; lia.
Qed.

Theorem favoriteFormat_is_max (games : list Game) (u : string) :
  games <> [] ->
  let fav := WinRate.favoriteFormat games u in
  let c := fun f => Intro.count (Intro.formatBreakdown games f) in
  c (WinRate.favFormat fav) = WinRate.favGamesPlayed fav
  /\ (forall f, c f <= WinRate.favGamesPlayed fav)
  /\ WinRate.favWinRate fav = WinRate.calculateWinRate (of_class (WinRate.favFormat fav) games) u
  /\ (WinRate.favFormat fav = blitz -> c rapid < WinRate.favGamesPlayed fav)
  /\ (WinRate.favFormat fav = bullet ->
        c rapid < WinRate.favGamesPlayed fav /\ c blitz < WinRate.favGamesPlayed fav).
Proof.
  intros Hne. destruct games as [|g l]; [contradiction|]. cbv zeta.
  destruct (IntroFacts.counts_sum (g :: l) (fun _ => 0)) as [Hs Hp].
  cbv zeta in Hs, Hp. specialize (Hp (fun _ => Z.le_refl 0)).
  unfold WinRate.favoriteFormat, timeControls. cbn [Intro.formatBreakdown Intro.count fold_left].
  set (c := foldl (fun c game => upd c (time_class game) (c (time_class game) + 1))
                  (fun _ => 0) (g :: l)) in *.
  pose proof (Hp rapid). pose proof (Hp blitz). pose proof (Hp bullet).
  cbn [length] in Hs.
  repeat (cbn [WinRate.favFormat WinRate.favGamesPlayed WinRate.favWinRate];
          match goal with
          | |- context [Z.ltb ?a ?b] =>
              lazymatch a with context [Z.ltb _ _] => fail | _ => destruct (Z.ltb_spec a b) end
          end);
    cbn [WinRate.favFormat WinRate.favGamesPlayed WinRate.favWinRate];
    (split; [lia|]); (split; [intros []; lia|]); (split; [first [reflexivity | exfalso; lia]|]);
    split; intros Hf; try discriminate; try lia.
Qed.

Lemma favoriteFormat_is_max_witness :
  Samples.lossLog <> [] /\
  let fav := WinRate.favoriteFormat Samples.lossLog "alice" in
  let c := fun f => Intro.count (Intro.formatBreakdown Samples.lossLog f) in
  c (WinRate.favFormat fav) = WinRate.favGamesPlayed fav
  /\ (forall f, c f <= WinRate.favGamesPlayed fav)
  /\ WinRate.favWinRate fav = WinRate.calculateWinRate (of_class (WinRate.favFormat fav) Samples.lossLog) "alice"
  /\ (WinRate.favFormat fav = blitz -> c rapid < WinRate.favGamesPlayed fav)
  /\ (WinRate.favFormat fav = bullet ->
        c rapid < WinRate.favGamesPlayed fav /\ c blitz < WinRate.favGamesPlayed fav).
Proof.
  split; [discriminate|].
  apply (favoriteFormat_is_max Samples.lossLog "alice"). discriminate.
Defined.

(** ** API-key middleware *)

Theorem authMiddleware_accepts_only_configured_key :
  (forall (env : option string) (h : Auth.HeaderValue),
     Auth.authMiddleware (Auth.configApiKey env) h = Auth.Next <->
     exists s, h = Auth.HString s /\ s <> "" /\ s = Auth.configApiKey env)
  /\ (forall h, Auth.authMiddleware (Auth.configApiKey None) h = Auth.Unauthorized401
                /\ Auth.authMiddleware (Auth.configApiKey (Some "")) h = Auth.Unauthorized401).
Proof.
  split.
  - intros env h. destruct h as [|s|l]; cbn.
    + split; [discriminate|intros (s & Hs & _); discriminate].
    + destruct (String.eqb_spec s "") as [->|Hne].
      * split; [discriminate|intros (s' & [= <-] & Hs' & _); contradiction].
      * destruct (String.eqb_spec s (Auth.configApiKey env)) as [Heq|Hneq].
        -- split; [intros _; eauto|reflexivity].
        -- split; [discriminate|intros (s' & [= <-] & _ & Heq); contradiction].
    + split; [discriminate|intros (s & Hs & _); discriminate].
  - intros h. destruct h as [|s|l]; cbn; [split; reflexivity| |split; reflexivity].
    destruct (String.eqb_spec s ""); split; try reflexivity;
      destruct (String.eqb_spec s ""); reflexivity.
Qed.

(** ** The per-user cache *)

Module CacheFacts.

Lemma ascii_lower_idem (c : ascii) : ascii_lower (ascii_lower c) = ascii_lower c.
Proof.
  destruct c as [[] [] [] [] [] [] [] []]; reflexivity.
Qed.

Lemma toLowerCase_idem (s : string) : toLowerCase (toLowerCase s) = toLowerCase s.
Proof.
  induction s as [|c s IH]; cbn; [reflexivity|]. by rewrite ascii_lower_idem, IH.
Qed.

End CacheFacts.

Theorem cache_set_then_get {W} (cache : gmap string (Cache.CachedData W))
    (u u' : string) (data : Cache.CachedData W) (now : Z) :
  toLowerCase u' = toLowerCase u ->
  now - Cache.timestamp data <= Cache.CACHE_DURATION ->
  Cache.getCachedData (Cache.setCachedData cache u data) u' now
  = (Cache.setCachedData cache u data, Some data).
Proof.
  intros Hu Ht. unfold Cache.getCachedData, Cache.setCachedData.
  rewrite Hu, lookup_insert_eq.
  destruct (Z.ltb_spec Cache.CACHE_DURATION (now - Cache.timestamp data)); [lia|reflexivity].
Qed.

Lemma cache_set_then_get_witness :
  toLowerCase "Alice" = toLowerCase "aLICE" /\
  1000 - Cache.timestamp (Cache.mkCached 0 Samples.gainLog (@None unit)) <= Cache.CACHE_DURATION /\
  Cache.getCachedData (Cache.setCachedData ∅ "aLICE" (Cache.mkCached 0 Samples.gainLog None)) "Alice" 1000
  = (Cache.setCachedData ∅ "aLICE" (Cache.mkCached 0 Samples.gainLog None),
     Some (Cache.mkCached 0 Samples.gainLog (@None unit))).
Proof.
  split; [reflexivity|]. split; [vm_compute; discriminate|].
  apply cache_set_then_get; [reflexivity|vm_compute; discriminate].
Defined.

Theorem getCachedData_effect {W} (cache : gmap string (Cache.CachedData W)) (u : string) (now : Z) :
  let r := Cache.getCachedData cache u now in
  (forall k, k <> toLowerCase u -> r.1 !! k = cache !! k)
  /\ (forall d, r.2 = Some d ->
        r.1 = cache /\ cache !! toLowerCase u = Some d
        /\ now - Cache.timestamp d <= Cache.CACHE_DURATION)
  /\ (r.2 = None -> r.1 !! toLowerCase u = None).
Proof.
  cbv zeta. unfold Cache.getCachedData.
  destruct (cache !! toLowerCase u) as [c|] eqn:Hc.
  - destruct (Z.ltb_spec Cache.CACHE_DURATION (now - Cache.timestamp c)); cbn.
    + split; [intros k Hk; by rewrite lookup_delete_ne|].
      split; [discriminate|]. intros _. apply lookup_delete_eq.
    + split; [reflexivity|]. split; [|discriminate].
      intros d [= <-]. split; [reflexivity|]. split; [reflexivity|lia].
  - cbn. split; [reflexivity|]. split; [discriminate|]. intros _. exact Hc.
Qed.

Theorem lookups_ignore_username_case (u : string) :
  (forall g, isWhite (toLowerCase u) g = isWhite u g)
  /\ (forall W (cache : gmap string (Cache.CachedData W)) now,
        Cache.getCachedData cache (toLowerCase u) now = Cache.getCachedData cache u now)
  /\ (forall W (cache : gmap string (Cache.CachedData W)) d,
        Cache.setCachedData cache (toLowerCase u) d = Cache.setCachedData cache u d).
Proof.
  split; [|split].
  - intros g. unfold isWhite. by rewrite CacheFacts.toLowerCase_idem.
  - intros W cache now. unfold Cache.getCachedData. by rewrite CacheFacts.toLowerCase_idem.
  - intros W cache d. unfold Cache.setCachedData. by rewrite CacheFacts.toLowerCase_idem.
Qed.

(** ** Sorting by date *)

Module SortFacts.

Definition date_le (a b : Z * Z) : Prop := a.1 <= b.1.

Lemma insertByDate_perm x l : insertByDate x l ≡ₚ x :: l.
Proof.
  induction l as [|y l IH]; cbn; [reflexivity|].
  destruct (x.1 <=? y.1); [reflexivity|].
  rewrite IH. constructor.
Qed.

Lemma sortByDate_perm l : sortByDate l ≡ₚ l.
Proof.
  induction l as [|x l IH]; cbn; [reflexivity|].
  by rewrite insertByDate_perm, IH.
Qed.

Lemma insertByDate_sorted x l : Sorted date_le l -> Sorted date_le (insertByDate x l).
Proof.
  induction l as [|y l IH]; cbn; intros Hs.
  - repeat constructor.
  - destruct (Z.leb_spec x.1 y.1).
    + constructor; [exact Hs|]. constructor. exact H.
    + apply Sorted_inv in Hs as [Hl Hy]. constructor; [by apply IH|].
      destruct l as [|z l]; cbn.
      * constructor. unfold date_le. lia.
      * destruct (x.1 <=? z.1); constructor; unfold date_le; [lia|].
        by inversion Hy.
Qed.

Lemma sortByDate_sorted l : Sorted date_le (sortByDate l).
Proof.
  induction l as [|x l IH]; cbn; [constructor|]. by apply insertByDate_sorted.
Qed.

End SortFacts.

(** ** Format-specific statistics *)

Module FormatLoopFacts.
Import FormatSpecific.

Definition subOk (w : WinLoss) : Prop :=
  0 <= byResignation w /\ 0 <= onTime w /\ 0 <= byCheckmate w
  /\ byResignation w + onTime w + byCheckmate w <= total w.

Definition drawOk (d : Draws) : Prop :=
  0 <= byAgreement d /\ 0 <= byRepetition d /\ 0 <= byStalemate d /\ 0 <= byInsufficientMaterial d
  /\ byAgreement d + byRepetition d + byStalemate d + byInsufficientMaterial d <= dTotal d.

Definition inv (st : LoopState) : Prop :=
  winCount st = total (wins (tally st))
  /\ subOk (wins (tally st)) /\ drawOk (draws (tally st)) /\ subOk (losses (tally st)).

Lemma subOk_tallyWL rc w : subOk w -> subOk (tallyWL rc w).
Proof. unfold subOk, tallyWL. intros. repeat case_match; cbn; lia. Qed.

Lemma drawOk_tallyDraw rc d : drawOk d -> drawOk (tallyDraw rc d).
Proof. unfold drawOk, tallyDraw. intros. repeat case_match; cbn; lia. Qed.

Lemma step_tally u st g :
  tally (step u st g) =
  let r := tally st in
  if String.eqb (result (player u g)) "win" then
    mkResults (tallyWL (rules g) (wins r)) (draws r) (losses r)
  else if String.eqb (result (player u g)) "repetition" || String.eqb (result (player u g)) "stalemate"
       || String.eqb (result (player u g)) "insufficient" || includes (rules g) "drawn" then
    mkResults (wins r) (tallyDraw (rules g) (draws r)) (losses r)
  else mkResults (wins r) (draws r) (tallyWL (rules g) (losses r)).
Proof.
  unfold step. cbv zeta.
  destruct (String.eqb _ "win"); [|destruct (_ || _)]; cbn; repeat case_match; reflexivity.
Qed.

Lemma step_winCount u st g :
  winCount (step u st g) = winCount st + if String.eqb (result (player u g)) "win" then 1 else 0.
Proof.
  unfold step. cbv zeta.
  destruct (String.eqb _ "win"); [|destruct (_ || _)]; cbn; repeat case_match; cbn; lia.
Qed.

Lemma step_inv u st g : inv st -> inv (step u st g).
Proof.
  unfold inv. rewrite step_winCount, step_tally. cbv zeta. intros (Hw & H1 & H2 & H3).
  destruct (String.eqb _ "win"); [|destruct (_ || _)]; cbn [wins draws losses];
    refine (conj _ (conj _ (conj _ _)));
    rewrite ?FormatFacts.total_tallyWL; try lia;
    auto using subOk_tallyWL, drawOk_tallyDraw.
Qed.

Lemma loop_inv u l st : inv st -> inv (foldl (step u) st l).
Proof.
  induction l as [|g l IH] in st |- *; cbn [foldl]; [auto|].
  intros H. apply IH, step_inv, H.
Qed.

Lemma inv_loop0 : inv loop0.
Proof. unfold inv, subOk, drawOk. cbn. lia. Qed.

Lemma step_rpa u st g :
  ratingProgressArray (step u st g)
  = ratingProgressArray st ++ [(isoDate (end_time g), rating (player u g))].
Proof.
  unfold step. cbv zeta.
  destruct (String.eqb _ "win"); [|destruct (_ || _)]; cbn; repeat case_match; reflexivity.
Qed.

Lemma loop_rpa u l st :
  ratingProgressArray (foldl (step u) st l)
  = ratingProgressArray st ++ map (fun g => (isoDate (end_time g), rating (player u g))) l.
Proof.
  induction l as [|g l IH] in st |- *; cbn [foldl map].
  - by rewrite app_nil_r.
  - rewrite IH, step_rpa, <- app_assoc. reflexivity.
Qed.

Definition here (u : string) (g : Game) : BestGame :=
  mkBest (username (opponent u g)) (rating (opponent u g)) (isoDate (end_time g)) (url g).




Section Best.
Variables (u sel : string) (better : Z -> Z -> bool) (cmp : Z -> Z -> Prop)
          (proj : LoopState -> option BestGame).
Hypothesis proj_step : forall st g,
  proj (step u st g) =
  if String.eqb (result (player u g)) sel
     && match proj st with None => true | Some b => better (rating (opponent u g)) (opponentRating b) end
  then Some (here u g) else proj st.
Hypothesis cmp_refl : forall x, cmp x x.
Hypothesis cmp_better : forall r x y, cmp r y -> better x y = true -> cmp r x.
Hypothesis cmp_not_better : forall x y, better x y = false -> cmp x y.


End Best.


End FormatLoopFacts.

Module FormatLoopFacts2.
Import FormatSpecific FormatLoopFacts.

Lemma eligible_pos games tc :
  isFormatEligible games tc = true -> 0 < Z.of_nat (length (of_class tc games)).
Proof.
  intros H. apply FormatFacts.eligible_iff in H.
  destruct (length (of_class tc games)) as [|n]; [|lia].
  destruct H as [H|H]; [cbn in H; lia|].
  unfold Qlt in H. cbn in H. lia.
Qed.

Lemma loop_winCount u l st :
  winCount (foldl (step u) st l)
  = winCount st + Z.of_nat (length (filter (fun g => result (player u g) = "win") l)).
Proof.
  induction l as [|g l IH] in st |- *; cbn [foldl]; [cbn; lia|].
  rewrite IH, step_winCount.
  destruct (String.eqb_spec (result (player u g)) "win") as [Hw|Hw].
  - rewrite filter_cons_True by exact Hw. cbn [length]. lia.
  - rewrite filter_cons_False by exact Hw. lia.
Qed.

Lemma formatStats_of games u tc fs :
  generateFormatSpecificStats games u tc = Some fs ->
  isFormatEligible games tc = true /\ fs = formatStatsOf games u tc.
Proof.
  rewrite FormatFacts.generate_at. destruct (isFormatEligible games tc); [|discriminate].
  intros [= <-]. auto.
Qed.

End FormatLoopFacts2.

Theorem formatStats_winRate_and_counts (games : list Game) (u : string) (tc : TimeClass)
    (fs : FormatSpecific.FormatStats) :
  FormatSpecific.generateFormatSpecificStats games u tc = Some fs ->
  let r := FormatSpecific.results fs in
  FormatSpecific.gamesPlayed fs = Z.of_nat (length (of_class tc games))
  /\ 0 < FormatSpecific.gamesPlayed fs
  /\ FormatSpecific.total (FormatSpecific.wins r)
     = Z.of_nat (length (filter (fun g => result (player u g) = "win") (of_class tc games)))
  /\ FormatSpecific.winRate fs = WinRate.calculateWinRate (of_class tc games) u
  /\ (exists p, FormatSpecific.winRate fs = JNum (inject_Z p) /\ 0 <= p <= 100)
  /\ FormatSpecific.total (FormatSpecific.wins r) + FormatSpecific.dTotal (FormatSpecific.draws r)
     + FormatSpecific.total (FormatSpecific.losses r) = FormatSpecific.gamesPlayed fs
  /\ FormatSpecific.byResignation (FormatSpecific.wins r) + FormatSpecific.onTime (FormatSpecific.wins r)
     + FormatSpecific.byCheckmate (FormatSpecific.wins r) <= FormatSpecific.total (FormatSpecific.wins r)
  /\ FormatSpecific.byResignation (FormatSpecific.losses r) + FormatSpecific.onTime (FormatSpecific.losses r)
     + FormatSpecific.byCheckmate (FormatSpecific.losses r) <= FormatSpecific.total (FormatSpecific.losses r)
  /\ FormatSpecific.byAgreement (FormatSpecific.draws r) + FormatSpecific.byRepetition (FormatSpecific.draws r)
     + FormatSpecific.byStalemate (FormatSpecific.draws r)
     + FormatSpecific.byInsufficientMaterial (FormatSpecific.draws r)
     <= FormatSpecific.dTotal (FormatSpecific.draws r).
Proof.
  intros H. apply FormatLoopFacts2.formatStats_of in H as [He ->]. cbv zeta.
  pose proof (FormatLoopFacts2.eligible_pos _ _ He) as Hpos.
  unfold FormatSpecific.formatStatsOf. cbv zeta.
  cbn [FormatSpecific.gamesPlayed FormatSpecific.winRate FormatSpecific.results].
  set (fg := of_class tc games) in *.
  pose proof (FormatLoopFacts.loop_inv u fg _ FormatLoopFacts.inv_loop0)
    as (Hw & (_ & _ & _ & Hs1) & (_ & _ & _ & _ & Hd) & (_ & _ & _ & Hs2)).
  pose proof (FormatLoopFacts2.loop_winCount u fg FormatSpecific.loop0) as Hc.
  pose proof (FormatFacts.loop_outcomeSum u fg FormatSpecific.loop0) as Ho.
  unfold FormatFacts.outcomeSum in Ho. cbn [FormatSpecific.winCount FormatSpecific.loop0] in Hc.
  cbn [FormatSpecific.tally FormatSpecific.loop0 FormatSpecific.results0
       FormatSpecific.wins FormatSpecific.draws FormatSpecific.losses
       FormatSpecific.total FormatSpecific.dTotal] in Ho.
  set (st := foldl (FormatSpecific.step u) FormatSpecific.loop0 fg) in *.
  assert (Hwr : percent (FormatSpecific.winCount st) (Z.of_nat (length fg))
                = WinRate.calculateWinRate fg u).
  { unfold WinRate.calculateWinRate. destruct fg as [|g l]; [cbn in Hpos; lia|].
    rewrite Hc. reflexivity. }
  split; [reflexivity|]. split; [exact Hpos|]. split; [lia|]. split; [exact Hwr|].
  split.
  - exists ((200 * FormatSpecific.winCount st + Z.of_nat (length fg)) / (2 * Z.of_nat (length fg))).
    split; [by apply IntroFacts.percent_pos|].
    apply IntroFacts.round_share_bounds; [lia|].
    pose proof (length_filter (fun g => result (player u g) = "win") fg). lia.
  - split; [lia|]. split; [exact Hs1|]. split; [exact Hs2|exact Hd].
Qed.

Lemma formatStats_winRate_and_counts_witness :
  let fs := FormatSpecific.formatStatsOf Samples.gainLog "alice" rapid in
  FormatSpecific.generateFormatSpecificStats Samples.gainLog "alice" rapid = Some fs
  /\ let r := FormatSpecific.results fs in
  FormatSpecific.gamesPlayed fs = Z.of_nat (length (of_class rapid Samples.gainLog))
  /\ 0 < FormatSpecific.gamesPlayed fs
  /\ FormatSpecific.total (FormatSpecific.wins r)
     = Z.of_nat (length (filter (fun g => result (player "alice" g) = "win") (of_class rapid Samples.gainLog)))
  /\ FormatSpecific.winRate fs = WinRate.calculateWinRate (of_class rapid Samples.gainLog) "alice"
  /\ (exists p, FormatSpecific.winRate fs = JNum (inject_Z p) /\ 0 <= p <= 100)
  /\ FormatSpecific.total (FormatSpecific.wins r) + FormatSpecific.dTotal (FormatSpecific.draws r)
     + FormatSpecific.total (FormatSpecific.losses r) = FormatSpecific.gamesPlayed fs
  /\ FormatSpecific.byResignation (FormatSpecific.wins r) + FormatSpecific.onTime (FormatSpecific.wins r)
     + FormatSpecific.byCheckmate (FormatSpecific.wins r) <= FormatSpecific.total (FormatSpecific.wins r)
  /\ FormatSpecific.byResignation (FormatSpecific.losses r) + FormatSpecific.onTime (FormatSpecific.losses r)
     + FormatSpecific.byCheckmate (FormatSpecific.losses r) <= FormatSpecific.total (FormatSpecific.losses r)
  /\ FormatSpecific.byAgreement (FormatSpecific.draws r) + FormatSpecific.byRepetition (FormatSpecific.draws r)
     + FormatSpecific.byStalemate (FormatSpecific.draws r)
     + FormatSpecific.byInsufficientMaterial (FormatSpecific.draws r)
     <= FormatSpecific.dTotal (FormatSpecific.draws r).
Proof.
  cbv zeta. split; [reflexivity|].
  apply (formatStats_winRate_and_counts Samples.gainLog "alice" rapid); reflexivity.
Defined.



Theorem formatStats_ratingProgress (games : list Game) (u : string) (tc : TimeClass)
    (fs : FormatSpecific.FormatStats) :
  FormatSpecific.generateFormatSpecificStats games u tc = Some fs ->
  FormatSpecific.ratingProgress fs
    ≡ₚ map (fun g => (isoDate (end_time g), rating (player u g))) (of_class tc games)
  /\ Sorted (fun a b => a.1 <= b.1) (FormatSpecific.ratingProgress fs)
  /\ Z.of_nat (length (FormatSpecific.ratingProgress fs)) = FormatSpecific.gamesPlayed fs.
Proof.
  intros H. apply FormatLoopFacts2.formatStats_of in H as [_ ->].
  unfold FormatSpecific.formatStatsOf. cbv zeta.
  cbn [FormatSpecific.ratingProgress FormatSpecific.gamesPlayed].
  rewrite FormatLoopFacts.loop_rpa. cbn [FormatSpecific.ratingProgressArray FormatSpecific.loop0 app].
  split; [apply SortFacts.sortByDate_perm|]. split; [apply SortFacts.sortByDate_sorted|].
  rewrite (Permutation_length (SortFacts.sortByDate_perm _)), length_map. reflexivity.
Qed.

Lemma formatStats_ratingProgress_witness :
  let fs := FormatSpecific.formatStatsOf Samples.gainLog "alice" rapid in
  FormatSpecific.generateFormatSpecificStats Samples.gainLog "alice" rapid = Some fs
  /\ FormatSpecific.ratingProgress fs
       ≡ₚ map (fun g => (isoDate (end_time g), rating (player "alice" g))) (of_class rapid Samples.gainLog)
  /\ Sorted (fun a b => a.1 <= b.1) (FormatSpecific.ratingProgress fs)
  /\ Z.of_nat (length (FormatSpecific.ratingProgress fs)) = FormatSpecific.gamesPlayed fs.
Proof.
  cbv zeta. split; [reflexivity|].
  apply (formatStats_ratingProgress Samples.gainLog "alice" rapid); reflexivity.
Defined.

(** ** Rating analyzer: best day, gains and losses *)

Module RatingsFacts2.
Import Ratings.

Lemma step_shape u tc i g st acc :
  exists today date,
    let s' := step u tc i g (st, acc) in
    maxGainInDay s'.1 = (if maxGainInDay st <? today then today else maxGainInDay st)
    /\ bestGainDate s'.1 = (if maxGainInDay st <? today then Some date else bestGainDate st)
    /\ maxLossInDay s'.1 = (if today <? maxLossInDay st then today else maxLossInDay st)
    /\ worstLossDate s'.1 = (if today <? maxLossInDay st then Some date else worstLossDate st)
    /\ bestRatingDay s'.2 =
         (if bdGain (bestRatingDay acc) <? maxGainInDay s'.1
          then mkBestDay (bestGainDate s'.1) tc (maxGainInDay s'.1) else bestRatingDay acc)
    /\ bestRatingGains s'.2 = bestRatingGains acc
    /\ worstRatingLosses s'.2 = worstRatingLosses acc.
Proof.
  exists (default 0 (dailyRatingChanges st !! isoDate (end_time g))
          + (rating (player u g)
             - (if (i =? 0)%nat then rating (player u g) else prevRating st))).
  exists (isoDate (end_time g)).
  unfold step. cbv zeta.
  destruct (maxGainInDay st <? _), (_ <? maxLossInDay st); cbn;
    repeat split; reflexivity.
Qed.

(** The per-category loop invariant; [b0], [brg0] and [wrl0] are the
    values before the category. *)
Definition TI (tc : TimeClass) (b0 : BestDay) (brg0 wrl0 : TimeClass -> option (Z * Z))
    (s : TcState * Acc) : Prop :=
  0 <= maxGainInDay s.1
  /\ (bestGainDate s.1 = None <-> maxGainInDay s.1 = 0)
  /\ maxLossInDay s.1 <= 0
  /\ (worstLossDate s.1 = None <-> maxLossInDay s.1 = 0)
  /\ bestRatingDay s.2 =
       (if bdGain b0 <? maxGainInDay s.1 then mkBestDay (bestGainDate s.1) tc (maxGainInDay s.1) else b0)
  /\ bestRatingGains s.2 = brg0
  /\ worstRatingLosses s.2 = wrl0.

Lemma step_TI u tc b0 brg0 wrl0 i g s :
  0 <= bdGain b0 -> TI tc b0 brg0 wrl0 s -> TI tc b0 brg0 wrl0 (step u tc i g s).
Proof.
  intros Hb0. destruct s as [st acc].
  destruct (step_shape u tc i g st acc) as (today & date & Hmg & Hbgd & Hml & Hwld & Hbrd & Hbrg & Hwrl).
  unfold TI. cbn [fst snd]. rewrite Hbrd, Hmg, Hbgd, Hml, Hwld, Hbrg, Hwrl.
  intros (H0 & H1 & H2 & H3 & H4 & H5 & H6). rewrite H4.
  destruct (Z.ltb_spec (maxGainInDay st) today) as [Lg|Lg];
  destruct (Z.ltb_spec today (maxLossInDay st)) as [Ll|Ll]; cbv beta iota;
  (split; [lia|]); (split; [first [exact H1 | split; [discriminate|lia]]|]);
  (split; [lia|]); (split; [first [exact H3 | split; [discriminate|lia]]|]);
  (split; [|split; [exact H5|exact H6]]);
  repeat (cbn [bdGain] in *;
          match goal with
          | |- context [Z.ltb ?a ?b] =>
              lazymatch a with context [Z.ltb _ _] => fail | _ =>
                lazymatch b with context [Z.ltb _ _] => fail | _ => destruct (Z.ltb_spec a b) end end
          end); try reflexivity; lia.
Qed.

Lemma loop_TI u tc b0 brg0 wrl0 l i s :
  0 <= bdGain b0 -> TI tc b0 brg0 wrl0 s ->
  TI tc b0 brg0 wrl0 (forEachIdx (step u tc) i l s).
Proof.
  intros Hb0. induction l as [|g l IH] in i, s |- *; cbn [forEachIdx]; [auto|].
  intros H. apply IH. by apply step_TI.
Qed.

Lemma TI_init tc acc :
  0 <= bdGain (bestRatingDay acc) ->
  TI tc (bestRatingDay acc) (bestRatingGains acc) (worstRatingLosses acc) (tcInit, acc).
Proof.
  intros H. unfold TI. cbn.
  destruct (Z.ltb_spec (bdGain (bestRatingDay acc)) 0); [lia|].
  repeat split; lia.
Qed.

(** The invariant across categories; [done] lists the categories
    already processed. *)
Definition G (done : list TimeClass) (acc : Acc) : Prop :=
  0 <= bdGain (bestRatingDay acc)
  /\ (forall tc d g, bestRatingGains acc tc = Some (d, g) ->
        0 < g <= bdGain (bestRatingDay acc) /\ In tc done)
  /\ (forall tc d l, worstRatingLosses acc tc = Some (d, l) -> 0 < l)
  /\ (bdGain (bestRatingDay acc) = 0 -> bestRatingDay acc = mkBestDay None blitz 0)
  /\ (0 < bdGain (bestRatingDay acc) ->
        exists d, bdDate (bestRatingDay acc) = Some d
                  /\ bestRatingGains acc (bdFormat (bestRatingDay acc)) = Some (d, bdGain (bestRatingDay acc))).

Lemma G_init : G [] accInit.
Proof.
  unfold G. cbn. split; [lia|]. split; [discriminate|]. split; [discriminate|].
  split; [reflexivity|lia].
Qed.

Lemma processTc_G games u done acc tc :
  ~ In tc done -> G done acc -> G (tc :: done) (processTc games u acc tc).
Proof.
  intros Hn (Ha & Hb & Hc & Hd & He). unfold processTc.
  destruct (of_class tc games) as [|g l].
  - unfold G. split; [exact Ha|]. split; [|auto].
    intros t d g0 H. destruct (Hb t d g0 H) as [H1 H2]. split; [exact H1|right; exact H2].
  - pose proof (loop_TI u tc _ _ _ (g :: l) 0 (tcInit, acc) Ha (TI_init tc acc Ha)) as HT.
    destruct (forEachIdx (step u tc) 0 (g :: l) (tcInit, acc)) as [st acc'].
    destruct HT as (T0 & T1 & T2 & T3 & T4 & T5 & T6). cbn [fst snd] in *.
    unfold finish, G. cbn [bestRatingDay bestRatingGains worstRatingLosses]. rewrite T4, T5, T6.
    assert (Hbg : forall d0, bestGainDate st = Some d0 -> 0 < maxGainInDay st).
    { intros d0 E. destruct (Z.eq_dec (maxGainInDay st) 0) as [E0|E0]; [|lia].
      apply T1 in E0. congruence. }
    assert (Hwl : forall w0, worstLossDate st = Some w0 -> maxLossInDay st < 0).
    { intros w0 E. destruct (Z.eq_dec (maxLossInDay st) 0) as [E0|E0]; [|lia].
      apply T3 in E0. congruence. }
    assert (Hne : forall t, In t done -> t <> tc) by (intros t Ht ->; contradiction).
    destruct (Z.ltb_spec (bdGain (bestRatingDay acc)) (maxGainInDay st)) as [Lt|Ge];
      cbn [bdGain bdDate bdFormat].
    + destruct (bestGainDate st) as [d0|] eqn:Ebg; [|pose proof (proj1 T1 eq_refl); lia].
      pose proof (Hbg d0 eq_refl) as Hpos.
      split; [lia|]. split; [|split; [|split]].
      * intros t d g0 H. unfold upd in H. case_decide as Et.
        -- injection H as <- <-. split; [lia|left; by subst].
        -- destruct (Hb t d g0 H) as [H1 H2]. split; [lia|right; exact H2].
      * intros t d l0 H. destruct (worstLossDate st) as [w0|] eqn:Ewl.
        -- unfold upd in H. case_decide.
           ++ injection H as <- <-. pose proof (Hwl w0 eq_refl). lia.
           ++ exact (Hc t d l0 H).
        -- exact (Hc t d l0 H).
      * intros H. lia.
      * intros _. exists d0. split; [reflexivity|]. unfold upd. by case_decide.
    + split; [exact Ha|]. split; [|split; [|split]].
      * intros t d g0 H. destruct (bestGainDate st) as [d0|] eqn:Ebg.
        -- unfold upd in H. case_decide as Et.
           ++ injection H as <- <-. split; [pose proof (Hbg d0 eq_refl); lia|left; by subst].
           ++ destruct (Hb t d g0 H) as [H1 H2]. split; [exact H1|right; exact H2].
        -- destruct (Hb t d g0 H) as [H1 H2]. split; [exact H1|right; exact H2].
      * intros t d l0 H. destruct (worstLossDate st) as [w0|] eqn:Ewl.
        -- unfold upd in H. case_decide.
           ++ injection H as <- <-. pose proof (Hwl w0 eq_refl). lia.
           ++ exact (Hc t d l0 H).
        -- exact (Hc t d l0 H).
      * exact Hd.
      * intros Hpos. destruct (He Hpos) as (d & Hd1 & Hd2). exists d. split; [exact Hd1|].
        assert (Hin : In (bdFormat (bestRatingDay acc)) done) by exact (proj2 (Hb _ _ _ Hd2)).
        destruct (bestGainDate st); [|exact Hd2].
        unfold upd. case_decide as Et; [|exact Hd2].
        exfalso. exact (Hne _ Hin Et).
Qed.

End RatingsFacts2.

Theorem ratings_best_day_matches_gains (games : list Game) (u : string) :
  let a := Ratings.stats (Ratings.generateRatingStats games u) in
  let bd := Ratings.bestRatingDay a in
  0 <= Ratings.bdGain bd
  /\ (forall tc d g, Ratings.bestRatingGains a tc = Some (d, g) -> 0 < g <= Ratings.bdGain bd)
  /\ (forall tc d l, Ratings.worstRatingLosses a tc = Some (d, l) -> 0 < l)
  /\ (Ratings.bdGain bd = 0 ->
        bd = Ratings.mkBestDay None blitz 0 /\ forall tc, Ratings.bestRatingGains a tc = None)
  /\ (0 < Ratings.bdGain bd ->
        exists d, Ratings.bdDate bd = Some d
                  /\ Ratings.bestRatingGains a (Ratings.bdFormat bd) = Some (d, Ratings.bdGain bd)).
Proof.
  cbv zeta. unfold Ratings.generateRatingStats, timeControls. cbn [Ratings.stats fold_left].
  pose proof (RatingsFacts2.processTc_G games u [] _ rapid ltac:(cbn; tauto)
                RatingsFacts2.G_init) as G1.
  pose proof (RatingsFacts2.processTc_G games u [rapid] _ blitz ltac:(cbn; intuition discriminate) G1) as G2.
  pose proof (RatingsFacts2.processTc_G games u [blitz; rapid] _ bullet
                ltac:(cbn; intuition discriminate) G2) as (Ha & Hb & Hc & Hd & He).
  split; [exact Ha|]. split; [intros t d g H; exact (proj1 (Hb t d g H))|].
  split; [exact Hc|]. split; [|exact He].
  intros H0. split; [exact (Hd H0)|].
  intros t. destruct (Ratings.bestRatingGains _ t) as [[d g]|] eqn:E; [|reflexivity].
  destruct (Hb t d g E) as [H1 _]. lia.
Qed.

(** ** Rating analyzer: peaks and progress *)

Module RatingsFacts3.
Import Ratings.

Definition peakInv (u : string) (pre : list Game) (p : option (Z * Z)) : Prop :=
  (p = None <-> pre = [])
  /\ forall r d, p = Some (r, d) ->
       (exists g, In g pre /\ rating (player u g) = r /\ isoDate (end_time g) = d)
       /\ forall g, In g pre -> rating (player u g) <= r.

Lemma step_peak u tc i g s t :
  peakRatings (step u tc i g s).2 t =
  if decide (t = tc) then
    match peakRatings s.2 tc with
    | Some (r, d) => if r <? rating (player u g) then Some (rating (player u g), isoDate (end_time g))
                     else Some (r, d)
    | None => Some (rating (player u g), isoDate (end_time g))
    end
  else peakRatings s.2 t.
Proof.
  destruct s as [st acc]. unfold step. cbv zeta. cbn [fst snd].
  destruct (peakRatings acc tc) as [[r d]|] eqn:E.
  - destruct (r <? rating (player u g)); repeat case_match; cbn; unfold upd;
      case_decide; subst; congruence.
  - repeat case_match; cbn; unfold upd; case_decide; congruence.
Qed.

Lemma loop_peak u tc l i s pre :
  peakInv u pre (peakRatings s.2 tc) ->
  peakInv u (pre ++ l) (peakRatings (forEachIdx (step u tc) i l s).2 tc)
  /\ forall t, t <> tc -> peakRatings (forEachIdx (step u tc) i l s).2 t = peakRatings s.2 t.
Proof.
  induction l as [|g l IH] in i, s, pre |- *; cbn [forEachIdx].
  - rewrite app_nil_r. auto.
  - intros [HN HS].
    replace (pre ++ g :: l) with ((pre ++ [g]) ++ l) by (by rewrite <- app_assoc).
    assert (Hg : In g (pre ++ [g])) by (apply in_or_app; right; left; reflexivity).
    assert (Hpre : forall x, In x pre -> In x (pre ++ [g])) by (intros; apply in_or_app; by left).
    assert (Hstep : peakInv u (pre ++ [g]) (peakRatings (step u tc i g s).2 tc)).
    { rewrite step_peak. rewrite decide_True by reflexivity.
      destruct (peakRatings s.2 tc) as [[r d]|] eqn:E.
      - destruct (HS r d eq_refl) as [(g0 & Hin & Hr & Hd) Hmax].
        destruct (Z.ltb_spec r (rating (player u g))) as [Lt|Ge].
        + split; [split; [discriminate|intros H; by destruct pre]|].
          intros r' d' [= <- <-]. split; [by exists g|].
          intros g' Hin'. apply in_app_or in Hin' as [Hin'|[<-|[]]]; [|lia].
          specialize (Hmax g' Hin'). lia.
        + split; [split; [discriminate|intros H; by destruct pre]|].
          intros r' d' [= <- <-]. split; [exists g0; auto|].
          intros g' Hin'. apply in_app_or in Hin' as [Hin'|[<-|[]]]; [auto|lia].
      - assert (pre = []) as -> by (apply HN; reflexivity). cbn.
        split; [split; discriminate|].
        intros r' d' [= <- <-]. split; [exists g; auto|].
        intros g' [<-|[]]. lia. }
    destruct (IH (S i) (step u tc i g s) (pre ++ [g]) Hstep) as [H1 H2].
    split; [exact H1|]. intros t Ht. rewrite H2 by exact Ht.
    rewrite step_peak. by rewrite decide_False by exact Ht.
Qed.

Lemma processTc_peak games u acc tc :
  peakRatings acc tc = None ->
  peakInv u (of_class tc games) (peakRatings (processTc games u acc tc) tc)
  /\ forall t, t <> tc -> peakRatings (processTc games u acc tc) t = peakRatings acc t.
Proof.
  intros H0. unfold processTc.
  destruct (of_class tc games) as [|g l].
  - split; [|auto]. rewrite H0. split; [tauto|discriminate].
  - destruct (loop_peak u tc (g :: l) 0 (tcInit, acc) [])
      as [H1 H2]; [cbn; rewrite H0; split; [tauto|discriminate]|].
    destruct (forEachIdx (step u tc) 0 (g :: l) (tcInit, acc)) as [st acc'].
    unfold finish. cbn [peakRatings]. cbn in H1, H2. auto.
Qed.

Lemma loop_progress u tc l i s t :
  ratingProgress (forEachIdx (step u tc) i l s).2 t =
  if decide (t = tc)
  then ratingProgress s.2 tc ++ map (fun g => (isoDate (end_time g), rating (player u g))) l
  else ratingProgress s.2 t.
Proof.
  induction l as [|g l IH] in i, s |- *; cbn [forEachIdx map].
  - case_decide; subst; [by rewrite app_nil_r|reflexivity].
  - rewrite IH. destruct s as [st acc]. unfold step. cbv zeta.
    repeat case_match; cbn; unfold upd; repeat case_decide; subst; try congruence;
      by rewrite <- app_assoc.
Qed.

Lemma processTc_progress games u acc tc :
  ratingProgress acc tc = [] ->
  ratingProgress (processTc games u acc tc) tc
    = sortByDate (map (fun g => (isoDate (end_time g), rating (player u g))) (of_class tc games))
  /\ forall t, t <> tc -> ratingProgress (processTc games u acc tc) t = ratingProgress acc t.
Proof.
  intros H0. unfold processTc.
  destruct (of_class tc games) as [|g l]; [split; [exact H0|auto]|].
  pose proof (loop_progress u tc (g :: l) 0 (tcInit, acc)) as H.
  destruct (forEachIdx (step u tc) 0 (g :: l) (tcInit, acc)) as [st acc'].
  unfold finish. cbn [ratingProgress]. cbn [snd] in H. unfold upd. split.
  - rewrite decide_True by reflexivity. rewrite H, decide_True by reflexivity.
    by rewrite H0.
  - intros t Ht. rewrite decide_False by exact Ht. rewrite H. by rewrite decide_False.
Qed.

End RatingsFacts3.

Theorem ratings_peak_and_progress (games : list Game) (u : string) (tc : TimeClass) :
  let a := Ratings.stats (Ratings.generateRatingStats games u) in
  let fg := of_class tc games in
  (Ratings.peakRatings a tc = None <-> fg = [])
  /\ (forall r d, Ratings.peakRatings a tc = Some (r, d) ->
        (exists g, In g fg /\ rating (player u g) = r /\ isoDate (end_time g) = d)
        /\ forall g, In g fg -> rating (player u g) <= r)
  /\ Ratings.ratingProgress a tc ≡ₚ map (fun g => (isoDate (end_time g), rating (player u g))) fg
  /\ Sorted (fun a b => a.1 <= b.1) (Ratings.ratingProgress a tc).
Proof.
  cbv zeta. unfold Ratings.generateRatingStats, timeControls. cbn [Ratings.stats fold_left].
  set (a1 := Ratings.processTc games u Ratings.accInit rapid).
  set (a2 := Ratings.processTc games u a1 blitz).
  destruct (RatingsFacts3.processTc_peak games u Ratings.accInit rapid eq_refl) as [P1 Q1].
  destruct (RatingsFacts3.processTc_progress games u Ratings.accInit rapid eq_refl) as [R1 S1].
  fold a1 in P1, Q1, R1, S1.
  destruct (RatingsFacts3.processTc_peak games u a1 blitz ltac:(by rewrite Q1)) as [P2 Q2].
  destruct (RatingsFacts3.processTc_progress games u a1 blitz ltac:(by rewrite S1)) as [R2 S2].
  fold a2 in P2, Q2, R2, S2.
  destruct (RatingsFacts3.processTc_peak games u a2 bullet
              ltac:(rewrite Q2, Q1 by discriminate; reflexivity)) as [P3 Q3].
  destruct (RatingsFacts3.processTc_progress games u a2 bullet
              ltac:(rewrite S2, S1 by discriminate; reflexivity)) as [R3 S3].
  assert (HP : RatingsFacts3.peakInv u (of_class tc games)
                 (Ratings.peakRatings (Ratings.processTc games u a2 bullet) tc)
               /\ Ratings.ratingProgress (Ratings.processTc games u a2 bullet) tc
                  = sortByDate (map (fun g => (isoDate (end_time g), rating (player u g)))
                                    (of_class tc games))).
  { destruct tc.
    - rewrite Q3, Q2, S3, S2 by discriminate. auto.
    - rewrite Q3, S3 by discriminate. auto.
    - auto. }
  destruct HP as [[HN HS] HR]. rewrite HR.
  split; [exact HN|]. split; [exact HS|].
  split; [apply SortFacts.sortByDate_perm|apply SortFacts.sortByDate_sorted].
Qed.

(** ** Opponent analyzer *)

Module OpponentFacts2.
Import OpponentStats.

Definition sumGames (m : list (string * OpponentStat)) : Z :=
  fold_right (fun e acc => games e.2 + acc) 0 m.

Definition gamesOr0 (o : option OpponentStat) : Z :=
  match o with Some s => games s | None => 0 end.

Lemma sum_mapSet m k v : sumGames (mapSet m k v) = sumGames m - gamesOr0 (mapGet m k) + games v.
Proof.
  induction m as [|[k' v'] m IH]; cbn; [lia|].
  destruct (String.eqb_spec k' k); cbn; [lia|]. unfold sumGames in IH. lia.
Qed.

Lemma keys_mapSet {V} (m : list (string * V)) k v :
  map fst (mapSet m k v) = if decide (k ∈ map fst m) then map fst m else map fst m ++ [k].
Proof.
  induction m as [|[k' v'] m IH]; cbn.
  - rewrite decide_False; [reflexivity|]. apply not_elem_of_nil.
  - destruct (String.eqb_spec k' k) as [->|Hne]; cbn.
    + rewrite decide_True by (apply elem_of_cons; by left). reflexivity.
    + rewrite IH. destruct (decide (k ∈ map fst m)) as [Hin|Hin].
      * rewrite decide_True by (apply elem_of_cons; by right). reflexivity.
      * rewrite decide_False; [reflexivity|].
        intros H. apply elem_of_cons in H as [H|H]; [congruence|contradiction].
Qed.

Lemma NoDup_mapSet {V} (m : list (string * V)) k v :
  NoDup (map fst m) -> NoDup (map fst (mapSet m k v)).
Proof.
  intros H. rewrite keys_mapSet. case_decide as Hin; [exact H|].
  apply NoDup_app. split; [exact H|]. split; [|apply NoDup_singleton].
  intros x Hx Hx'. apply list_elem_of_singleton in Hx' as ->. contradiction.
Qed.

Lemma In_mapSet {V} (m : list (string * V)) k v e :
  In e (mapSet m k v) -> e.2 = v \/ In e m.
Proof.
  induction m as [|[k' v'] m IH]; cbn.
  - intros [<-|[]]. by left.
  - destruct (String.eqb k' k); cbn.
    + intros [<-|H]; [by left|by right; right].
    + intros [<-|H]; [by right; left|]. destruct (IH H); [by left|by right; right].
Qed.

Lemma mapGet_In {V} (m : list (string * V)) k v : mapGet m k = Some v -> In (k, v) m.
Proof.
  induction m as [|[k' v'] m IH]; cbn; [discriminate|].
  destruct (String.eqb_spec k' k) as [->|Hne]; [intros [= ->]; by left|].
  intros H. right. by apply IH.
Qed.

Lemma In_mapGet {V} (m : list (string * V)) k v :
  NoDup (map fst m) -> In (k, v) m -> mapGet m k = Some v.
Proof.
  induction m as [|[k' v'] m IH]; cbn; [intros _ []|].
  intros Hnd [E|Hin]; apply NoDup_cons in Hnd as [Hk Hnd].
  - injection E as -> ->. by rewrite String.eqb_refl.
  - destruct (String.eqb_spec k' k) as [->|Hne]; [|by apply IH].
    exfalso. apply Hk. apply list_elem_of_In. apply in_map_iff. by exists (k, v).
Qed.

Lemma step_games u m g :
  games (default (mkStat 0 0 0 (rating (opponent u g)) (time_class g))
                 (mapGet m (username (opponent u g)))) = gamesOr0 (mapGet m (username (opponent u g))).
Proof. by destruct (mapGet m _). Qed.

Definition inv (m : list (string * OpponentStat)) : Prop :=
  NoDup (map fst m) /\ (forall e, In e m -> 1 <= games e.2).

Lemma loop_facts u gs m :
  inv m ->
  inv (foldl (step u) m gs) /\ sumGames (foldl (step u) m gs) = sumGames m + Z.of_nat (length gs).
Proof.
  induction gs as [|g gs IH] in m |- *; cbn [foldl length]; [intros; split; [auto|lia]|].
  intros [Hnd Hpos].
  assert (Hs : inv (step u m g) /\ sumGames (step u m g) = sumGames m + 1).
  { unfold step. cbv zeta. split; [split|].
    - by apply NoDup_mapSet.
    - intros e He. apply In_mapSet in He as [->|He]; [|by apply Hpos].
      cbn. destruct (mapGet m (username (opponent u g))) as [s|] eqn:E; cbn; [|lia].
      apply mapGet_In, Hpos in E. cbn in E. lia.
    - rewrite sum_mapSet. cbn [games]. rewrite step_games. lia. }
  destruct Hs as [Hi Hsum]. destruct (IH _ Hi) as [H1 H2]. split; [exact H1|lia].
Qed.

Lemma filter_all {A} (P : A -> Prop) `{forall x, Decision (P x)} (l : list A) :
  (forall x, In x l -> P x) -> filter P l = l.
Proof.
  induction l as [|x l IH]; intros Hall; [reflexivity|].
  rewrite filter_cons_True by (apply Hall; left; reflexivity).
  f_equal. apply IH. intros y Hy. apply Hall. by right.
Qed.

Lemma first_last_snoc u o gs :
  let vs := filter (fun g => username (opponent u g) = o) gs in
  option_map format (mapGet (opponentStats gs u) o) = option_map time_class (head vs)
  /\ option_map opponentRating (mapGet (opponentStats gs u) o)
     = option_map (fun g => rating (opponent u g)) (last vs).
Proof.
  cbv zeta. unfold opponentStats.
  induction gs as [|g gs IH] using rev_ind; [split; reflexivity|].
  rewrite foldl_app. cbn [foldl]. rewrite OpponentFacts.step_get, filter_app.
  destruct (String.eqb_spec (username (opponent u g)) o) as [Ho|Ho].
  - rewrite (filter_cons_True _ g []) by exact Ho. cbn [filter]. cbv zeta.
    rewrite Ho. rewrite last_app. cbn [last option_map opponentRating format].
    split; [|reflexivity].
    destruct IH as [IH _].
    destruct (mapGet (foldl (step u) [] gs) o) as [s|];
      destruct (filter (fun g0 => username (opponent u g0) = o) gs) as [|g0 vs];
      cbn in IH |- *; congruence.
  - rewrite (filter_cons_False _ g []) by exact Ho. cbn [filter]. rewrite app_nil_r. exact IH.
Qed.

End OpponentFacts2.

Theorem opponentStats_entries (gs : list Game) (u : string) :
  let m := OpponentStats.opponentStats gs u in
  NoDup (map fst m)
  /\ fold_right (fun e acc => OpponentStats.games e.2 + acc) 0 m = Z.of_nat (length gs)
  /\ OpponentStats.sortedOpponents gs u = m
  /\ (forall e, In e m -> mapGet m e.1 = Some e.2 /\ 1 <= OpponentStats.games e.2)
  /\ (forall o, let vs := filter (fun g => username (opponent u g) = o) gs in
        option_map OpponentStats.format (mapGet m o) = option_map time_class (head vs)
        /\ option_map OpponentStats.opponentRating (mapGet m o)
           = option_map (fun g => rating (opponent u g)) (last vs)).
Proof.
  cbv zeta.
  destruct (OpponentFacts2.loop_facts u gs [] ltac:(split; [constructor|intros e []]))
    as [[Hnd Hpos] Hsum].
  fold (OpponentStats.opponentStats gs u) in Hnd, Hpos, Hsum.
  split; [exact Hnd|]. split; [unfold OpponentFacts2.sumGames in Hsum; cbn in Hsum; lia|].
  split; [unfold OpponentStats.sortedOpponents; by apply OpponentFacts2.filter_all|].
  split; [intros [o s] He; split; [by apply OpponentFacts2.In_mapGet|exact (Hpos _ He)]|].
  intros o. apply OpponentFacts2.first_last_snoc.
Qed.

(** ** Playing patterns *)

Module PatternFacts.
Import Patterns.

Lemma round_div (c t : Z) :
  0 < t -> mathRound (js_div c t) = JNum (inject_Z ((2 * c + t) / (2 * t))).
Proof.
  intros Ht. unfold mathRound, js_div.
  destruct (Z.eqb_spec t 0) as [->|_]; [lia|].
  destruct t as [|p|p]; try lia.
  do 2 f_equal. unfold Qfloor, Qplus, Qdiv, Qmult, Qinv, inject_Z; cbn.
  rewrite Pos2Z.inj_mul. f_equal; lia.
Qed.

Lemma dotsAfterDigit_nonneg b s : 0 <= dotsAfterDigit b s.
Proof.
  induction s as [|c s IH] in b |- *; cbn; [lia|].
  specialize (IH (is_digit c)). destruct (b && _); lia.
Qed.

Lemma size_add (x : Z) (X : gset Z) : (size ({[x]} ∪ X) <= S (size X))%nat.
Proof.
  rewrite size_union_alt, size_singleton.
  pose proof (subseteq_size (X ∖ {[x]}) X ltac:(set_solver)). lia.
Qed.

Lemma loop_totals l t :
  (size (uniqueDays (foldl step t l)) <= size (uniqueDays t) + length l)%nat
  /\ (forall g, In g l -> isoDate (end_time g) ∈ uniqueDays (foldl step t l))
  /\ uniqueDays t ⊆ uniqueDays (foldl step t l)
  /\ (0 <= totalPlayingTime t -> 0 <= totalPlayingTime (foldl step t l)).
Proof.
  induction l as [|g l IH] in t |- *; cbn [foldl length].
  - split; [lia|]. split; [intros g []|]. split; [reflexivity|auto].
  - destruct (IH (step t g)) as (H1 & H2 & H3 & H4). cbn [step uniqueDays totalPlayingTime] in *.
    pose proof (size_add (isoDate (end_time g)) (uniqueDays t)).
    split; [lia|]. split; [|split; [set_solver|]].
    + intros g' [<-|Hin]; [set_solver|auto].
    + intros Ht. apply H4. pose proof (dotsAfterDigit_nonneg false (pgn g)).
      unfold moveCount. lia.
Qed.

End PatternFacts.

Theorem playingPatterns_averages (games : list Game) (u : string) :
  games <> [] ->
  let p := Patterns.generatePlayingPatternStats games u in
  (exists k, Patterns.averageGamesPerDay p = JNum (inject_Z k) /\ 1 <= k <= Z.of_nat (length games))
  /\ 0 <= Patterns.totalPlayingTimeOut p
  /\ (exists d, Patterns.averageGameDuration p = JNum (inject_Z d) /\ 0 <= d).
Proof.
  intros Hne. cbv zeta. unfold Patterns.generatePlayingPatternStats. cbv zeta.
  cbn [Patterns.averageGamesPerDay Patterns.totalPlayingTimeOut Patterns.averageGameDuration].
  destruct (PatternFacts.loop_totals games (Patterns.mkTotals ∅ 0)) as (H1 & H2 & _ & H4).
  cbn [Patterns.uniqueDays Patterns.totalPlayingTime] in H1, H4.
  rewrite size_empty in H1. specialize (H4 (Z.le_refl 0)).
  set (T := foldl Patterns.step (Patterns.mkTotals ∅ 0) games) in *.
  destruct games as [|g l]; [contradiction|].
  assert (Hs : (0 < size (Patterns.uniqueDays T))%nat).
  { destruct (size (Patterns.uniqueDays T)) eqn:E; [|lia].
    apply size_empty_inv in E. specialize (H2 g (or_introl eq_refl)). set_solver. }
  cbn [length] in *.
  split; [|split; [exact H4|]].
  - eexists. split; [apply PatternFacts.round_div; lia|].
    split.
    + apply Z.div_le_lower_bound; lia.
    + set (n := size (Patterns.uniqueDays T)) in *.
      apply Z.lt_succ_r. apply Z.div_lt_upper_bound; [lia|nia].
  - eexists. split; [apply PatternFacts.round_div; lia|]. apply Z.div_pos; lia.
Qed.

Lemma playingPatterns_averages_witness :
  Samples.gainLog <> [] /\
  let p := Patterns.generatePlayingPatternStats Samples.gainLog "alice" in
  (exists k, Patterns.averageGamesPerDay p = JNum (inject_Z k) /\ 1 <= k <= Z.of_nat (length Samples.gainLog))
  /\ 0 <= Patterns.totalPlayingTimeOut p
  /\ (exists d, Patterns.averageGameDuration p = JNum (inject_Z d) /\ 0 <= d).
Proof.
  split; [discriminate|]. apply (playingPatterns_averages Samples.gainLog "alice"). discriminate.
Defined.

(** ** Days played *)

Module IntroDaysFacts.
Import IntroDays.

Definition cnt (games : list Game) (d : Z) : Z :=
  Z.of_nat (length (filter (fun g => isoDate (end_time g) = d) games)).

Definition cntRange (games : list Game) (a b : Z) : Z :=
  Z.of_nat (length (filter (fun g => a <= isoDate (end_time g) <= b) games)).

Lemma dayGet_daySet m k v x : dayGet (daySet m k v) x = if k =? x then Some v else dayGet m x.
Proof.
  induction m as [|[k' v'] m IH]; cbn; [reflexivity|].
  destruct (Z.eqb_spec k' k) as [->|Hne]; cbn.
  - by destruct (k =? x).
  - rewrite IH. destruct (Z.eqb_spec k' x), (Z.eqb_spec k x); congruence.
Qed.

Lemma dayGet_None_iff m x : dayGet m x = None <-> ~ In x (map fst m).
Proof.
  induction m as [|[k v] m IH]; cbn; [tauto|].
  destruct (Z.eqb_spec k x) as [->|Hne]; [split; [discriminate|tauto]|].
  rewrite IH. tauto.
Qed.

Lemma NoDup_daySet m k v : NoDup (map fst m) -> NoDup (map fst (daySet m k v)).
Proof.
  induction m as [|[k' v'] m IH]; cbn; intros Hnd.
  - constructor; [apply not_elem_of_nil|constructor].
  - apply NoDup_cons in Hnd as [Hk Hnd]. destruct (Z.eqb_spec k' k) as [->|Hne]; cbn.
    + constructor; assumption.
    + constructor; [|by apply IH].
      rewrite list_elem_of_In in Hk |- *. intros Hin. apply Hk.
      assert (Hkeys : forall x, In x (map fst (daySet m k v)) -> x = k \/ In x (map fst m)).
      { clear. induction m as [|[k1 v1] m IH]; cbn; [intros x [<-|[]]; by left|].
        destruct (k1 =? k); cbn; intros x [<-|Hx]; auto.
        destruct (IH x Hx); auto. }
      destruct (Hkeys k' Hin) as [->|?]; [congruence|assumption].
Qed.

Lemma cnt_app games g d : cnt (games ++ [g]) d = cnt games d + if decide (isoDate (end_time g) = d) then 1 else 0.
Proof.
  unfold cnt. rewrite filter_app, length_app, filter_cons, filter_nil.
  case_decide; cbn [length]; lia.
Qed.

Lemma cnt_nonneg games d : 0 <= cnt games d.
Proof. unfold cnt. lia. Qed.

Lemma gamesByDate_spec games :
  NoDup (map fst (gamesByDate games))
  /\ forall x, dayGet (gamesByDate games) x = if cnt games x =? 0 then None else Some (cnt games x).
Proof.
  unfold gamesByDate. induction games as [|g games IH] using rev_ind.
  - split; [constructor|reflexivity].
  - rewrite foldl_app. cbn [foldl]. destruct IH as [Hnd IH].
    split; [by apply NoDup_daySet|].
    intros x. rewrite dayGet_daySet, cnt_app.
    pose proof (cnt_nonneg games x).
    destruct (Z.eqb_spec (isoDate (end_time g)) x) as [<-|Hne].
    + rewrite decide_True by reflexivity. rewrite IH.
      destruct (Z.eqb_spec (cnt games (isoDate (end_time g))) 0) as [->|Hn]; cbn.
      * reflexivity.
      * destruct (Z.eqb_spec (cnt games (isoDate (end_time g)) + 1) 0); [lia|]. reflexivity.
    + rewrite decide_False by exact Hne. rewrite IH. by rewrite Z.add_0_r.
Qed.

Lemma default_dayGet games d : default 0 (dayGet (gamesByDate games) d) = cnt games d.
Proof.
  rewrite (proj2 (gamesByDate_spec games)).
  destruct (Z.eqb_spec (cnt games d) 0) as [->|_]; reflexivity.
Qed.

Lemma cnt_pos_iff games d : 0 < cnt games d <-> exists g, In g games /\ isoDate (end_time g) = d.
Proof.
  unfold cnt. split.
  - intros H. destruct (filter _ games) as [|g l] eqn:E; [cbn in H; lia|].
    exists g. assert (Hg : In g (filter (fun g => isoDate (end_time g) = d) games)) by (rewrite E; left; reflexivity).
    apply list_elem_of_In, list_elem_of_filter in Hg as [Hd Hin].
    split; [by apply list_elem_of_In|exact Hd].
  - intros (g & Hin & Hd). destruct (filter _ games) as [|g' l] eqn:E; [|cbn; lia].
    assert (Hg : g ∈ filter (fun g => isoDate (end_time g) = d) games)
      by (apply list_elem_of_filter; split; [exact Hd|by apply list_elem_of_In]).
    rewrite E in Hg. by apply not_elem_of_nil in Hg.
Qed.

Lemma played_iff_key games x :
  In x (map fst (gamesByDate games)) <-> exists g, In g games /\ isoDate (end_time g) = x.
Proof.
  rewrite <- cnt_pos_iff.
  pose proof (dayGet_None_iff (gamesByDate games) x) as H.
  rewrite (proj2 (gamesByDate_spec games)) in H. pose proof (cnt_nonneg games x).
  destruct (Z.eqb_spec (cnt games x) 0) as [E|E].
  - split; [intros Hin; exfalso; by apply H|lia].
  - split; [lia|]. intros _. destruct (In_dec Z.eq_dec x (map fst (gamesByDate games))); [assumption|].
    apply H in n. discriminate.
Qed.

Lemma In_insertZ x l z : In z (insertZ x l) <-> z = x \/ In z l.
Proof.
  induction l as [|y l IH]; cbn; [intuition congruence|].
  destruct (x <=? y); cbn; [intuition congruence|]. rewrite IH. intuition congruence.
Qed.

Lemma In_sortZ l z : In z (sortZ l) <-> In z l.
Proof.
  induction l as [|x l IH]; cbn; [tauto|]. rewrite In_insertZ, IH. intuition congruence.
Qed.

Lemma insertZ_sorted x l :
  ~ In x l -> StronglySorted Z.lt l -> StronglySorted Z.lt (insertZ x l).
Proof.
  induction l as [|y l IH]; cbn; intros Hx Hs.
  - repeat constructor.
  - apply StronglySorted_inv in Hs as [Hl Hy]. destruct (Z.leb_spec x y).
    + assert (x <> y) by (intros ->; apply Hx; by left).
      constructor; [constructor; assumption|].
      constructor; [lia|]. eapply Forall_impl; [exact Hy|]. cbn. lia.
    + constructor; [apply IH; [tauto|exact Hl]|].
      apply Forall_forall. intros z Hz. apply list_elem_of_In, In_insertZ in Hz as [->|Hz]; [lia|].
      rewrite Forall_forall in Hy. apply Hy. by apply list_elem_of_In.
Qed.

Lemma sortZ_sorted l : NoDup l -> StronglySorted Z.lt (sortZ l).
Proof.
  induction l as [|x l IH]; cbn; intros Hnd; [constructor|].
  apply NoDup_cons in Hnd as [Hx Hnd]. apply insertZ_sorted; [|by apply IH].
  rewrite In_sortZ. by rewrite <- list_elem_of_In.
Qed.

Lemma cntRange_single games a : cntRange games a a = cnt games a.
Proof.
  unfold cntRange, cnt. f_equal. f_equal. apply list_filter_iff. intros g. lia.
Qed.

Lemma cntRange_snoc games a b :
  a <= b + 1 -> cntRange games a (b + 1) = cntRange games a b + cnt games (b + 1).
Proof.
  intros Hab. unfold cntRange, cnt. induction games as [|g gs IH]; [reflexivity|].
  rewrite !filter_cons. repeat case_decide; cbn [length]; lia.
Qed.

(** The invariant of the streak loop after the sorted dates [Q], the last
    of which is [prev]. *)
Definition J (games : list Game) (Q : list Z) (prev : Z) (st : StreakState) : Prop :=
  let ls := longestStreak st in
  let lb := longestBreak st in
  (0 <= currentStreak st <= sDays ls /\ Z.Even (sDays ls))
  /\ streakStart st = prev - currentStreak st
  /\ (forall x, streakStart st <= x <= prev -> In x Q)
  /\ currentStreakGames st = cntRange games (streakStart st) prev
  /\ (sDays ls = 0 -> ls = mkStreak None None 0 0)
  /\ (0 < sDays ls -> exists a b, sStart ls = Some a /\ sEnd ls = Some b /\ b - a + 1 = sDays ls
                                  /\ (forall x, a <= x <= b -> In x Q) /\ sGames ls = cntRange games a b)
  /\ 0 <= bDays lb
  /\ (bDays lb = 0 -> lb = mkBreak None None 0)
  /\ (0 < bDays lb -> exists a b, bStart lb = Some a /\ bEnd lb = Some b /\ b - a - 1 = bDays lb
                                  /\ In a Q /\ In b Q /\ forall z, In z Q -> ~ (a < z < b))
  /\ (forall x y, In x Q -> In y Q -> x < y -> (forall z, In z Q -> ~ (x < z < y)) ->
        y - x - 1 <= bDays lb).

Lemma step_J games Q prev d st :
  In prev Q -> (forall x, In x Q -> x <= prev) -> prev < d ->
  J games Q prev st -> J games (Q ++ [d]) d (streakStep (gamesByDate games) prev d st).
Proof.
  intros Hp Hmax Hd (H1 & H2 & H3 & H4 & H5 & H6 & H7 & H8 & H9 & H10).
  assert (HQ : forall x, In x (Q ++ [d]) <-> In x Q \/ x = d).
  { intros x. rewrite in_app_iff. cbn. intuition. }
  assert (Hpairs : forall x, In x Q -> x < d -> (forall z, In z (Q ++ [d]) -> ~ (x < z < d)) -> x = prev).
  { intros x Hx _ Hz. destruct (Z.eq_dec x prev) as [->|Hne]; [reflexivity|].
    exfalso. apply (Hz prev); [apply HQ; by left|]. specialize (Hmax x Hx). lia. }
  assert (Hold : forall x y, In x (Q ++ [d]) -> In y (Q ++ [d]) -> x < y ->
                   (forall z, In z (Q ++ [d]) -> ~ (x < z < y)) ->
                   (In x Q /\ In y Q /\ forall z, In z Q -> ~ (x < z < y)) \/ (x = prev /\ y = d)).
  { intros x y Hx Hy Hxy Hz. apply HQ in Hx, Hy.
    destruct Hy as [Hy| ->].
    - left. destruct Hx as [Hx| ->]; [|specialize (Hmax y Hy); lia].
      split; [exact Hx|]. split; [exact Hy|]. intros z Hzq. apply Hz. apply HQ. by left.
    - right. destruct Hx as [Hx| ->]; [|lia]. split; [|reflexivity]. by apply Hpairs. }
  unfold streakStep. rewrite default_dayGet. cbv zeta.
  destruct (Z.eqb_spec (d - prev) 1) as [E1|E1].
  - assert (Ed : d = prev + 1) by lia.
    destruct (Z.ltb_spec (sDays (longestStreak st)) (currentStreak st + 1)) as [Lt|Ge];
      unfold J; cbn [currentStreak currentStreakGames streakStart longestStreak longestBreak sDays sStart sEnd sGames].
    + assert (Ecs : currentStreak st = sDays (longestStreak st)) by lia.
      split; [split; [lia|]; destruct H1 as [_ [k Hk]]; exists (k + 1); lia|].
      split; [lia|]. split; [intros x Hx; apply HQ; destruct (Z.eq_dec x d); [by right|left; apply H3; lia]|].
      split; [rewrite H4, Ed, cntRange_snoc by lia; reflexivity|].
      split; [lia|]. split.
      * intros _. exists (streakStart st), d. split; [reflexivity|]. split; [reflexivity|].
        split; [lia|]. split.
        -- intros x Hx. apply HQ. destruct (Z.eq_dec x d); [by right|left; apply H3; lia].
        -- rewrite H4, Ed, cntRange_snoc by lia. reflexivity.
      * split; [exact H7|]. split; [exact H8|]. split.
        -- intros Hb. destruct (H9 Hb) as (a & b & Ha & Hb' & Hab & Ina & Inb & Hz).
           exists a, b. split; [exact Ha|]. split; [exact Hb'|]. split; [exact Hab|].
           split; [apply HQ; by left|]. split; [apply HQ; by left|].
           intros z Hzq. apply HQ in Hzq as [Hzq| ->]; [by apply Hz|].
           specialize (Hmax b Inb). lia.
        -- intros x y Hx Hy Hxy Hz. destruct (Hold x y Hx Hy Hxy Hz) as [(Hx' & Hy' & Hz')|[-> ->]].
           ++ by apply H10.
           ++ lia.
    + split; [split; [lia|exact (proj2 H1)]|].
      split; [lia|]. split; [intros x Hx; apply HQ; destruct (Z.eq_dec x d); [by right|left; apply H3; lia]|].
      split; [rewrite H4, Ed, cntRange_snoc by lia; reflexivity|].
      split; [exact H5|]. split.
      * intros Hs. destruct (H6 Hs) as (a & b & Ha & Hb & Hab & Hin & Hg).
        exists a, b. do 3 (split; [assumption|]). split; [|exact Hg].
        intros x Hx. apply HQ. left. by apply Hin.
      * split; [exact H7|]. split; [exact H8|]. split.
        -- intros Hb. destruct (H9 Hb) as (a & b & Ha & Hb' & Hab & Ina & Inb & Hz).
           exists a, b. split; [exact Ha|]. split; [exact Hb'|]. split; [exact Hab|].
           split; [apply HQ; by left|]. split; [apply HQ; by left|].
           intros z Hzq. apply HQ in Hzq as [Hzq| ->]; [by apply Hz|].
           specialize (Hmax b Inb). lia.
        -- intros x y Hx Hy Hxy Hz. destruct (Hold x y Hx Hy Hxy Hz) as [(Hx' & Hy' & Hz')|[-> ->]].
           ++ by apply H10.
           ++ lia.
  - destruct (Z.ltb_spec (bDays (longestBreak st)) (d - prev - 1)) as [Lt|Ge];
      unfold J; cbn [currentStreak currentStreakGames streakStart longestStreak longestBreak bDays bStart bEnd].
    + split; [split; [lia|exact (proj2 H1)]|].
      split; [lia|]. split; [intros x Hx; apply HQ; right; lia|].
      split; [by rewrite cntRange_single|].
      split; [exact H5|]. split.
      * intros Hs. destruct (H6 Hs) as (a & b & Ha & Hb & Hab & Hin & Hg).
        exists a, b. do 3 (split; [assumption|]). split; [|exact Hg].
        intros x Hx. apply HQ. left. by apply Hin.
      * split; [lia|]. split; [lia|]. split.
        -- intros _. exists prev, d. split; [reflexivity|]. split; [reflexivity|]. split; [lia|].
           split; [apply HQ; by left|]. split; [apply HQ; by right|].
           intros z Hzq. apply HQ in Hzq as [Hzq| ->]; [specialize (Hmax z Hzq); lia|lia].
        -- intros x y Hx Hy Hxy Hz. destruct (Hold x y Hx Hy Hxy Hz) as [(Hx' & Hy' & Hz')|[-> ->]].
           ++ specialize (H10 x y Hx' Hy' Hxy Hz'). lia.
           ++ lia.
    + split; [split; [lia|exact (proj2 H1)]|].
      split; [lia|]. split; [intros x Hx; apply HQ; right; lia|].
      split; [by rewrite cntRange_single|].
      split; [exact H5|]. split.
      * intros Hs. destruct (H6 Hs) as (a & b & Ha & Hb & Hab & Hin & Hg).
        exists a, b. do 3 (split; [assumption|]). split; [|exact Hg].
        intros x Hx. apply HQ. left. by apply Hin.
      * split; [exact H7|]. split; [exact H8|]. split.
        -- intros Hb. destruct (H9 Hb) as (a & b & Ha & Hb' & Hab & Ina & Inb & Hz).
           exists a, b. split; [exact Ha|]. split; [exact Hb'|]. split; [exact Hab|].
           split; [apply HQ; by left|]. split; [apply HQ; by left|].
           intros z Hzq. apply HQ in Hzq as [Hzq| ->]; [by apply Hz|].
           specialize (Hmax b Inb). lia.
        -- intros x y Hx Hy Hxy Hz. destruct (Hold x y Hx Hy Hxy Hz) as [(Hx' & Hy' & Hz')|[-> ->]].
           ++ by apply H10.
           ++ lia.
Qed.

Lemma loop_J games Q prev rest st :
  In prev Q -> (forall x, In x Q -> x <= prev) -> StronglySorted Z.lt (prev :: rest) ->
  J games Q prev st ->
  exists Q' prev', (forall x, In x Q' <-> In x Q \/ In x rest)
                   /\ J games Q' prev' (streakLoop (gamesByDate games) prev rest st).
Proof.
  induction rest as [|d rest IH] in Q, prev, st |- *; cbn [streakLoop]; intros Hp Hmax Hs HJ.
  - exists Q, prev. split; [intros x; cbn; tauto|exact HJ].
  - apply StronglySorted_inv in Hs as [Hs Hall]. inversion Hall as [|? ? Hd Hall']; subst.
    destruct (IH (Q ++ [d]) d (streakStep (gamesByDate games) prev d st)) as (Q' & p' & HQ' & HJ').
    + apply in_app_iff. right. by left.
    + intros x Hx. apply in_app_iff in Hx as [Hx|[<-|[]]]; [specialize (Hmax x Hx); lia|lia].
    + exact Hs.
    + by apply step_J.
    + exists Q', p'. split; [|exact HJ']. intros x. rewrite HQ', in_app_iff. cbn. tauto.
Qed.

End IntroDaysFacts.

Theorem intro_streak_and_break (games : list Game) :
  let played := fun x => exists g, In g games /\ isoDate (end_time g) = x in
  let ls := (IntroDays.streaks games).1 in
  let lb := (IntroDays.streaks games).2 in
  Z.Even (IntroDays.sDays ls)
  /\ (IntroDays.sDays ls = 0 -> ls = IntroDays.mkStreak None None 0 0)
  /\ (0 < IntroDays.sDays ls ->
        exists a b, IntroDays.sStart ls = Some a /\ IntroDays.sEnd ls = Some b
                    /\ b - a + 1 = IntroDays.sDays ls
                    /\ (forall x, a <= x <= b -> played x)
                    /\ IntroDays.sGames ls
                       = Z.of_nat (length (filter (fun g => a <= isoDate (end_time g) <= b) games)))
  /\ (IntroDays.bDays lb = 0 -> lb = IntroDays.mkBreak None None 0)
  /\ (0 < IntroDays.bDays lb ->
        exists a b, IntroDays.bStart lb = Some a /\ IntroDays.bEnd lb = Some b
                    /\ b - a - 1 = IntroDays.bDays lb /\ played a /\ played b
                    /\ forall x, a < x < b -> ~ played x)
  /\ 0 <= IntroDays.bDays lb
  /\ (forall x y, played x -> played y -> x < y -> (forall z, x < z < y -> ~ played z) ->
        y - x - 1 <= IntroDays.bDays lb).
Proof.
  cbv zeta. unfold IntroDays.streaks. cbv zeta.
  destruct (IntroDaysFacts.gamesByDate_spec games) as [Hnd _].
  pose proof (IntroDaysFacts.sortZ_sorted _ Hnd) as Hsorted.
  assert (Hkey : forall x, In x (IntroDays.sortZ (map fst (IntroDays.gamesByDate games)))
                           <-> exists g, In g games /\ isoDate (end_time g) = x).
  { intros x. rewrite IntroDaysFacts.In_sortZ. apply IntroDaysFacts.played_iff_key. }
  destruct (IntroDays.sortZ (map fst (IntroDays.gamesByDate games))) as [|d0 rest] eqn:E.
  - cbn. split; [exists 0; reflexivity|]. split; [reflexivity|]. split; [lia|].
    split; [reflexivity|]. split; [lia|]. split; [lia|].
    intros x y Hx. apply Hkey in Hx as [].
  - set (st0 := IntroDays.mkSS 0 (default 0 (IntroDays.dayGet (IntroDays.gamesByDate games) d0)) d0
                  (IntroDays.mkStreak None None 0 0) (IntroDays.mkBreak None None 0)).
    assert (HJ0 : IntroDaysFacts.J games [d0] d0 st0).
    { unfold IntroDaysFacts.J, st0.
      cbn [IntroDays.currentStreak IntroDays.currentStreakGames IntroDays.streakStart
           IntroDays.longestStreak IntroDays.longestBreak IntroDays.sDays IntroDays.bDays].
      rewrite IntroDaysFacts.default_dayGet, IntroDaysFacts.cntRange_single.
      split; [split; [lia|exists 0; reflexivity]|]. split; [lia|].
      split; [intros x Hx; left; lia|]. split; [reflexivity|].
      split; [reflexivity|]. split; [lia|]. split; [lia|]. split; [reflexivity|]. split; [lia|].
      intros x y [<-|[]] [<-|[]]. lia. }
    destruct (IntroDaysFacts.loop_J games [d0] d0 rest st0 (or_introl eq_refl)
                ltac:(intros x [<-|[]]; lia) Hsorted HJ0)
      as (Q & p & HQ & (H1a & H1b) & _ & _ & _ & H5 & H6 & H7 & H8 & H9 & H10).
    assert (Hp : forall x, In x Q <-> exists g, In g games /\ isoDate (end_time g) = x).
    { intros x. rewrite HQ, <- Hkey. cbn. intuition. }
    cbn [fst snd].
    split; [exact H1b|]. split; [exact H5|]. split.
    + intros Hs. destruct (H6 Hs) as (a & b & Ha & Hb & Hab & Hin & Hg).
      exists a, b. do 3 (split; [assumption|]). split; [|exact Hg].
      intros x Hx. apply Hp. by apply Hin.
    + split; [exact H8|]. split.
      * intros Hb. destruct (H9 Hb) as (a & b & Ha & Hb' & Hab & Ina & Inb & Hz).
        exists a, b. do 3 (split; [assumption|]).
        split; [by apply Hp|]. split; [by apply Hp|].
        intros x Hx Hpl. apply Hp in Hpl. exact (Hz x Hpl Hx).
      * split; [exact H7|].
        intros x y Hx Hy Hxy Hz. apply H10; [by apply Hp|by apply Hp|exact Hxy|].
        intros z Hzq Hr. apply (Hz z Hr). by apply Hp.
Qed.

Module IntroDaysFacts2.
Import IntroDays.

Lemma In_dayGet m k v : NoDup (map fst m) -> In (k, v) m -> dayGet m k = Some v.
Proof.
  induction m as [|[k' v'] m IH]; cbn; [intros _ []|].
  intros Hnd [E|Hin]; apply NoDup_cons in Hnd as [Hk Hnd].
  - injection E as -> ->. by rewrite Z.eqb_refl.
  - destruct (Z.eqb_spec k' k) as [->|Hne]; [|by apply IH].
    exfalso. apply Hk. apply list_elem_of_In. apply in_map_iff. by exists (k, v).
Qed.

Lemma fold_best (E : list (Z * Z)) (best : DayCount) :
  let r := fold_left (fun best e => if dcCount best <? e.2 then mkDayCount (Some e.1) e.2 else best)
                     E best in
  (forall e, In e E -> e.2 <= dcCount r) /\ dcCount best <= dcCount r
  /\ (r = best \/ exists e, In e E /\ r = mkDayCount (Some e.1) e.2).
Proof.
  induction E as [|e E IH] in best |- *; cbn [fold_left]; cbv zeta.
  - split; [intros e []|]. split; [lia|by left].
  - set (best' := if dcCount best <? e.2 then mkDayCount (Some e.1) e.2 else best).
    destruct (IH best') as (H1 & H2 & H3).
    assert (Hb : dcCount best <= dcCount best' /\ e.2 <= dcCount best').
    { unfold best'. destruct (Z.ltb_spec (dcCount best) e.2); cbn; lia. }
    split; [intros e' [<-|He']; [lia|auto]|]. split; [lia|].
    destruct H3 as [->|(e' & He' & ->)].
    + unfold best'. destruct (dcCount best <? e.2); [right; exists e; split; [by left|reflexivity]|by left].
    + right. exists e'. split; [by right|reflexivity].
Qed.

End IntroDaysFacts2.

Theorem mostGamesInDay_is_max (games : list Game) :
  let r := IntroDays.mostGamesInDay games in
  (games = [] -> r = IntroDays.mkDayCount None 0)
  /\ (games <> [] ->
        exists d, IntroDays.dcDate r = Some d
          /\ IntroDays.dcCount r = Z.of_nat (length (filter (fun g => isoDate (end_time g) = d) games))
          /\ 1 <= IntroDays.dcCount r
          /\ forall g, In g games ->
               Z.of_nat (length (filter (fun g' => isoDate (end_time g') = isoDate (end_time g)) games))
               <= IntroDays.dcCount r).
Proof.
  cbv zeta. split; [intros ->; reflexivity|]. intros Hne.
  destruct (IntroDaysFacts.gamesByDate_spec games) as [Hnd Hget].
  unfold IntroDays.mostGamesInDay.
  destruct (IntroDaysFacts2.fold_best (IntroDays.gamesByDate games) (IntroDays.mkDayCount None 0))
    as (H1 & _ & H3).
  cbv zeta in H1, H3.
  set (r := fold_left _ (IntroDays.gamesByDate games) (IntroDays.mkDayCount None 0)) in *.
  assert (Hentry : forall e, In e (IntroDays.gamesByDate games) -> e.2 = IntroDaysFacts.cnt games e.1
                                                             /\ 1 <= e.2).
  { intros [k v] He. pose proof (IntroDaysFacts2.In_dayGet _ _ _ Hnd He) as Hk.
    rewrite Hget in Hk. cbn. pose proof (IntroDaysFacts.cnt_nonneg games k).
    destruct (Z.eqb_spec (IntroDaysFacts.cnt games k) 0); [discriminate|]. injection Hk as <-. lia. }
  assert (Hmax : forall g, In g games -> IntroDaysFacts.cnt games (isoDate (end_time g)) <= IntroDays.dcCount r).
  { intros g Hg. assert (Hk : In (isoDate (end_time g)) (map fst (IntroDays.gamesByDate games)))
      by (apply IntroDaysFacts.played_iff_key; by exists g).
    apply in_map_iff in Hk as ([k v] & Hk & He). cbn in Hk. subst k.
    destruct (Hentry _ He) as [Hv _]. cbn in Hv. rewrite <- Hv. exact (H1 _ He). }
  destruct games as [|g0 gs]; [contradiction|].
  destruct H3 as [Hr|(e & He & Hr)].
  - exfalso. specialize (Hmax g0 (or_introl eq_refl)). rewrite Hr in Hmax. cbn in Hmax.
    pose proof (proj2 (IntroDaysFacts.cnt_pos_iff (g0 :: gs) (isoDate (end_time g0)))
                  (ex_intro _ g0 (conj (or_introl eq_refl) eq_refl))). lia.
  - destruct (Hentry e He) as [Hv Hpos]. exists e.1. rewrite Hr. cbn.
    split; [reflexivity|]. split; [exact Hv|]. split; [exact Hpos|].
    intros g Hg. specialize (Hmax g Hg). rewrite Hr in Hmax. exact Hmax.
Qed.

Module PerformanceFacts.
Import Performance.

Definition sumQ (l : list Q) : Q := fold_right Qplus 0%Q l.

Definition meanQ (l : list Q) : Q := sumQ l / inject_Z (Z.of_nat (length l)).


Lemma round2_range x : (0 <= x <= 100)%Q -> (0 <= round2 x <= 100)%Q.
Proof.
  intros Hx. unfold round2. pose proof (Qfloor_le (x * 100 + (1 # 2))) as Hle.
  pose proof (Qlt_floor (x * 100 + (1 # 2))) as Hlt.
  rewrite inject_Z_plus in Hlt. change (inject_Z 1) with 1%Q in Hlt.
  set (z := Qfloor _) in *.
  assert (H0 : (-1 < z)%Z). { rewrite Zlt_Qlt. change (inject_Z (-1)) with (-1)%Q. lra. }
  assert (H1 : (z < 10001)%Z). { rewrite Zlt_Qlt. change (inject_Z 10001) with 10001%Q. lra. }
  assert (H0' : (0 <= inject_Z z)%Q) by (change 0%Q with (inject_Z 0); rewrite <- Zle_Qle; lia).
  assert (H1' : (inject_Z z <= 10000)%Q) by (change 10000%Q with (inject_Z 10000); rewrite <- Zle_Qle; lia).
  unfold Qdiv. change (/ 100)%Q with (1 # 100). lra.
Qed.

Lemma round2_compat x y : (x == y)%Q -> round2 x = round2 y.
Proof.
  intros E. unfold round2. f_equal. f_equal. apply Z.le_antisymm; apply Qfloor_resp_le; rewrite E; lra.
Qed.

Lemma mean_range l : l <> [] -> Forall (fun a => 0 <= a <= 100)%Q l -> (0 <= meanQ l <= 100)%Q.
Proof.
  intros Hne Hall. unfold meanQ.
  assert (Hs : (0 <= sumQ l <= 100 * inject_Z (Z.of_nat (length l)))%Q).
  { clear Hne. induction Hall as [|a l Ha Hl IH]; cbn [sumQ fold_right length]; [change (inject_Z (Z.of_nat 0)) with 0%Q; lra|].
    fold (sumQ l). rewrite Nat2Z.inj_succ, <- Z.add_1_r, inject_Z_plus. change (inject_Z 1) with 1%Q. lra. }
  assert (Hn : (0 < inject_Z (Z.of_nat (length l)))%Q).
  { change 0%Q with (inject_Z 0). rewrite <- Zlt_Qlt. destruct l; [congruence|cbn; lia]. }
  split; [apply Qle_shift_div_l; lra|apply Qle_shift_div_r; lra].
Qed.

Section Facts.

Variable accuracies : Game -> option (Q * Q).
Variable u : string.

(** The subject's accuracy in a game, when the analyzer counts it. *)
Definition scoredAccuracy (g : Game) : option Q :=
  match accuracies g with
  | Some (aw, ab) => let a := if isWhite u g then aw else ab in if truthy a then Some a else None
  | None => None
  end.

Fixpoint scored (games : list Game) : list Q :=
  match games with
  | [] => []
  | g :: gs => match scoredAccuracy g with Some a => a :: scored gs | None => scored gs end
  end.

Lemma perfStep_scored st g :
  perfStep accuracies u st g =
  match scoredAccuracy g with
  | Some a =>
      let fa := formatAccuracy st (time_class g) in
      mkPerfState (totalAccuracy st + a)%Q (gamesWithAccuracy st + 1)
        (upd (formatAccuracy st) (time_class g) (mkAccTotal (accTotal fa + a)%Q (accCount fa + 1)))
  | None => st
  end.
Proof.
  unfold perfStep, scoredAccuracy. destruct (accuracies g) as [[aw ab]|]; [|reflexivity].
  destruct (truthy _); reflexivity.
Qed.

Lemma perf_loop games st :
  let st' := foldl (perfStep accuracies u) st games in
  (totalAccuracy st' == totalAccuracy st + sumQ (scored games))%Q
  /\ gamesWithAccuracy st' = gamesWithAccuracy st + Z.of_nat (length (scored games))
  /\ forall tc,
       (accTotal (formatAccuracy st' tc) == accTotal (formatAccuracy st tc) + sumQ (scored (of_class tc games)))%Q
       /\ accCount (formatAccuracy st' tc)
          = accCount (formatAccuracy st tc) + Z.of_nat (length (scored (of_class tc games))).
Proof.
  induction games as [|g gs IH] in st |- *; cbv zeta.
  - cbn. split; [ring|]. split; [lia|]. intros tc. split; [ring|lia].
  - cbn [foldl]. destruct (IH (perfStep accuracies u st g)) as (H1 & H2 & H3).
    rewrite (perfStep_scored st g) in H1, H2, H3 |- *.
    assert (Hcls : forall tc, of_class tc (g :: gs)
                              = if decide (time_class g = tc) then g :: of_class tc gs else of_class tc gs).
    { intros tc. unfold of_class. rewrite filter_cons. reflexivity. }
    cbn [scored]. destruct (scoredAccuracy g) as [a|] eqn:Ha.
    + cbn [totalAccuracy gamesWithAccuracy formatAccuracy] in H1, H2, H3. split; [rewrite H1; cbn [sumQ fold_right]; fold (sumQ (scored gs)); ring|].
      split; [rewrite H2; cbn [length]; lia|].
      intros tc. destruct (H3 tc) as [H4 H5]. unfold upd in H4, H5 |- *.
      rewrite Hcls. destruct (decide (tc = time_class g)) as [->|Hne].
      * rewrite decide_True by reflexivity. cbn [scored]. rewrite Ha.
        split; [rewrite H4; cbn [sumQ fold_right]; fold (sumQ (scored (of_class (time_class g) gs))); cbn [accTotal]; ring|].
        rewrite H5. cbn [length accCount]. lia.
      * rewrite decide_False by congruence. auto.
    + split; [exact H1|]. split; [exact H2|]. intros tc. destruct (H3 tc) as [H4 H5].
      rewrite Hcls. destruct (decide (time_class g = tc)); [cbn [scored]; rewrite Ha|]; auto.
Qed.

Lemma generatePerformanceStats_scored games :
  let p := generatePerformanceStats accuracies games u in
  overall p = averageOrNull (sumQ (scored games)) (Z.of_nat (length (scored games)))
  /\ forall tc, byFormat p tc = averageOrNull (sumQ (scored (of_class tc games)))
                                            (Z.of_nat (length (scored (of_class tc games)))).
Proof.
  cbv zeta. destruct (perf_loop games (mkPerfState 0 0 (fun _ => mkAccTotal 0 0))) as (H1 & H2 & H3).
  unfold generatePerformanceStats. cbn zeta. unfold averageOrNull.
  split.
  - rewrite H2. cbn. destruct (3 <=? _); [|reflexivity]. f_equal. apply round2_compat.
    rewrite H1, Z.add_0_l. cbn [totalAccuracy]. rewrite Qplus_0_l. reflexivity.
  - intros tc. destruct (H3 tc) as [H4 H5]. cbn. rewrite H5. cbn.
    destruct (3 <=? _); [|reflexivity]. f_equal. apply round2_compat. rewrite H4, Z.add_0_l. cbn [accTotal]. rewrite Qplus_0_l. reflexivity.
Qed.


End Facts.

End PerformanceFacts.

(** ** Accuracy analyzer *)


(** When every accuracy the analyzer counts is a percentage in [0, 100],
    so is every accuracy it reports. *)
Theorem performance_accuracy_range (accuracies : Game -> option (Q * Q)) (games : list Game) (u : string)
  (Hrange : Forall (fun a => 0 <= a <= 100)%Q (PerformanceFacts.scored accuracies u games)) :
  let p := Performance.generatePerformanceStats accuracies games u in
  (forall v, Performance.overall p = Some v -> (0 <= v <= 100)%Q)
  /\ (forall tc v, Performance.byFormat p tc = Some v -> (0 <= v <= 100)%Q).
Proof.
  cbv zeta. destruct (PerformanceFacts.generatePerformanceStats_scored accuracies u games) as [Ho Hf].
  cbv zeta in Ho, Hf. rewrite Ho. setoid_rewrite Hf. unfold Performance.averageOrNull.
  assert (Hsub : forall tc, Forall (fun a => 0 <= a <= 100)%Q
                              (PerformanceFacts.scored accuracies u (of_class tc games))).
  { intros tc. clear Ho Hf. induction games as [|g gs IH]; [constructor|].
    unfold of_class. rewrite filter_cons. fold (of_class tc gs). cbn [PerformanceFacts.scored] in Hrange.
    case_decide; cbn [PerformanceFacts.scored];
      destruct (PerformanceFacts.scoredAccuracy accuracies u g); try (inversion Hrange; subst); auto. }
  assert (Hgen : forall l v, Forall (fun a => 0 <= a <= 100)%Q l ->
            (if 3 <=? Z.of_nat (length l)
             then Some (Performance.round2 (PerformanceFacts.sumQ l / inject_Z (Z.of_nat (length l))))
             else None) = Some v -> (0 <= v <= 100)%Q).
  { intros l v Hl. destruct (Z.leb_spec 3 (Z.of_nat (length l))); [|discriminate].
    intros [= <-]. apply PerformanceFacts.round2_range. apply PerformanceFacts.mean_range; [|exact Hl].
    intros ->. cbn in *. lia. }
  split; [intros v; apply Hgen; exact Hrange|]. intros tc v. apply Hgen, Hsub.
Qed.

Module MonthlyFacts.
Import Monthly.

Definition total_ge (a b : MonthRow) : Prop := total b <= total a.

Lemma insertByTotal_perm x l : insertByTotal x l ≡ₚ x :: l.
Proof.
  induction l as [|y l IH]; cbn; [reflexivity|].
  destruct (total y <=? total x); [reflexivity|].
  rewrite IH. constructor.
Qed.

Lemma sortByTotal_perm l : sortByTotal l ≡ₚ l.
Proof.
  induction l as [|x l IH]; cbn; [reflexivity|].
  by rewrite insertByTotal_perm, IH.
Qed.

Lemma insertByTotal_sorted x l : Sorted total_ge l -> Sorted total_ge (insertByTotal x l).
Proof.
  induction l as [|y l IH]; cbn; intros Hs.
  - repeat constructor.
  - destruct (Z.leb_spec (total y) (total x)).
    + constructor; [exact Hs|]. constructor. exact H.
    + apply Sorted_inv in Hs as [Hl Hy]. constructor; [by apply IH|].
      destruct l as [|z l]; cbn.
      * constructor. unfold total_ge. lia.
      * destruct (total z <=? total x); constructor; unfold total_ge; [lia|].
        by inversion Hy.
Qed.

Lemma sortByTotal_sorted l : StronglySorted total_ge (sortByTotal l).
Proof.
  apply Sorted_StronglySorted; [intros a b c; unfold total_ge; lia|].
  induction l as [|x l IH]; cbn; [constructor|]. by apply insertByTotal_sorted.
Qed.

Lemma StronglySorted_last (l : list MonthRow) z :
  StronglySorted total_ge (l ++ [z]) -> forall y, In y (l ++ [z]) -> total z <= total y.
Proof.
  induction l as [|x l IH]; cbn; intros Hs y Hy.
  - destruct Hy as [<-|[]]. lia.
  - apply StronglySorted_inv in Hs as [Hs Hx]. destruct Hy as [<-|Hy]; [|by apply IH].
    rewrite Forall_forall in Hx. apply (Hx z). apply list_elem_of_In, in_or_app. right. by left.
Qed.

Section Facts.

Variable getMonth : Z -> nat.

(** Games ending in month [i], and those of them of class [tc]. *)
Definition monthCount (i : nat) (games : list Game) : Z :=
  Z.of_nat (length (filter (fun g => getMonth (end_time g) = i) games)).

Definition monthClassCount (i : nat) (tc : TimeClass) (games : list Game) : Z :=
  Z.of_nat (length (filter (fun g => getMonth (end_time g) = i /\ time_class g = tc) games)).

Definition expectedRow (games : list Game) (i : nat) (m : string) : MonthRow :=
  mkMonthRow m (monthClassCount i rapid games) (monthClassCount i blitz games)
    (monthClassCount i bullet games) (monthCount i games).

Lemma monthCount_snoc i l g :
  monthCount i (l ++ [g]) = monthCount i l + (if decide (getMonth (end_time g) = i) then 1 else 0).
Proof.
  unfold monthCount. rewrite filter_app, length_app, filter_cons, filter_nil.
  case_decide; cbn [length]; lia.
Qed.

Lemma monthClassCount_snoc i tc l g :
  monthClassCount i tc (l ++ [g])
  = monthClassCount i tc l + (if decide (getMonth (end_time g) = i /\ time_class g = tc) then 1 else 0).
Proof.
  unfold monthClassCount. rewrite filter_app, length_app, filter_cons, filter_nil.
  case_decide; cbn [length]; lia.
Qed.

Lemma monthCount_cons i g gs :
  monthCount i (g :: gs) = (if Nat.eqb (getMonth (end_time g)) i then 1 else 0) + monthCount i gs.
Proof.
  unfold monthCount. rewrite filter_cons.
  case_decide; destruct (Nat.eqb_spec (getMonth (end_time g)) i); cbn [length]; lia.
Qed.

Lemma step_expected l g :
  (getMonth (end_time g) < 12)%nat ->
  monthStep getMonth (Some (imap (expectedRow l) months)) g = Some (imap (expectedRow (l ++ [g])) months).
Proof.
  intros Hlt. unfold monthStep.
  set (i := getMonth (end_time g)) in *.
  rewrite list_lookup_imap.
  destruct (lookup_lt_is_Some_2 months i) as [m Hm]; [exact Hlt|].
  rewrite Hm. cbn [fmap option_fmap option_map]. f_equal. apply list_eq. intros j.
  rewrite list_lookup_imap. destruct (decide (j = i)) as [->|Hne].
  - rewrite list_lookup_insert_eq by (rewrite length_imap; exact Hlt). rewrite Hm. cbn. f_equal.
    unfold expectedRow. rewrite !monthClassCount_snoc, monthCount_snoc.
    destruct (time_class g) eqn:Htc; cbn [bump month mRapid mBlitz mBullet total];
      repeat case_decide; try (exfalso; intuition congruence); f_equal; lia.
  - rewrite list_lookup_insert_ne by congruence. rewrite list_lookup_imap.
    destruct (months !! j) as [m'|]; [|reflexivity]. cbn. f_equal. unfold expectedRow.
    rewrite !monthClassCount_snoc, monthCount_snoc.
    repeat case_decide; try (exfalso; intuition congruence); f_equal; lia.
Qed.

Lemma monthStep_None g : monthStep getMonth None g = None.
Proof. reflexivity. Qed.

Lemma foldl_None games : foldl (monthStep getMonth) None games = None.
Proof. induction games; cbn; auto. Qed.

Lemma distribution_loop games :
  (Forall (fun g => getMonth (end_time g) < 12)%nat games ->
   foldl (monthStep getMonth) (Some (map (fun m => mkMonthRow m 0 0 0 0) months)) games
   = Some (imap (expectedRow games) months))
  /\ (Exists (fun g => 12 <= getMonth (end_time g))%nat games ->
      foldl (monthStep getMonth) (Some (map (fun m => mkMonthRow m 0 0 0 0) months)) games = None).
Proof.
  induction games as [|g l IH] using rev_ind.
  - split; [intros _; reflexivity|]. intros Hex. inversion Hex.
  - rewrite foldl_app. cbn [foldl]. destruct IH as [IH1 IH2]. split.
    + intros Hall. apply Forall_app in Hall as [Hl Hg]. inversion Hg; subst.
      rewrite IH1 by exact Hl. by apply step_expected.
    + intros Hex. apply Exists_app in Hex as [Hl|Hg]; [rewrite IH2 by exact Hl; reflexivity|].
      apply Exists_cons in Hg as [Hg|Hnil]; [|inversion Hnil].
      destruct (Forall_Exists_dec (fun g => getMonth (end_time g) < 12)%nat
                  (fun g => 12 <= getMonth (end_time g))%nat
                  (fun g => match le_lt_dec 12 (getMonth (end_time g)) with
                            | left h => right h | right h => left h end) l) as [Hl|Hl];
        [|rewrite IH2 by exact Hl; reflexivity].
      rewrite IH1 by exact Hl. unfold monthStep.
      rewrite list_lookup_imap.
      replace (months !! getMonth (end_time g)) with (@None string); [reflexivity|].
      symmetry. apply lookup_ge_None_2. cbn. lia.
Qed.

Lemma sum_totals games :
  Forall (fun g => getMonth (end_time g) < 12)%nat games ->
  fold_right (fun r acc => total r + acc) 0 (imap (expectedRow games) months) = Z.of_nat (length games).
Proof.
  induction games as [|g gs IH]; intros Hall; [reflexivity|].
  inversion Hall as [|? ? Hg Hgs]; subst. specialize (IH Hgs).
  cbn in IH |- *. unfold expectedRow in IH |- *. cbn [total] in IH |- *.
  rewrite !monthCount_cons.
  set (n := getMonth (end_time g)) in *.
  do 12 (destruct n as [|n]; [cbn -[monthCount]; lia|]). lia.
Qed.

Lemma monthClass_split i games :
  monthCount i games = monthClassCount i rapid games + monthClassCount i blitz games + monthClassCount i bullet games.
Proof.
  unfold monthCount, monthClassCount.
  induction games as [|g gs IH]; [reflexivity|]. rewrite !filter_cons.
  destruct (time_class g);
    repeat case_decide; cbn [length]; try (destruct_and?; discriminate); try tauto; lia.
Qed.

End Facts.

End MonthlyFacts.

(** ** Monthly distribution *)

(** When every game's month index is a month ([getMonth] returns 0..11),
    the distribution has one row per month, in calendar order, holding the
    numbers of games of that month by class and in total; the class counts
    add up to the row total and the row totals to the number of games;
    [mostActive] is a month with the largest total, [leastActive] one with
    the smallest non-zero total, and both are [('None', 0)] for no games. *)
Theorem monthlyGames_distribution (getMonth : Z -> nat) (games : list Game)
  (Hmonth : Forall (fun g => getMonth (end_time g) < 12)%nat games) :
  exists mg, Monthly.generateMonthlyGames getMonth games = Some mg
  /\ length (Monthly.distribution mg) = 12%nat
  /\ (forall i m, Monthly.months !! i = Some m ->
        Monthly.distribution mg !! i = Some (MonthlyFacts.expectedRow getMonth games i m))
  /\ (forall i, MonthlyFacts.monthCount getMonth i games
                = MonthlyFacts.monthClassCount getMonth i rapid games
                  + MonthlyFacts.monthClassCount getMonth i blitz games
                  + MonthlyFacts.monthClassCount getMonth i bullet games)
  /\ fold_right (fun r acc => Monthly.total r + acc) 0 (Monthly.distribution mg) = Z.of_nat (length games)
  /\ (games = [] -> Monthly.mostActive mg = Monthly.mkMonthCount "None" 0
                    /\ Monthly.leastActive mg = Monthly.mkMonthCount "None" 0)
  /\ (games <> [] ->
        (exists i m, Monthly.months !! i = Some m
           /\ Monthly.mostActive mg = Monthly.mkMonthCount m (MonthlyFacts.monthCount getMonth i games)
           /\ forall j, MonthlyFacts.monthCount getMonth j games <= MonthlyFacts.monthCount getMonth i games)
        /\ (exists i m, Monthly.months !! i = Some m
           /\ Monthly.leastActive mg = Monthly.mkMonthCount m (MonthlyFacts.monthCount getMonth i games)
           /\ 0 < MonthlyFacts.monthCount getMonth i games
           /\ forall j, 0 < MonthlyFacts.monthCount getMonth j games ->
                MonthlyFacts.monthCount getMonth i games <= MonthlyFacts.monthCount getMonth j games)).
Proof.
  destruct (MonthlyFacts.distribution_loop getMonth games) as [Hloop _].
  unfold Monthly.generateMonthlyGames. rewrite (Hloop Hmonth).
  set (d := imap (MonthlyFacts.expectedRow getMonth games) Monthly.months).
  set (act := Monthly.sortByTotal (filter (fun m => 0 < Monthly.total m) d)).
  eexists. split; [reflexivity|]. cbn [Monthly.distribution Monthly.mostActive Monthly.leastActive].
  assert (Hd : forall i m, Monthly.months !! i = Some m -> d !! i = Some (MonthlyFacts.expectedRow getMonth games i m)).
  { intros i m Hm. unfold d. rewrite list_lookup_imap, Hm. reflexivity. }
  assert (Hpos : forall j, 0 < MonthlyFacts.monthCount getMonth j games -> exists m, Monthly.months !! j = Some m).
  { intros j Hj. unfold MonthlyFacts.monthCount in Hj.
    destruct (filter (fun g => getMonth (end_time g) = j) games) as [|g' rest] eqn:Hf; [cbn in Hj; lia|].
    assert (Hg' : g' ∈ filter (fun g => getMonth (end_time g) = j) games) by (rewrite Hf; left).
    apply list_elem_of_filter in Hg' as [Hj' Hg'].
    rewrite Forall_forall in Hmonth. specialize (Hmonth g' Hg').
    apply lookup_lt_is_Some_2. cbn. lia. }
  assert (Hin_act : forall j m, Monthly.months !! j = Some m -> 0 < MonthlyFacts.monthCount getMonth j games ->
                      In (MonthlyFacts.expectedRow getMonth games j m) act).
  { intros j m Hm Hj. apply list_elem_of_In. unfold act. rewrite MonthlyFacts.sortByTotal_perm.
    apply list_elem_of_filter. split; [exact Hj|]. apply list_elem_of_lookup_2 with j. by apply Hd. }
  assert (Hact_row : forall r, In r act -> 0 < Monthly.total r
            /\ exists i m, Monthly.months !! i = Some m /\ r = MonthlyFacts.expectedRow getMonth games i m).
  { intros r Hr. apply list_elem_of_In in Hr. unfold act in Hr. rewrite MonthlyFacts.sortByTotal_perm in Hr.
    apply list_elem_of_filter in Hr as [Hr0 Hr]. split; [exact Hr0|].
    apply list_elem_of_lookup in Hr as [i Hi]. unfold d in Hi. rewrite list_lookup_imap in Hi.
    destruct (Monthly.months !! i) as [m|] eqn:Hm; [|discriminate]. injection Hi as <-. eauto. }
  pose proof (MonthlyFacts.sortByTotal_sorted (filter (fun m => 0 < Monthly.total m) d)) as Hsorted.
  fold act in Hsorted.
  split; [unfold d; rewrite length_imap; reflexivity|].
  split; [exact Hd|].
  split; [intros i; apply MonthlyFacts.monthClass_split|].
  split; [apply MonthlyFacts.sum_totals; exact Hmonth|].
  split; [intros ->; split; reflexivity|].
  intros Hne. destruct games as [|g0 gs]; [contradiction|].
  assert (Hm0 : exists m0, Monthly.months !! getMonth (end_time g0) = Some m0).
  { apply Hpos. rewrite MonthlyFacts.monthCount_cons, Nat.eqb_refl.
    unfold MonthlyFacts.monthCount. lia. }
  destruct Hm0 as [m0 Hm0].
  assert (Hin0 : In (MonthlyFacts.expectedRow getMonth (g0 :: gs) (getMonth (end_time g0)) m0) act).
  { apply Hin_act; [exact Hm0|]. rewrite MonthlyFacts.monthCount_cons, Nat.eqb_refl.
    unfold MonthlyFacts.monthCount. lia. }
  split.
  - destruct act as [|r rest] eqn:Hact; [destruct Hin0|].
    destruct (Hact_row r (or_introl eq_refl)) as (_ & i & m & Hm & ->).
    exists i, m. split; [exact Hm|]. split; [reflexivity|].
    intros j. destruct (Z.ltb_spec 0 (MonthlyFacts.monthCount getMonth j (g0 :: gs))) as [Hj|Hj].
    + destruct (Hpos j Hj) as [m' Hm']. pose proof (Hin_act j m' Hm' Hj) as Hin.
      destruct Hin as [E|Hin]; [unfold MonthlyFacts.expectedRow in E; injection E; intros; lia|].
      apply StronglySorted_inv in Hsorted as [_ Hf]. rewrite Forall_forall in Hf.
      pose proof (Hf _ (proj2 (list_elem_of_In _ _) Hin)) as Hge.
      unfold MonthlyFacts.total_ge, MonthlyFacts.expectedRow in Hge. cbn [Monthly.total] in Hge. exact Hge.
    + unfold MonthlyFacts.monthCount in *. lia.
  - destruct (last act) as [z|] eqn:Hlast.
    + apply last_Some in Hlast as [l' Hl']. rewrite Hl' in Hsorted, Hact_row, Hin_act.
      assert (Hz : In z (l' ++ [z])) by (apply in_or_app; right; left; reflexivity).
      destruct (Hact_row z Hz) as (Hz0 & i & m & Hm & ->).
      exists i, m. split; [exact Hm|]. split; [reflexivity|]. split; [exact Hz0|].
      intros j Hj. destruct (Hpos j Hj) as [m' Hm'].
      exact (MonthlyFacts.StronglySorted_last _ _ Hsorted _ (Hin_act j m' Hm' Hj)).
    + apply last_None in Hlast. rewrite Hlast in Hin0. destruct Hin0.
Qed.

Lemma performance_accuracy_range_witness :
  Forall (fun a => 0 <= a <= 100)%Q
    (PerformanceFacts.scored (fun g => Some (inject_Z (end_time g) / 4, 50)%Q) "alice" Samples.bobLog)
  /\ forall v, Performance.overall
                 (Performance.generatePerformanceStats (fun g => Some (inject_Z (end_time g) / 4, 50)%Q)
                    Samples.bobLog "alice") = Some v -> (0 <= v <= 100)%Q.
Proof.
  assert (H : Forall (fun a => 0 <= a <= 100)%Q
    (PerformanceFacts.scored (fun g => Some (inject_Z (end_time g) / 4, 50)%Q) "alice" Samples.bobLog))
    by (vm_compute; repeat constructor; discriminate).
  split; [exact H|].
  exact (proj1 (performance_accuracy_range (fun g => Some (inject_Z (end_time g) / 4, 50)%Q)
                  Samples.bobLog "alice" H)).
Defined.

Lemma monthlyGames_distribution_witness :
  Forall (fun g => Monthly.utcMonth (end_time g) < 12)%nat Samples.bobLog
  /\ exists mg, Monthly.generateMonthlyGames Monthly.utcMonth Samples.bobLog = Some mg.
Proof.
  assert (H : Forall (fun g => Monthly.utcMonth (end_time g) < 12)%nat Samples.bobLog) by (repeat constructor; vm_compute; lia).
  split; [exact H|].
  destruct (monthlyGames_distribution Monthly.utcMonth Samples.bobLog H) as [mg [Hmg _]].
  exists mg. exact Hmg.
Defined.

Module KeySort.

Section KeySort.
Context {A : Type} (key : A -> Z).

(** Stable insertion by decreasing [key]. *)
Fixpoint insKey (x : A) (l : list A) : list A :=
  match l with
  | [] => [x]
  | y :: l' => if key x <? key y then y :: insKey x l' else x :: y :: l'
  end.

Fixpoint sortKey (l : list A) : list A :=
  match l with
  | [] => []
  | x :: l' => insKey x (sortKey l')
  end.

Definition geKey (a b : A) : Prop := key b <= key a.

Lemma insKey_perm x l : insKey x l ≡ₚ x :: l.
Proof.
  induction l as [|y l IH]; cbn; [reflexivity|].
  destruct (key x <? key y); [|reflexivity].
  rewrite IH. constructor.
Qed.

Lemma sortKey_perm l : sortKey l ≡ₚ l.
Proof.
  induction l as [|x l IH]; cbn; [reflexivity|].
  by rewrite insKey_perm, IH.
Qed.

Lemma insKey_sorted x l : Sorted geKey l -> Sorted geKey (insKey x l).
Proof.
  induction l as [|y l IH]; cbn; intros Hs.
  - repeat constructor.
  - destruct (Z.ltb_spec (key x) (key y)).
    + apply Sorted_inv in Hs as [Hl Hy]. constructor; [by apply IH|].
      destruct l as [|z l]; cbn.
      * constructor. unfold geKey. lia.
      * destruct (key x <? key z); constructor; unfold geKey; [|lia].
        by inversion Hy.
    + constructor; [exact Hs|]. constructor. unfold geKey. lia.
Qed.

Lemma sortKey_sorted l : StronglySorted geKey (sortKey l).
Proof.
  apply Sorted_StronglySorted; [intros a b c; unfold geKey; lia|].
  induction l as [|x l IH]; cbn; [constructor|]. by apply insKey_sorted.
Qed.

Lemma filter_insKey z x l :
  filter (fun a => key a = z) (insKey x l) = filter (fun a => key a = z) (x :: l).
Proof.
  induction l as [|y l IH]; cbn [insKey]; [reflexivity|].
  destruct (Z.ltb_spec (key x) (key y)); [|reflexivity].
  rewrite filter_cons, IH, !filter_cons.
  repeat case_decide; try lia; reflexivity.
Qed.

Lemma filter_sortKey z l : filter (fun a => key a = z) (sortKey l) = filter (fun a => key a = z) l.
Proof.
  induction l as [|x l IH]; cbn [sortKey]; [reflexivity|].
  rewrite filter_insKey, !filter_cons, IH. reflexivity.
Qed.

Lemma sorted_unique l1 l2 :
  StronglySorted geKey l1 -> StronglySorted geKey l2 ->
  (forall z, filter (fun a => key a = z) l1 = filter (fun a => key a = z) l2) -> l1 = l2.
Proof.
  induction l1 as [|x l1 IH] in l2 |- *; intros H1 H2 Hf.
  - destruct l2 as [|y l2]; [reflexivity|]. exfalso.
    specialize (Hf (key y)). rewrite filter_cons_True in Hf by reflexivity. discriminate.
  - destruct l2 as [|y l2].
    + exfalso. specialize (Hf (key x)). rewrite filter_cons_True in Hf by reflexivity. discriminate.
    + apply StronglySorted_inv in H1 as [H1 Hx]. apply StronglySorted_inv in H2 as [H2 Hy].
      rewrite Forall_forall in Hx, Hy.
      assert (Hk : key x = key y).
      { destruct (Z.lt_trichotomy (key x) (key y)) as [Hlt|[Heq|Hgt]]; [exfalso| exact Heq |exfalso].
        - specialize (Hf (key y)). rewrite (filter_cons_True _ y) in Hf by reflexivity.
          rewrite filter_cons_False in Hf by lia.
          assert (Hin : y ∈ filter (fun a => key a = key y) l1) by (rewrite Hf; left).
          apply list_elem_of_filter in Hin as [_ Hin]. specialize (Hx y Hin). unfold geKey in Hx. lia.
        - specialize (Hf (key x)). rewrite (filter_cons_True _ x) in Hf by reflexivity.
          rewrite (filter_cons_False _ y) in Hf by lia.
          assert (Hin : x ∈ filter (fun a => key a = key x) l2) by (rewrite <- Hf; left).
          apply list_elem_of_filter in Hin as [_ Hin]. specialize (Hy x Hin). unfold geKey in Hy. lia. }
      assert (Hxy : x = y).
      { specialize (Hf (key x)). rewrite !filter_cons_True in Hf by (try reflexivity; lia).
        by injection Hf. }
      subst y. f_equal. apply IH; [exact H1|exact H2|].
      intros z. specialize (Hf z). rewrite !filter_cons in Hf. case_decide; [by injection Hf|exact Hf].
Qed.

Lemma sortKey_ext l1 l2 :
  (forall z, filter (fun a => key a = z) l1 = filter (fun a => key a = z) l2) -> sortKey l1 = sortKey l2.
Proof.
  intros Hf. apply sorted_unique; [apply sortKey_sorted|apply sortKey_sorted|].
  intros z. by rewrite !filter_sortKey.
Qed.

End KeySort.

End KeySort.

Module OpeningFacts.
Import Openings KeySort.

(** A win rate read as the integer that [Math.round] produced. *)
Definition wr (r : OpeningStat) : Z :=
  match osWinRate r with JNum q => Qfloor q | _ => 0 end.

Definition integral (r : OpeningStat) : Prop := osWinRate r = JNum (inject_Z (wr r)).

Lemma inject_Z_sub a b : inject_Z (a - b) = (inject_Z a - inject_Z b)%Q.
Proof. unfold Z.sub, Qminus. rewrite inject_Z_plus, inject_Z_opp. reflexivity. Qed.

Lemma js_gt_diff a b : js_gt (JNum (inject_Z a - inject_Z b)) 0 = (b <? a).
Proof.
  cbn [js_gt]. destruct (Z.ltb_spec b a) as [H|H].
  - apply negb_true_iff. apply not_true_iff_false. intros Hle. apply Qle_bool_iff in Hle.
    rewrite <- inject_Z_sub in Hle. change 0%Q with (inject_Z 0) in Hle. rewrite <- Zle_Qle in Hle. lia.
  - apply negb_false_iff. apply Qle_bool_iff.
    rewrite <- inject_Z_sub. change 0%Q with (inject_Z 0). rewrite <- Zle_Qle. lia.
Qed.

Lemma insertBy_desc x l : integral x -> Forall integral l ->
  insertBy byWinRateDesc x l = insKey wr x l.
Proof.
  intros Hx Hl. induction Hl as [|y l Hy Hl IH]; [reflexivity|]. cbn [insertBy insKey].
  rewrite IH. unfold byWinRateDesc. rewrite Hx, Hy. cbn [js_sub]. rewrite js_gt_diff. reflexivity.
Qed.

Lemma insertBy_asc x l : integral x -> Forall integral l ->
  insertBy byWinRateAsc x l = insKey (fun r => - wr r) x l.
Proof.
  intros Hx Hl. induction Hl as [|y l Hy Hl IH]; [reflexivity|]. cbn [insertBy insKey].
  rewrite IH. unfold byWinRateAsc. rewrite Hx, Hy. cbn [js_sub]. rewrite js_gt_diff.
  replace (- wr x <? - wr y) with (wr y <? wr x); [reflexivity|].
  apply eq_true_iff_eq. rewrite !Z.ltb_lt. lia.
Qed.

Lemma sortBy_desc l : Forall integral l -> sortBy byWinRateDesc l = sortKey wr l.
Proof.
  induction l as [|x l IH]; intros Hl; [reflexivity|]. inversion Hl as [|? ? Hx Hl']; subst.
  cbn [sortBy sortKey]. rewrite IH by exact Hl'. apply insertBy_desc; [exact Hx|].
  rewrite sortKey_perm; exact Hl'.
Qed.

Lemma sortBy_asc l : Forall integral l -> sortBy byWinRateAsc l = sortKey (fun r => - wr r) l.
Proof.
  induction l as [|x l IH]; intros Hl; [reflexivity|]. inversion Hl as [|? ? Hx Hl']; subst.
  cbn [sortBy sortKey]. rewrite IH by exact Hl'. apply insertBy_asc; [exact Hx|].
  rewrite sortKey_perm; exact Hl'.
Qed.

Lemma sortBy_count l : sortBy byCountDesc l = sortKey osCount l.
Proof.
  induction l as [|x l IH]; [reflexivity|]. cbn [sortBy sortKey]. rewrite IH. generalize (sortKey osCount l).
  intros l'. induction l' as [|y l' IH']; [reflexivity|]. cbn [insertBy insKey].
  rewrite IH'. unfold byCountDesc. rewrite inject_Z_sub, js_gt_diff. reflexivity.
Qed.

Lemma percent_integral a b : 0 < b -> exists z, percent a b = JNum (inject_Z z).
Proof.
  intros Hb. unfold percent, js_mul100, js_div, mathRound.
  destruct (Z.eqb_spec b 0); [lia|]. eexists. reflexivity.
Qed.

Lemma processOpenings_integral total m : Forall integral (processOpenings total m).
Proof.
  unfold processOpenings. rewrite sortBy_count.
  rewrite sortKey_perm.
  apply Forall_forall. intros r Hr. apply list_elem_of_In, in_map_iff in Hr as (o & <- & Ho).
  apply list_elem_of_In, list_elem_of_filter in Ho as [Ho _].
  destruct (percent_integral (odWins o) (odCount o)) as [z Hz]; [lia|].
  unfold integral, wr. cbn [osWinRate]. rewrite Hz, Qfloor_Z. reflexivity.
Qed.

Lemma sortKey_nil {A} (key : A -> Z) l : sortKey key l = [] <-> l = [].
Proof.
  split; [|by intros ->]. intros H. apply Permutation_nil. rewrite <- H. apply sortKey_perm.
Qed.

Lemma worst_after_top l : Forall integral l ->
  processWorstOpenings (processTopOpenings l).2 = processWorstOpenings l.
Proof.
  intros Hl. destruct l as [|x l']; [reflexivity|].
  unfold processTopOpenings. cbn [snd]. rewrite sortBy_desc by exact Hl.
  unfold processWorstOpenings.
  destruct (sortKey wr (x :: l')) as [|y ys] eqn:Hs; [apply sortKey_nil in Hs; discriminate|].
  rewrite <- Hs. clear y ys Hs. f_equal.
  assert (Hi : forall l0, Forall integral l0 -> Forall integral (filter (fun o => 2 <= osCount o) l0)).
  { intros l0 H0. apply Forall_forall. intros r Hr. apply list_elem_of_filter in Hr as [_ Hr].
    rewrite Forall_forall in H0. by apply H0. }
  rewrite !sortBy_asc.
  2: { apply Hi. exact Hl. }
  2: { apply Hi. rewrite sortKey_perm; exact Hl. }
  apply sortKey_ext. intros z.
  rewrite !list_filter_filter.
  rewrite (list_filter_iff (fun a => - wr a = z /\ 2 <= osCount a)
             (fun a => 2 <= osCount a /\ wr a = - z)) by (intros; lia).
  rewrite (list_filter_iff (fun a => - wr a = z /\ 2 <= osCount a)
             (fun a => 2 <= osCount a /\ wr a = - z) (x :: l')) by (intros; lia).
  rewrite <- !list_filter_filter. by rewrite filter_sortKey.
Qed.

End OpeningFacts.

(** ** Opening analyzer *)

(** [processTopOpenings] sorts the [whiteOpenings] and [blackOpenings]
    arrays in place before [processWorstOpenings] reads them, and this has
    no effect: the worst openings are those [processWorstOpenings] would
    pick from the arrays as [processOpenings] built them. *)
Theorem worstOpenings_unaffected_by_in_place_sort (games : list Game) (u : string) :
  let byColor := foldl (Openings.openingStep u) ([], []) games in
  let totalGames := Z.of_nat (length games) in
  let stats := Openings.generateOpeningStats games u in
  Openings.worstOpenings (Openings.asWhite stats)
    = Openings.processWorstOpenings (Openings.processOpenings totalGames byColor.1)
  /\ Openings.worstOpenings (Openings.asBlack stats)
    = Openings.processWorstOpenings (Openings.processOpenings totalGames byColor.2).
Proof.
  cbv zeta. unfold Openings.generateOpeningStats. cbv zeta.
  set (W := foldl (Openings.openingStep u) ([], []) games).
  set (T := Z.of_nat (length games)).
  pose proof (OpeningFacts.worst_after_top (Openings.processOpenings T W.1)
                (OpeningFacts.processOpenings_integral T W.1)) as Hw.
  pose proof (OpeningFacts.worst_after_top (Openings.processOpenings T W.2)
                (OpeningFacts.processOpenings_integral T W.2)) as Hb.
  destruct (Openings.processTopOpenings (Openings.processOpenings T W.1)) as [tw w'].
  destruct (Openings.processTopOpenings (Openings.processOpenings T W.2)) as [tb b'].
  cbn in Hw, Hb |- *. split; assumption.
Qed.

Module OpeningFacts2.
Import Openings KeySort OpeningFacts.

Lemma SS_app_inv {A} (R : A -> A -> Prop) l1 l2 :
  StronglySorted R (l1 ++ l2) ->
  StronglySorted R l1 /\ forall x y, In x l1 -> In y l2 -> R x y.
Proof.
  induction l1 as [|a l1 IH]; cbn; intros Hs.
  - split; [constructor|intros x y []].
  - apply StronglySorted_inv in Hs as [Hs Ha]. destruct (IH Hs) as [H1 H2].
    rewrite Forall_forall in Ha. split.
    + constructor; [exact H1|]. apply Forall_forall. intros y Hy. apply Ha.
      apply list_elem_of_In, in_or_app. left. by apply list_elem_of_In.
    + intros x y [<-|Hx] Hy; [|by apply H2]. apply Ha. apply list_elem_of_In, in_or_app. by right.
Qed.

Lemma SS_impl {A} (R1 R2 : A -> A -> Prop) l :
  (forall a b, R1 a b -> R2 a b) -> StronglySorted R1 l -> StronglySorted R2 l.
Proof.
  intros Himp Hs. induction Hs as [|a l Hs IH Ha]; constructor; [exact IH|].
  eapply Forall_impl; [exact Ha|]. intros x. apply Himp.
Qed.

Lemma SS_filter {A} (R : A -> A -> Prop) (P : A -> Prop) `{forall x, Decision (P x)} l :
  StronglySorted R l -> StronglySorted R (filter P l).
Proof.
  intros Hs. induction Hs as [|a l Hs IH Ha]; [constructor|]. rewrite filter_cons.
  case_decide; [|exact IH]. constructor; [exact IH|].
  apply Forall_forall. intros y Hy. apply list_elem_of_filter in Hy as [_ Hy].
  rewrite Forall_forall in Ha. by apply Ha.
Qed.

(** Stable sorting by [key] keeps, among equal keys, the order [R] of the input. *)
Lemma sortKey_lex {A} (key : A -> Z) (R : A -> A -> Prop) l :
  StronglySorted R l ->
  StronglySorted (fun a b => key b < key a \/ (key a = key b /\ R a b)) (sortKey key l).
Proof.
  intros Hl.
  assert (Hf : forall z, StronglySorted R (filter (fun a => key a = z) (sortKey key l))).
  { intros z. rewrite filter_sortKey. by apply SS_filter. }
  pose proof (sortKey_sorted key l) as Hs. revert Hf Hs. generalize (sortKey key l) as s.
  intros s Hf Hs. induction Hs as [|x s Hs IH Hx]; [constructor|]. constructor.
  - apply IH. intros z. specialize (Hf z). rewrite filter_cons in Hf.
    case_decide; [apply StronglySorted_inv in Hf as [Hf _]|]; exact Hf.
  - apply Forall_forall. intros y Hy. rewrite Forall_forall in Hx. specialize (Hx y Hy).
    unfold geKey in Hx. destruct (Z.eq_dec (key y) (key x)) as [E|E]; [right|left; lia].
    split; [congruence|]. specialize (Hf (key x)). rewrite filter_cons_True in Hf by reflexivity.
    apply StronglySorted_inv in Hf as [_ Hf]. rewrite Forall_forall in Hf. apply Hf.
    apply list_elem_of_filter. split; [exact E|exact Hy].
Qed.

Lemma processOpenings_count total m : Forall (fun r => 2 <= osCount r) (processOpenings total m).
Proof.
  unfold processOpenings. rewrite sortBy_count, sortKey_perm.
  apply Forall_forall. intros r Hr. apply list_elem_of_In, in_map_iff in Hr as (o & <- & Ho).
  apply list_elem_of_In, list_elem_of_filter in Ho as [Ho _]. exact Ho.
Qed.

Lemma processOpenings_sorted total m :
  StronglySorted (fun a b => osCount b <= osCount a) (processOpenings total m).
Proof. unfold processOpenings. rewrite sortBy_count. apply sortKey_sorted. Qed.

Lemma filter_all_count l : Forall (fun r => 2 <= osCount r) l -> filter (fun o => 2 <= osCount o) l = l.
Proof.
  intros Hl. induction Hl as [|x l Hx Hl IH]; [reflexivity|].
  rewrite filter_cons_True by exact Hx. by rewrite IH.
Qed.

Lemma top_worst_of rows :
  Forall integral rows -> Forall (fun r => 2 <= osCount r) rows -> rows <> [] ->
  (processTopOpenings rows).1 = take 3 (sortKey wr rows)
  /\ processWorstOpenings (processTopOpenings rows).2 = take 3 (sortKey (fun r => - wr r) rows).
Proof.
  intros Hi Hc Hne. rewrite worst_after_top by exact Hi.
  destruct rows as [|x rows']; [contradiction|]. unfold processTopOpenings, processWorstOpenings.
  cbn [fst]. rewrite sortBy_desc by exact Hi. rewrite filter_all_count by exact Hc.
  rewrite sortBy_asc by exact Hi. split; reflexivity.
Qed.

Lemma take_split {A} (key : A -> Z) l :
  exists rest, take 3 (sortKey key l) ++ rest ≡ₚ l
    /\ forall t r, In t (take 3 (sortKey key l)) -> In r rest -> key r <= key t.
Proof.
  exists (drop 3 (sortKey key l)). rewrite take_drop. split; [apply sortKey_perm|].
  pose proof (sortKey_sorted key l) as Hs. rewrite <- (take_drop 3 (sortKey key l)) in Hs.
  apply SS_app_inv in Hs as [_ Hs]. exact Hs.
Qed.

Lemma take_lex {A} (key : A -> Z) (R : A -> A -> Prop) l :
  StronglySorted R l ->
  StronglySorted (fun a b => key b < key a \/ (key a = key b /\ R a b)) (take 3 (sortKey key l)).
Proof.
  intros Hl. pose proof (sortKey_lex key R l Hl) as Hs.
  rewrite <- (take_drop 3 (sortKey key l)) in Hs. by apply SS_app_inv in Hs as [Hs _].
Qed.

End OpeningFacts2.

(** For each colour, when no opening was played at least twice both lists
    are the single placeholder row; otherwise [topOpenings] holds the (at
    most) three rows with the highest win rates and [worstOpenings] the
    three with the lowest, each in that order, with equal win rates ordered
    by decreasing game count. *)
Theorem openings_top_and_worst (games : list Game) (u : string) (c : bool) :
  let byColor := foldl (Openings.openingStep u) ([], []) games in
  let rows := Openings.processOpenings (Z.of_nat (length games)) (if c then byColor.1 else byColor.2) in
  let co := (if c then Openings.asWhite else Openings.asBlack) (Openings.generateOpeningStats games u) in
  Forall (fun r => Openings.osWinRate r = JNum (inject_Z (OpeningFacts.wr r)) /\ 2 <= Openings.osCount r) rows
  /\ (rows = [] -> Openings.topOpenings co = Openings.noOpenings /\ Openings.worstOpenings co = Openings.noOpenings)
  /\ (rows <> [] ->
        length (Openings.topOpenings co) = Nat.min 3 (length rows)
        /\ length (Openings.worstOpenings co) = Nat.min 3 (length rows)
        /\ (exists rest, Openings.topOpenings co ++ rest ≡ₚ rows
              /\ forall t r, In t (Openings.topOpenings co) -> In r rest -> OpeningFacts.wr r <= OpeningFacts.wr t)
        /\ (exists rest, Openings.worstOpenings co ++ rest ≡ₚ rows
              /\ forall t r, In t (Openings.worstOpenings co) -> In r rest -> OpeningFacts.wr t <= OpeningFacts.wr r)
        /\ StronglySorted (fun a b => OpeningFacts.wr b < OpeningFacts.wr a
                            \/ (OpeningFacts.wr a = OpeningFacts.wr b /\ Openings.osCount b <= Openings.osCount a))
             (Openings.topOpenings co)
        /\ StronglySorted (fun a b => OpeningFacts.wr a < OpeningFacts.wr b
                            \/ (OpeningFacts.wr a = OpeningFacts.wr b /\ Openings.osCount b <= Openings.osCount a))
             (Openings.worstOpenings co)).
Proof.
  cbv zeta.
  set (W := foldl (Openings.openingStep u) ([], []) games).
  set (T := Z.of_nat (length games)).
  assert (Hco : (if c then Openings.asWhite else Openings.asBlack) (Openings.generateOpeningStats games u)
                = Openings.mkColorOpenings
                    (Openings.processTopOpenings (Openings.processOpenings T (if c then W.1 else W.2))).1
                    (Openings.processWorstOpenings
                       (Openings.processTopOpenings (Openings.processOpenings T (if c then W.1 else W.2))).2)).
  { unfold Openings.generateOpeningStats. fold W T.
    destruct (Openings.processTopOpenings (Openings.processOpenings T W.1)) as [tw w'] eqn:Ew.
    destruct (Openings.processTopOpenings (Openings.processOpenings T W.2)) as [tb b'] eqn:Eb.
    destruct c; cbn; [rewrite Ew|rewrite Eb]; reflexivity. }
  rewrite Hco. cbn [Openings.topOpenings Openings.worstOpenings].
  set (rows := Openings.processOpenings T (if c then W.1 else W.2)).
  pose proof (OpeningFacts.processOpenings_integral T (if c then W.1 else W.2)) as Hi. fold rows in Hi.
  pose proof (OpeningFacts2.processOpenings_count T (if c then W.1 else W.2)) as Hc. fold rows in Hc.
  pose proof (OpeningFacts2.processOpenings_sorted T (if c then W.1 else W.2)) as Hs. fold rows in Hs.
  split.
  { apply Forall_forall. intros r Hr. rewrite Forall_forall in Hi, Hc. split; [apply Hi|apply Hc]; exact Hr. }
  split.
  { intros Hnil. rewrite Hnil. split; reflexivity. }
  intros Hne. destruct (OpeningFacts2.top_worst_of rows Hi Hc Hne) as [Ht Hw].
  rewrite Ht, Hw. rewrite !length_take, !(Permutation_length (KeySort.sortKey_perm _ rows)).
  split; [reflexivity|]. split; [reflexivity|].
  split; [apply OpeningFacts2.take_split|].
  split.
  { destruct (OpeningFacts2.take_split (fun r => - OpeningFacts.wr r) rows) as (rest & Hp & Ho).
    exists rest. split; [exact Hp|]. intros t r Ht' Hr. specialize (Ho t r Ht' Hr). cbv beta in Ho. lia. }
  split; [exact (OpeningFacts2.take_lex OpeningFacts.wr _ rows Hs)|].
  eapply OpeningFacts2.SS_impl; [|exact (OpeningFacts2.take_lex (fun r => - OpeningFacts.wr r) _ rows Hs)].
  cbv beta. intros a b [H|[H1 H2]]; [left; lia|right; split; [lia|exact H2]].
Qed.

Module OpeningFacts3.
Import Openings.

Section Agg.
Variable u : string.

(** The subject's result code in a game. *)
Definition playerResult (g : Game) : string :=
  if isWhite u g then result (white g) else result (black g).

(** The games the subject played with colour [c] ([true] for White) under
    the opening name [k]. *)
Definition openingGames (c : bool) (k : string) (games : list Game) : list Game :=
  filter (fun g => isWhite u g = c /\ fullOpeningName (pgn g) = k) games.

Definition openingSpec (c : bool) (k : string) (games : list Game) : option OpeningData :=
  match openingGames c k games with
  | [] => None
  | gs => Some (mkOpeningData k (Z.of_nat (length gs))
                  (Z.of_nat (length (filter (fun g => playerResult g = "win") gs))))
  end.

Definition colorMap (c : bool) (st : ByColor) : list (string * OpeningData) :=
  if c then st.1 else st.2.

Lemma openingGames_snoc c k l g :
  openingGames c k (l ++ [g])
  = openingGames c k l ++ (if decide (isWhite u g = c /\ fullOpeningName (pgn g) = k) then [g] else []).
Proof. unfold openingGames. rewrite filter_app, filter_cons, filter_nil. by case_decide. Qed.

Lemma openings_loop games :
  forall c, NoDup (map fst (colorMap c (foldl (openingStep u) ([], []) games)))
            /\ forall k, mapGet (colorMap c (foldl (openingStep u) ([], []) games)) k = openingSpec c k games.
Proof.
  induction games as [|g l IH] using rev_ind; intros c.
  - split; [destruct c; constructor|]. intros k. destruct c; reflexivity.
  - rewrite foldl_app. cbn [foldl]. destruct (IH c) as [Hnd Hget].
    set (st := foldl (openingStep u) ([], []) l) in *.
    set (n := fullOpeningName (pgn g)).
    assert (Hst : colorMap c (openingStep u st g)
                  = if Bool.eqb (isWhite u g) c
                    then mapSet (colorMap c st) n
                           (let od := default (mkOpeningData n 0 0) (mapGet (colorMap c st) n) in
                            mkOpeningData (odName od) (odCount od + 1)
                              (if String.eqb (playerResult g) "win" then odWins od + 1 else odWins od))
                    else colorMap c st).
    { unfold openingStep, colorMap, playerResult. fold n.
      destruct (isWhite u g), c; reflexivity. }
    rewrite Hst. destruct (Bool.eqb_spec (isWhite u g) c) as [Hc|Hc].
    + split; [by apply OpponentFacts2.NoDup_mapSet|]. intros k.
      rewrite OpponentFacts.mapGet_mapSet. unfold openingSpec. rewrite openingGames_snoc.
      destruct (String.eqb_spec n k) as [<-|Hne].
      * rewrite decide_True by (split; [exact Hc|reflexivity]).
        rewrite Hget. unfold openingSpec.
        destruct (openingGames c n l) as [|g' gs]; cbn [default id odName odCount odWins].
        { cbn [app]. rewrite filter_cons, filter_nil.
          destruct (String.eqb_spec (playerResult g) "win"); case_decide; try contradiction;
            reflexivity. }
        { cbn [app]. rewrite app_comm_cons, filter_app, !length_app.
          rewrite (filter_cons _ g []), filter_nil.
          destruct (String.eqb_spec (playerResult g) "win"); case_decide; try contradiction;
            cbn [length]; f_equal; f_equal; lia. }
      * rewrite decide_False by (intros [_ E]; contradiction). rewrite app_nil_r. rewrite Hget. reflexivity.
    + split; [exact Hnd|]. intros k. unfold openingSpec. rewrite openingGames_snoc.
      rewrite decide_False by (intros [E _]; contradiction). rewrite app_nil_r. apply Hget.
Qed.

Lemma NoDup_map_filter {A B} (h : A -> B) (P : A -> Prop) `{forall x, Decision (P x)} l :
  NoDup (map h l) -> NoDup (map h (filter P l)).
Proof.
  induction l as [|x l IH]; [rewrite filter_nil; by constructor|].
  cbn [map]. intros Hnd. apply NoDup_cons in Hnd as [Hx Hnd]. rewrite filter_cons.
  case_decide; cbn [map]; [|by apply IH]. constructor; [|by apply IH].
  intros Hin. apply Hx. apply list_elem_of_In in Hin. apply list_elem_of_In.
  apply in_map_iff in Hin as (y & Hy & Hin). apply in_map_iff. exists y. split; [exact Hy|].
  apply list_elem_of_In in Hin. apply list_elem_of_filter in Hin as [_ Hin]. by apply list_elem_of_In.
Qed.

Lemma names_keys (m : list (string * OpeningData)) :
  Forall (fun e => odName e.2 = e.1) m -> map odName (mapValues m) = map fst m.
Proof.
  induction m as [|[k v] m IH]; cbn; [reflexivity|]. intros Hf. apply Forall_cons in Hf as [Hk Hf].
  cbn in Hk. rewrite Hk. f_equal. by apply IH.
Qed.

End Agg.

End OpeningFacts3.

(** generateOpeningStats, aggregation: for each colour the map built over
    the games has one entry per opening name, holding the number of games
    the subject played with that colour under that name and how many of
    them the subject won; the rows given to the top and worst lists are
    exactly the openings played at least twice, one row per name, each
    with its game count, its rounded win percentage and its rounded share
    of all the games. *)
Theorem openings_aggregate (games : list Game) (u : string) (c : bool) :
  let byColor := foldl (Openings.openingStep u) ([], []) games in
  let m := if c then byColor.1 else byColor.2 in
  let rows := Openings.processOpenings (Z.of_nat (length games)) m in
  NoDup (map fst m)
  /\ (forall k, mapGet m k = OpeningFacts3.openingSpec u c k games)
  /\ NoDup (map Openings.osName rows)
  /\ (forall r, In r rows <->
        exists k, let gs := OpeningFacts3.openingGames u c k games in
          (2 <= length gs)%nat
          /\ r = Openings.mkOpeningStat k (Z.of_nat (length gs))
                   (percent (Z.of_nat (length (filter (fun g => OpeningFacts3.playerResult u g = "win") gs)))
                            (Z.of_nat (length gs)))
                   (percent (Z.of_nat (length gs)) (Z.of_nat (length games)))).
Proof.
  cbv zeta. destruct (OpeningFacts3.openings_loop u games c) as [Hnd Hget].
  change (if c then _ else _) with (OpeningFacts3.colorMap c (foldl (Openings.openingStep u) ([], []) games)).
  set (m := OpeningFacts3.colorMap c _) in *.
  assert (Hnames : Forall (fun e => Openings.odName e.2 = e.1) m).
  { apply Forall_forall. intros [k v] Hin. apply list_elem_of_In in Hin. cbn.
    pose proof (OpponentFacts2.In_mapGet m k v Hnd Hin) as E. rewrite Hget in E.
    unfold OpeningFacts3.openingSpec in E. destruct (OpeningFacts3.openingGames u c k games); [discriminate|].
    injection E as <-. reflexivity. }
  split; [exact Hnd|]. split; [exact Hget|].
  unfold Openings.processOpenings. rewrite OpeningFacts.sortBy_count. split.
  - apply NoDup_ListNoDup.
    eapply Permutation_NoDup; [apply Permutation_map; symmetry; apply KeySort.sortKey_perm|].
    apply NoDup_ListNoDup. rewrite map_map. cbn [Openings.osName].
    apply OpeningFacts3.NoDup_map_filter. rewrite OpeningFacts3.names_keys by exact Hnames. exact Hnd.
  - intros r. split.
    + intros Hin. apply (Permutation_in _ (KeySort.sortKey_perm _ _)) in Hin.
      apply in_map_iff in Hin as (o & <- & Hin). apply list_elem_of_In, list_elem_of_filter in Hin as [H2 Hin].
      apply list_elem_of_In in Hin. unfold mapValues in Hin. apply in_map_iff in Hin as ([k v] & <- & Hin).
      pose proof (OpponentFacts2.In_mapGet m k v Hnd Hin) as E. rewrite Hget in E. cbn [snd] in *.
      exists k. cbv zeta. unfold OpeningFacts3.openingSpec in E.
      destruct (OpeningFacts3.openingGames u c k games) as [|g gs]; [discriminate|].
      injection E as <-. cbn [Openings.odCount Openings.odName Openings.odWins length] in *. split; [lia|reflexivity].
    + intros (k & H2 & ->). apply (Permutation_in _ (symmetry (KeySort.sortKey_perm _ _))).
      assert (E : mapGet m k = Some (Openings.mkOpeningData k
                    (Z.of_nat (length (OpeningFacts3.openingGames u c k games)))
                    (Z.of_nat (length (filter (fun g => OpeningFacts3.playerResult u g = "win")
                                        (OpeningFacts3.openingGames u c k games)))))).
      { rewrite Hget. unfold OpeningFacts3.openingSpec.
        destruct (OpeningFacts3.openingGames u c k games); [cbn in H2; lia|reflexivity]. }
      apply OpponentFacts2.mapGet_In in E.
      apply in_map_iff. eexists; split; [|].
      2:{ apply list_elem_of_In, list_elem_of_filter. split.
          2:{ apply list_elem_of_In. unfold mapValues. apply in_map_iff. eexists; split; [|exact E].
              reflexivity. }
          cbn [snd Openings.odCount]; lia. }
      reflexivity.
Qed.

Module PgnFacts.
Import Openings.
Local Open Scope string_scope.

(** Every character of [s] satisfies [f]. *)
Fixpoint allChars (f : ascii -> bool) (s : string) : bool :=
  match s with
  | EmptyString => true
  | String c s' => f c && allChars f s'
  end.

(** A character the lazy group [(.*?)] can take before the closing text. *)
Definition plainChar (c : ascii) : bool := negb (Ascii.eqb c dquote) && negb (isLineTerminator c).

Definition notChar (d c : ascii) : bool := negb (Ascii.eqb c d).

(** [t] is empty or starts with a bracket. *)
Definition bracketNext (t : string) : bool :=
  match t with EmptyString => true | String c _ => Ascii.eqb c "[" end.

Lemma append_String c s r : String c s ++ r = String c (s ++ r).
Proof. reflexivity. Qed.

Lemma append_Empty r : "" ++ r = r.
Proof. reflexivity. Qed.

Ltac app_norm := rewrite ?append_String, ?append_Empty in *.

Lemma startsWith_app p r : startsWith p (p ++ r) = true.
Proof. induction p as [|c p IH]; [by destruct r|]. change (String c p ++ r)%string with (String c (p ++ r)). cbn [startsWith]. by rewrite Ascii.eqb_refl, IH. Qed.

Lemma dropN_app p r : dropN (String.length p) (p ++ r) = r.
Proof. induction p as [|c p IH]; (app_norm; cbn [dropN String.length]); [reflexivity|]. exact IH. Qed.

Lemma regexGroup_skip open c s :
  startsWith open (String c s) = false -> regexGroup open (String c s) = regexGroup open s.
Proof. intros H. cbn [regexGroup]. rewrite H. reflexivity. Qed.

Lemma regexGroup_hit open s g :
  startsWith open s = true -> lazyGroup (dropN (String.length open) s) = Some g -> regexGroup open s = Some g.
Proof. intros H1 H2. destruct s; cbn [regexGroup]; rewrite H1, H2; reflexivity. Qed.

Lemma lazyGroup_app e r :
  allChars plainChar e = true -> lazyGroup (e ++ tagClose ++ r) = Some e.
Proof.
  induction e as [|c e IH]; cbn [allChars]; intros H.
  - app_norm. destruct (tagClose ++ r) eqn:E; [discriminate|].
    cbn [lazyGroup]. rewrite <- E, startsWith_app. reflexivity.
  - apply andb_true_iff in H as [Hc He]. unfold plainChar in Hc.
    apply andb_true_iff in Hc as [Hq Ht]. apply negb_true_iff in Hq, Ht.
    (app_norm; cbn [lazyGroup]). unfold tagClose at 1. cbn [startsWith]. rewrite Ascii.eqb_sym, Hq, Ht.
    cbn [andb]. rewrite IH by exact He. reflexivity.
Qed.

Lemma skip_noBracket open' p t :
  allChars (notChar "[") p = true -> regexGroup (String "[" open') (p ++ t) = regexGroup (String "[" open') t.
Proof.
  induction p as [|c p IH]; (app_norm; cbn [allChars]); [reflexivity|]. intros H.
  apply andb_true_iff in H as [Hc Hp]. unfold notChar in Hc. apply negb_true_iff in Hc.
  rewrite regexGroup_skip; [by apply IH|]. cbn [startsWith]. rewrite Ascii.eqb_sym, Hc. reflexivity.
Qed.

Lemma startsWith_ECO o c p t :
  startsWith "[ECO" (String c p) = false -> bracketNext t = true ->
  startsWith ("[ECO" ++ o) (String c p ++ t) = false.
Proof.
  intros H Ht. (app_norm; cbn [startsWith] in *).
  destruct (Ascii.eqb "[" c); cbn [andb] in *; [|reflexivity].
  destruct p as [|c1 p]; (app_norm; cbn [startsWith] in *).
  { destruct t as [|d t]; [reflexivity|]. cbn [bracketNext] in Ht.
    apply Ascii.eqb_eq in Ht as ->. reflexivity. }
  destruct (Ascii.eqb "E" c1); cbn [andb] in *; [|reflexivity].
  destruct p as [|c2 p]; (app_norm; cbn [startsWith] in *).
  { destruct t as [|d t]; [reflexivity|]. cbn [bracketNext] in Ht.
    apply Ascii.eqb_eq in Ht as ->. reflexivity. }
  destruct (Ascii.eqb "C" c2); cbn [andb] in *; [|reflexivity].
  destruct p as [|c3 p]; (app_norm; cbn [startsWith] in *).
  { destruct t as [|d t]; [reflexivity|]. cbn [bracketNext] in Ht.
    apply Ascii.eqb_eq in Ht as ->. reflexivity. }
  destruct (Ascii.eqb "O" c3); cbn [andb] in *; [discriminate|reflexivity].
Qed.

Lemma skip_noECO o p t :
  includes p "[ECO" = false -> bracketNext t = true ->
  regexGroup ("[ECO" ++ o) (p ++ t) = regexGroup ("[ECO" ++ o) t.
Proof.
  induction p as [|c p IH]; [reflexivity|]. intros H Ht.
  cbn [includes] in H. apply orb_false_iff in H as [H1 H2].
  app_norm. rewrite regexGroup_skip; [by apply IH|].
  change (String c (p ++ t)) with (String c p ++ t). by apply startsWith_ECO.
Qed.

Lemma allChars_app f a b : allChars f (a ++ b) = allChars f a && allChars f b.
Proof. induction a as [|c a IH]; (app_norm; cbn [allChars]); [reflexivity|]. by rewrite IH, andb_assoc. Qed.

Lemma splitOn_noSep sep b : allChars (notChar sep) b = true -> splitOn sep b = [b].
Proof.
  induction b as [|c b IH]; cbn [allChars splitOn]; [reflexivity|]. intros H.
  apply andb_true_iff in H as [Hc Hb]. unfold notChar in Hc. apply negb_true_iff in Hc.
  rewrite Hc, IH by exact Hb. reflexivity.
Qed.

Lemma splitOn_app sep a b : exists w ws, splitOn sep (a ++ String sep b) = w :: ws ++ splitOn sep b.
Proof.
  induction a as [|c a IH]; (app_norm; cbn [splitOn]).
  - rewrite Ascii.eqb_refl. by exists EmptyString, [].
  - destruct IH as (w & ws & ->). destruct (Ascii.eqb c sep).
    + by exists EmptyString, (w :: ws).
    + by exists (String c w), ws.
Qed.

Lemma lastSegment_app a b :
  allChars (notChar "/") b = true -> lastSegment (a ++ String "/" b) = b.
Proof.
  intros Hb. unfold lastSegment. destruct (splitOn_app "/" a b) as (w & ws & ->).
  rewrite splitOn_noSep by exact Hb. rewrite app_comm_cons, last_app. reflexivity.
Qed.

Lemma ecoAndName_nonempty pgn :
  pgn <> EmptyString ->
  ecoAndName pgn =
    (default "Unknown" (regexGroup ecoOpen pgn),
     match regexGroup ecoUrlOpen pgn with
     | Some u => replaceDashes (lastSegment u)
     | None => "Unknown"
     end).
Proof. destruct pgn; [contradiction|reflexivity]. Qed.

End PgnFacts.

(** generateOpeningStats, reading the PGN header: for a header that holds
    an ECO tag with value [e] and, later, an ECOUrl tag with value [url]
    ending in a path segment [b], where the text [\[ECO] occurs neither
    before the first tag nor between the two, the code [e] holds no
    bracket, and neither [e] nor [url] holds a double quote or a line
    terminator, the opening is recorded under [e], a dash separator, and
    [b] with its dashes turned into spaces. *)
Theorem fullOpeningName_of_header pre e mid a b rest :
  includes pre "[ECO" = false ->
  PgnFacts.allChars PgnFacts.plainChar e = true ->
  PgnFacts.allChars (PgnFacts.notChar "[") e = true ->
  includes mid "[ECO" = false ->
  PgnFacts.allChars PgnFacts.plainChar a = true ->
  PgnFacts.allChars PgnFacts.plainChar b = true ->
  PgnFacts.allChars (PgnFacts.notChar "/") b = true ->
  Openings.fullOpeningName
    (pre ++ Openings.ecoOpen ++ e ++ Openings.tagClose ++ mid ++ Openings.ecoUrlOpen
         ++ (a ++ String "/" b) ++ Openings.tagClose ++ rest)%string
  = (e ++ " - " ++ Openings.replaceDashes b)%string.
Proof.
  intros Hpre He1 He2 Hmid Ha Hb1 Hb2.
  set (url := (a ++ String "/" b)%string).
  set (T := (mid ++ Openings.ecoUrlOpen ++ url ++ Openings.tagClose ++ rest)%string).
  set (pgn := (pre ++ Openings.ecoOpen ++ e ++ Openings.tagClose ++ T)%string).
  assert (Heco : Openings.regexGroup Openings.ecoOpen pgn = Some e).
  { etransitivity.
    { apply (PgnFacts.skip_noECO (" " ++ String Openings.dquote EmptyString)%string pre); [exact Hpre|reflexivity]. }
    apply PgnFacts.regexGroup_hit; [apply PgnFacts.startsWith_app|].
    rewrite PgnFacts.dropN_app. by apply PgnFacts.lazyGroup_app. }
  assert (Hurl : Openings.regexGroup Openings.ecoUrlOpen pgn = Some url).
  { etransitivity.
    { apply (PgnFacts.skip_noECO ("Url " ++ String Openings.dquote EmptyString)%string pre); [exact Hpre|reflexivity]. }
    etransitivity.
    { apply (PgnFacts.regexGroup_skip _ "[" ("ECO " ++ String Openings.dquote (e ++ Openings.tagClose ++ T))%string).
      reflexivity. }
    etransitivity.
    { apply (PgnFacts.skip_noBracket ("ECOUrl " ++ String Openings.dquote EmptyString)%string
               ("ECO " ++ String Openings.dquote EmptyString)%string (e ++ Openings.tagClose ++ T)%string).
      reflexivity. }
    etransitivity.
    { apply (PgnFacts.skip_noBracket ("ECOUrl " ++ String Openings.dquote EmptyString)%string e (Openings.tagClose ++ T)%string).
      exact He2. }
    etransitivity.
    { apply (PgnFacts.skip_noBracket ("ECOUrl " ++ String Openings.dquote EmptyString)%string Openings.tagClose T).
      reflexivity. }
    etransitivity.
    { apply (PgnFacts.skip_noECO ("Url " ++ String Openings.dquote EmptyString)%string mid); [exact Hmid|reflexivity]. }
    apply PgnFacts.regexGroup_hit; [apply PgnFacts.startsWith_app|].
    rewrite PgnFacts.dropN_app. apply PgnFacts.lazyGroup_app.
    unfold url. rewrite PgnFacts.allChars_app. cbn [PgnFacts.allChars]. rewrite Ha, Hb1. reflexivity. }
  unfold Openings.fullOpeningName.
  rewrite PgnFacts.ecoAndName_nonempty by (unfold pgn; destruct pre; discriminate).
  rewrite Heco, Hurl. cbn [default]. unfold url. rewrite PgnFacts.lastSegment_app by exact Hb2.
  reflexivity.
Qed.

Lemma fullOpeningName_of_header_witness :
  Openings.fullOpeningName
    ("[Site " ++ String Openings.dquote ("Chess.com" ++ String Openings.dquote ("]" ++ String "010" EmptyString))
     ++ Openings.ecoOpen ++ "B20" ++ Openings.tagClose ++ String "010" EmptyString ++ Openings.ecoUrlOpen
     ++ ("https://www.chess.com/openings" ++ String "/" "Sicilian-Defense-2.Nc3")
     ++ Openings.tagClose ++ String "010" "1. e4 c5")%string
  = "B20 - Sicilian Defense 2.Nc3"%string.
Proof.
  apply (fullOpeningName_of_header
           ("[Site " ++ String Openings.dquote ("Chess.com" ++ String Openings.dquote ("]" ++ String "010" EmptyString)))%string
           "B20" (String "010" EmptyString) "https://www.chess.com/openings" "Sicilian-Defense-2.Nc3"
           (String "010" "1. e4 c5")); reflexivity.
Defined.


Module OppSelectFacts.
Import OpponentStats OpponentSelect.

(** [T] is what [sort(compare).slice(0, 3)] keeps of [S] when [compare]
    orders by decreasing [key]: at most three elements, in decreasing
    [key] order, none of them below an element left out. *)
Definition topThreeBy {A} (key : A -> Q) (T S : list A) : Prop :=
  (exists rest, T ++ rest ≡ₚ S /\ forall t r, In t T -> In r rest -> (key r <= key t)%Q)
  /\ length T = Nat.min 3 (length S)
  /\ StronglySorted (fun a b => (key b <= key a)%Q) T.

Section Sort.
Context {A : Type} (c : A -> A -> jsnum) (P : A -> Prop) (key : A -> Q).
Hypothesis Hkey : forall x y, P x -> P y -> js_gt (c x y) 0 = true <-> (key x < key y)%Q.

Lemma insertBy_perm x l : Openings.insertBy c x l ≡ₚ x :: l.
Proof.
  induction l as [|y l IH]; cbn [Openings.insertBy]; [reflexivity|].
  destruct (js_gt (c x y) 0); [|reflexivity]. rewrite IH. apply perm_swap.
Qed.

Lemma sortBy_perm l : Openings.sortBy c l ≡ₚ l.
Proof.
  induction l as [|x l IH]; cbn [Openings.sortBy]; [reflexivity|]. by rewrite insertBy_perm, IH.
Qed.

Lemma js_gt_false x y : P x -> P y -> js_gt (c x y) 0 = false <-> (key y <= key x)%Q.
Proof.
  intros Hx Hy. split.
  - intros H. apply Qnot_lt_le. intros Hlt. apply (Hkey x y Hx Hy) in Hlt. congruence.
  - intros H. apply not_true_iff_false. intros Ht. apply (Hkey x y Hx Hy) in Ht.
    apply (Qlt_not_le _ _ Ht), H.
Qed.

Lemma insertBy_sorted x l :
  P x -> Forall P l -> StronglySorted (fun a b => (key b <= key a)%Q) l ->
  StronglySorted (fun a b => (key b <= key a)%Q) (Openings.insertBy c x l).
Proof.
  intros Hx. induction l as [|y l IH]; intros Hl Hs; cbn [Openings.insertBy].
  { repeat constructor. }
  apply Forall_cons in Hl as [Hy Hl]. apply StronglySorted_inv in Hs as [Hs Hys].
  destruct (js_gt (c x y) 0) eqn:E.
  - apply (Hkey x y Hx Hy) in E. constructor; [by apply IH|].
    rewrite insertBy_perm. constructor; [apply Qlt_le_weak, E|exact Hys].
  - apply (js_gt_false x y Hx Hy) in E. constructor; [by constructor|].
    constructor; [exact E|]. eapply Forall_impl; [exact Hys|]. intros z Hz. exact (Qle_trans _ _ _ Hz E).
Qed.

Lemma sortBy_sorted l : Forall P l -> StronglySorted (fun a b => (key b <= key a)%Q) (Openings.sortBy c l).
Proof.
  induction l as [|x l IH]; intros Hl; cbn [Openings.sortBy]; [constructor|].
  apply Forall_cons in Hl as [Hx Hl]. apply insertBy_sorted; [exact Hx| |by apply IH].
  by rewrite sortBy_perm.
Qed.

Lemma take3_sortBy L S :
  L ≡ₚ S -> Forall P S -> topThreeBy key (take 3 (Openings.sortBy c L)) S.
Proof.
  intros HLS HP. assert (HL : Forall P L) by (by rewrite HLS).
  pose proof (sortBy_sorted L HL) as Hs.
  rewrite <- (take_drop 3 (Openings.sortBy c L)) in Hs. apply OpeningFacts2.SS_app_inv in Hs as [Hs Hsplit].
  split; [|split].
  - exists (drop 3 (Openings.sortBy c L)). rewrite take_drop, sortBy_perm. split; [exact HLS|].
    intros t r Ht Hr. exact (Hsplit t r Ht Hr).
  - rewrite length_take, (Permutation_length (sortBy_perm L)), (Permutation_length HLS). lia.
  - exact Hs.
Qed.

End Sort.

(** Win and loss fractions, and the game and loss counts, as rationals. *)
Definition winFraction (e : Entry) : Q := (inject_Z (wins e.2) / inject_Z (games e.2))%Q.
Definition lossFraction (e : Entry) : Q := (inject_Z (losses e.2) / inject_Z (games e.2))%Q.
Definition gameCount (e : Entry) : Q := inject_Z (games e.2).
Definition lossCount (e : Entry) : Q := inject_Z (losses e.2).

Definition played (e : Entry) : Prop := 1 <= games e.2.

Lemma js_gt_sub (a b : Q) : js_gt (JNum (a - b)) 0 = true <-> (b < a)%Q.
Proof.
  cbn [js_gt]. rewrite negb_true_iff, <- not_true_iff_false, Qle_bool_iff. split.
  - intros H. apply Qnot_le_lt. intros Hle. apply H. lra.
  - intros H Hle. lra.
Qed.

Lemma js_div_pos a b : 1 <= b -> js_div a b = JNum (inject_Z a / inject_Z b).
Proof. intros Hb. unfold js_div. rewrite (proj2 (Z.eqb_neq b 0)) by lia. reflexivity. Qed.

Lemma byGamesDesc_key x y : js_gt (byGamesDesc x y) 0 = true <-> (gameCount x < gameCount y)%Q.
Proof. unfold byGamesDesc, gameCount. rewrite OpeningFacts.inject_Z_sub. apply js_gt_sub. Qed.

Lemma byWinRateDesc_key x y : played x -> played y ->
  js_gt (byWinRateDesc x y) 0 = true <-> (winFraction x < winFraction y)%Q.
Proof.
  unfold played, byWinRateDesc, winFraction. intros Hx Hy.
  rewrite !js_div_pos by assumption. apply js_gt_sub.
Qed.

Lemma byLossRateDesc_key x y : played x -> played y ->
  js_gt (byLossRateDesc x y) 0 = true <-> (lossFraction x < lossFraction y)%Q.
Proof.
  unfold played, byLossRateDesc, lossFraction. intros Hx Hy.
  rewrite !js_div_pos by assumption. apply js_gt_sub.
Qed.

Lemma byLossFormat_key x y : played x -> played y ->
  js_gt (byLossFormat x y) 0 = true <-> (lossCount x < lossCount y)%Q.
Proof.
  unfold played, byLossFormat, lossCount. intros Hx Hy.
  rewrite !js_div_pos by assumption. cbn [Openings.js_sub]. rewrite js_gt_sub.
  assert (Hg : (0 < inject_Z (games y.2))%Q) by (change 0%Q with (inject_Z 0); rewrite <- Zlt_Qlt; lia).
  set (g := inject_Z (games y.2)) in *. set (a := inject_Z (losses x.2)). set (b := inject_Z (losses y.2)).
  split; intros H.
  - apply (Qmult_lt_r _ _ (/ g)); [apply Qinv_lt_0_compat, Hg|]. exact H.
  - apply (Qmult_lt_r _ _ (/ g)) in H; [exact H|apply Qinv_lt_0_compat, Hg].
Qed.

Lemma select_spec total lossCompare lossKey S0 :
  Forall played S0 ->
  (forall x y, played x -> played y -> js_gt (lossCompare x y) 0 = true <-> (lossKey x < lossKey y)%Q) ->
  let '(sel, s3) := select total lossCompare S0 in
  s3 ≡ₚ S0
  /\ (exists T, mostPlayed sel = map (processOpponent total) T /\ topThreeBy gameCount T S0)
  /\ (exists T, bestPerformance sel = map processPerformance T /\ topThreeBy winFraction T S0)
  /\ (exists T, worstPerformance sel = map processPerformance T /\ topThreeBy lossKey T S0).
Proof.
  intros HP Hloss. unfold select.
  assert (P1 : Openings.sortBy byGamesDesc S0 ≡ₚ S0) by apply sortBy_perm.
  assert (P2 : Openings.sortBy byWinRateDesc (Openings.sortBy byGamesDesc S0) ≡ₚ S0)
    by (rewrite sortBy_perm; exact P1).
  split; [by rewrite sortBy_perm|]. split; [|split].
  - eexists; split; [reflexivity|]. apply (take3_sortBy byGamesDesc (fun _ => True)); [|reflexivity|].
    + intros x y _ _. apply byGamesDesc_key.
    + by apply Forall_true.
  - eexists; split; [reflexivity|]. apply (take3_sortBy byWinRateDesc played); [|exact P1|exact HP].
    apply byWinRateDesc_key.
  - eexists; split; [reflexivity|]. apply (take3_sortBy lossCompare played); [exact Hloss|exact P2|exact HP].
Qed.

Lemma sortedOpponents_played gs u : Forall played (sortedOpponents gs u).
Proof.
  unfold sortedOpponents. apply Forall_forall. intros e He. apply list_elem_of_filter in He as [He _]. exact He.
Qed.

Lemma sortedOpponents_nil gs u : sortedOpponents gs u = [] <-> gs = [].
Proof.
  split; [|intros ->; reflexivity].
  intros H. destruct gs as [|g gs]; [reflexivity|]. exfalso.
  set (o := username (opponent u g)).
  pose proof (OpponentFacts.counts_snoc u o (g :: gs)) as Hc. cbv zeta in Hc.
  rewrite decide_False in Hc.
  2:{ rewrite filter_cons_True by reflexivity. discriminate. }
  destruct (mapGet (opponentStats (g :: gs) u) o) as [s|] eqn:E; [|discriminate].
  injection Hc as Hg _ _. apply OpponentFacts2.mapGet_In in E.
  assert (Hin : (o, s) ∈ sortedOpponents (g :: gs) u).
  { unfold sortedOpponents. apply list_elem_of_filter. split.
    - cbn [snd]. rewrite Hg. rewrite filter_cons_True by reflexivity. cbn [length]. lia.
    - by apply list_elem_of_In. }
  rewrite H in Hin. inversion Hin.
Qed.

Lemma topThreeBy_perm {A} (key : A -> Q) T S S' : S ≡ₚ S' -> topThreeBy key T S -> topThreeBy key T S'.
Proof.
  intros HS ((rest & Hp & Hr) & Hl & Hs). split; [|split].
  - exists rest. split; [by rewrite <- HS|exact Hr].
  - by rewrite <- (Permutation_length HS).
  - exact Hs.
Qed.

Lemma topThreeBy_nonempty {A} (key : A -> Q) T S : S <> [] -> topThreeBy key T S -> T <> [].
Proof.
  intros HS (_ & Hl & _) ->. destruct S; [contradiction|]. cbn in Hl. lia.
Qed.

Lemma orDefault_nonempty {B} (l : list B) d : l <> [] -> orDefault l d = l.
Proof. destruct l; [contradiction|reflexivity]. Qed.

End OppSelectFacts.

(** generateOpponentStats, overall selection: with no games the three
    lists are the single placeholder rows; otherwise [mostPlayed] holds
    the (at most three) opponents with the most games, [bestPerformance]
    those with the highest win fraction and [worstPerformance] those with
    the highest loss fraction, each in that order and none below an
    opponent left out, even though the three sorts reorder one shared
    array in turn. *)
Theorem opponents_overall_selection (gs : list Game) (u : string) :
  let S0 := OpponentStats.sortedOpponents gs u in
  let total := Z.of_nat (length gs) in
  let sel := OpponentSelect.overall (OpponentSelect.generateOpponentSelection gs u) in
  (gs = [] -> sel = OpponentSelect.mkSelection [OpponentSelect.defaultOpponent]
                      [OpponentSelect.defaultPerformance] [OpponentSelect.defaultPerformance])
  /\ (gs <> [] ->
        (exists T, OpponentSelect.mostPlayed sel = map (OpponentStats.processOpponent total) T
                   /\ OppSelectFacts.topThreeBy OppSelectFacts.gameCount T S0)
        /\ (exists T, OpponentSelect.bestPerformance sel = map OpponentSelect.processPerformance T
                   /\ OppSelectFacts.topThreeBy OppSelectFacts.winFraction T S0)
        /\ (exists T, OpponentSelect.worstPerformance sel = map OpponentSelect.processPerformance T
                   /\ OppSelectFacts.topThreeBy OppSelectFacts.lossFraction T S0)).
Proof.
  cbv zeta. split.
  - intros ->. reflexivity.
  - intros Hgs. assert (HS : OpponentStats.sortedOpponents gs u <> [])
      by (rewrite OppSelectFacts.sortedOpponents_nil; exact Hgs).
    pose proof (OppSelectFacts.select_spec (Z.of_nat (length gs)) OpponentSelect.byLossRateDesc
                  OppSelectFacts.lossFraction (OpponentStats.sortedOpponents gs u)
                  (OppSelectFacts.sortedOpponents_played gs u) OppSelectFacts.byLossRateDesc_key) as H.
    unfold OpponentSelect.generateOpponentSelection.
    destruct (OpponentSelect.select _ _ _) as [sel s3].
    destruct H as (_ & (T1 & E1 & H1) & (T2 & E2 & H2) & (T3 & E3 & H3)).
    cbn [OpponentSelect.overall OpponentSelect.mostPlayed OpponentSelect.bestPerformance
         OpponentSelect.worstPerformance].
    rewrite E1, E2, E3.
    rewrite !OppSelectFacts.orDefault_nonempty
      by (intros Hm; apply map_eq_nil in Hm; revert Hm;
          eapply OppSelectFacts.topThreeBy_nonempty; [exact HS|eassumption]).
    split; [|split]; eexists; (split; [reflexivity|eassumption]).
Qed.

(** generateOpponentStats, selection per format: with no opponent of the
    format the three lists are the single placeholder rows; otherwise
    [mostPlayed] holds the (at most three) opponents of the format with
    the most games and [bestPerformance] those with the highest win
    fraction, while [worstPerformance], whose comparator divides both
    loss counts by the same [b.games], holds those with the most losses,
    not the highest loss fraction. *)
Theorem opponents_format_selection (gs : list Game) (u : string) (f : TimeClass) :
  let S0 := filter (fun e => OpponentStats.format e.2 = f) (OpponentStats.sortedOpponents gs u) in
  let total := Z.of_nat (length gs) in
  let sel := OpponentSelect.byFormat (OpponentSelect.generateOpponentSelection gs u) f in
  (S0 = [] -> sel = OpponentSelect.mkSelection [OpponentSelect.defaultOpponent]
                      [OpponentSelect.defaultPerformance] [OpponentSelect.defaultPerformance])
  /\ (S0 <> [] ->
        (exists T, OpponentSelect.mostPlayed sel = map (OpponentStats.processOpponent total) T
                   /\ OppSelectFacts.topThreeBy OppSelectFacts.gameCount T S0)
        /\ (exists T, OpponentSelect.bestPerformance sel = map OpponentSelect.processPerformance T
                   /\ OppSelectFacts.topThreeBy OppSelectFacts.winFraction T S0)
        /\ (exists T, OpponentSelect.worstPerformance sel = map OpponentSelect.processPerformance T
                   /\ OppSelectFacts.topThreeBy OppSelectFacts.lossCount T S0)).
Proof.
  cbv zeta.
  pose proof (OppSelectFacts.select_spec (Z.of_nat (length gs)) OpponentSelect.byLossRateDesc
                OppSelectFacts.lossFraction (OpponentStats.sortedOpponents gs u)
                (OppSelectFacts.sortedOpponents_played gs u) OppSelectFacts.byLossRateDesc_key) as H.
  unfold OpponentSelect.generateOpponentSelection.
  destruct (OpponentSelect.select _ _ _) as [sel s3].
  destruct H as (Hp & _). cbn [OpponentSelect.byFormat]. unfold OpponentSelect.formatSelection.
  set (S0 := filter _ (OpponentStats.sortedOpponents gs u)).
  assert (HF : filter (fun e => OpponentStats.format e.2 = f) s3 ≡ₚ S0) by (unfold S0; by rewrite Hp).
  assert (HP : Forall OppSelectFacts.played (filter (fun e => OpponentStats.format e.2 = f) s3)).
  { rewrite HF. unfold S0. apply Forall_forall. intros x Hx. apply list_elem_of_filter in Hx as [_ Hx].
    revert x Hx. apply Forall_forall, OppSelectFacts.sortedOpponents_played. }
  destruct (filter (fun e => OpponentStats.format e.2 = f) s3) as [|e l] eqn:E.
  - split; [reflexivity|]. intros HS. exfalso. apply HS. by apply Permutation_nil in HF.
  - split; [intros HS; rewrite HS in HF; symmetry in HF; by apply Permutation_nil_cons in HF|].
    intros _.
    pose proof (OppSelectFacts.select_spec (Z.of_nat (length gs)) OpponentSelect.byLossFormat
                  OppSelectFacts.lossCount (e :: l) HP OppSelectFacts.byLossFormat_key) as H.
    destruct (OpponentSelect.select _ _ (e :: l)) as [sel' s3'].
    destruct H as (_ & (T1 & E1 & H1) & (T2 & E2 & H2) & (T3 & E3 & H3)). cbn [fst].
    split; [|split]; eexists; (split; [eassumption|]); eapply OppSelectFacts.topThreeBy_perm; eassumption.
Qed.
